(** * twitch-cutter: the VOD pipeline of [main.py], embedded and verified

    The Python program watches for a finished stream recording, publishes
    it, has a remote service cut clips, downloads and uploads them, and
    records the recording in a processed-files ledger.  This file embeds
    the orchestration code of [main.py] as executable Rocq functions and
    proves properties of that code.

    How the program is modelled:
    - State.  Stateful code runs in a state-and-exception monad over a
      [World]: the clock, the trace of calls that leave the process, the
      content of the state file, the dict [processed] that [main] shares
      with the pipeline, and whether the webhook listener is up.
    - Outside.  What the outside answers is an [Env]: the file system as
      a function of time, and the replies of the publish adapter, the
      clip service, the clip download, the video host and the write of
      the state file.  A reply is a value or the exception raised.
    - Time.  [time.time()] is an integer number of clock ticks, 1000 to
      the second.  [time.sleep] advances the clock by exactly its
      argument; every file-system observation takes [io_ticks] ticks, so
      that the file system can change between any two observations.
    - Loops.  Each [while True] takes a bound on its iterations and
      gives [NoFuel] when the bound runs out; the webhook loop takes the
      list of events its queue will deliver.
    - Library.  [int], [json.loads] and [str] are parameters ([PyLib]);
      a small decoder instantiates them for concrete runs.
    - Left out.  Logging, the parsing of the environment into
      [Settings], [validate_settings], the building of titles and file
      names (parameters of [Env]), and failures of [mkdir]. *)

From Stdlib Require Import ZArith List String Ascii Bool Lia DecimalString.
From Stdlib Require Import Sorted Permutation.
Import ListNotations.
Local Open Scope string_scope.
Local Open Scope Z_scope.

Set Implicit Arguments.
Local Set Warnings "-register-all".

(** ** Values exchanged with the outside: JSON *)

(** What [json.loads] produces.  Numbers are kept as integers; the code
    under study never does arithmetic on payload numbers. *)
Inductive json : Type :=
| JNull
| JBool (b : bool)
| JNum (n : Z)
| JStr (s : string)
| JArr (items : list json)
| JObj (fields : list (string * json)).

(** Python exceptions that the modelled code raises or lets through. *)
Inductive exn : Type :=
| FileNotFoundError
| TimeoutError
| ValueError
| RuntimeError
| AttributeError
| OSError
| HTTPError
| ApiError.

(** Reply of an external call: a value, or the exception it raised. *)
Inductive Reply (A : Type) : Type :=
| Good (a : A)
| Bad (e : exn).
Arguments Good {A} a.
Arguments Bad {A} e.

(** Python truthiness of a decoded JSON value ([if x:], [x or y]). *)
Definition truthy (j : json) : bool :=
  match j with
  | JNull => false
  | JBool b => b
  | JNum n => negb (n =? 0)
  | JStr s => negb (s =? "")%string
  | JArr l => match l with [] => false | _ => true end
  | JObj f => match f with [] => false | _ => true end
  end.

Fixpoint assoc (k : string) (fields : list (string * json)) : option json :=
  match fields with
  | [] => None
  | (k', v) :: rest => if (k' =? k)%string then Some v else assoc k rest
  end.

(** [d.get(k, default)] on a dict. *)
Definition dict_get (fields : list (string * json)) (k : string) (default : json) : json :=
  match assoc k fields with
  | Some v => v
  | None => default
  end.

(** [x.get(k, default)] on an arbitrary decoded value: only dicts have
    [get]; on anything else Python raises AttributeError. *)
Definition py_get (x : json) (k : string) (default : json) : Reply json :=
  match x with
  | JObj fields => Good (dict_get fields k default)
  | _ => Bad AttributeError
  end.

Definition is_dict (x : json) : bool :=
  match x with JObj _ => true | _ => false end.

(** [x.get(k, {}) if isinstance(x.get(k), dict) else {}] as used on
    dicts in the webhook resolver and in [_extract_project_id]. *)
Definition sub_dict (fields : list (string * json)) (k : string) : list (string * json) :=
  match dict_get fields k JNull with
  | JObj inner => inner
  | _ => []
  end.

(** ** Strings and paths *)

Definition Path := string.

(** A Python [str] is modelled by its UTF-8 bytes.  The characters that
    [str.strip()] removes are U+0009-000D, U+001C-0020, U+0085, U+00A0,
    U+1680, U+2000-200A, U+2028, U+2029, U+202F, U+205F and U+3000:
    [is_space] is those of one byte, [space2] and [space3] those of two
    and of three bytes. *)
Definition is_space (c : ascii) : bool :=
  let n := nat_of_ascii c in
  ((9 <=? n) && (n <=? 13) || (28 <=? n) && (n <=? 32))%nat.

Definition space2 (a b : ascii) : bool :=
  let x := nat_of_ascii a in
  let y := nat_of_ascii b in
  ((x =? 194) && ((y =? 133) || (y =? 160)))%nat.

Definition space3 (a b c : ascii) : bool :=
  let x := nat_of_ascii a in
  let y := nat_of_ascii b in
  let z := nat_of_ascii c in
  ((x =? 225) && (y =? 154) && (z =? 128)
   || (x =? 226) && (y =? 128)
      && ((128 <=? z) && (z <=? 138) || (z =? 168) || (z =? 169) || (z =? 175))
   || (x =? 226) && (y =? 129) && (z =? 159)
   || (x =? 227) && (y =? 128) && (z =? 128))%nat.

(** Leading white space off, the multi-byte characters recognised by
    [two] and [three]. *)
Fixpoint lstrip_by (two : ascii -> ascii -> bool) (three : ascii -> ascii -> ascii -> bool)
  (s : string) : string :=
  match s with
  | String a rest =>
      if is_space a then lstrip_by two three rest
      else
        match rest with
        | String b rest2 =>
            if two a b then lstrip_by two three rest2
            else
              match rest2 with
              | String c rest3 => if three a b c then lstrip_by two three rest3 else s
              | EmptyString => s
              end
        | EmptyString => s
        end
  | EmptyString => EmptyString
  end.

Definition lstrip (s : string) : string := lstrip_by space2 space3 s.

Fixpoint rev_string (s acc : string) : string :=
  match s with
  | EmptyString => acc
  | String c rest => rev_string rest (String c acc)
  end.

(** [str.strip()]: the trailing white space is taken off the reversed
    text, where the bytes of a character come last byte first. *)
Definition strip (s : string) : string :=
  rev_string
    (lstrip_by (fun a b => space2 b a) (fun a b c => space3 c b a)
       (rev_string (lstrip s) ""))
    "".

Definition lower_ascii (c : ascii) : ascii :=
  let n := nat_of_ascii c in
  if ((65 <=? n) && (n <=? 90))%nat then ascii_of_nat (n + 32) else c.

(** [str.lower()] on the ASCII range. *)
Fixpoint lower (s : string) : string :=
  match s with
  | EmptyString => EmptyString
  | String c rest => String (lower_ascii c) (lower rest)
  end.

(** [s[n:]] *)
Fixpoint drop (n : nat) (s : string) : string :=
  match n, s with
  | O, _ => s
  | S n', String _ rest => drop n' rest
  | S _, EmptyString => EmptyString
  end.

(** [needle in s] for strings. *)
Fixpoint contains (needle s : string) : bool :=
  prefix needle s ||
  match s with
  | EmptyString => false
  | String _ rest => contains needle rest
  end.

(** Text after the last ["/"]: [Path.name]. *)
Fixpoint name_from (s acc : string) : string :=
  match s with
  | EmptyString => acc
  | String c rest =>
      if Ascii.eqb c "/" then name_from rest "" else name_from rest (acc ++ String c "")
  end.
Definition path_name (p : Path) : string := name_from p "".

(** Position of the last ["."] in a name, if any. *)
Fixpoint last_dot (s : string) (i : nat) (found : option nat) : option nat :=
  match s with
  | EmptyString => found
  | String c rest => last_dot rest (S i) (if Ascii.eqb c "." then Some i else found)
  end.

(** [Path.suffix]: the last dot-extension of the final component, empty
    when the only dot leads or ends the name. *)
Definition suffix (p : Path) : string :=
  let name := path_name p in
  match last_dot name 0 None with
  | Some i =>
      if ((0 <? i) && (i <? String.length name - 1))%nat then drop i name else ""
  | None => ""
  end.

(** [Path.parent] of an absolute, resolved path: the text before the
    last ["/"], or the root. *)
Definition path_parent (p : Path) : Path :=
  let n := (String.length p - String.length (path_name p))%nat in
  match n with
  | O => "."
  | S O => "/"
  | S m => substring 0 m p
  end.

Definition string_in (x : string) (l : list string) : bool :=
  existsb (String.eqb x) l.

(** ** Configuration *)

(** The fields of the [Settings] dataclass that the modelled functions
    read. *)
Record Settings : Type := {
  trigger_mode : string;
  webhook_path : string;
  webhook_token : string;
  watch_dir : Path;
  vod_extensions : list string;
  poll_interval_sec : Z;
  stable_for_sec : Z;
  min_vod_size_mb : Z;
  processed_state_file : Path;
  source_path_rewrite_from : string;
  source_path_rewrite_to : string;
  publish_mode : string;
  opus_wait_timeout_sec : Z;
  opus_poll_interval_sec : Z;
  run_once : bool;
  explicit_vod_file : option Path
}.

(** ** The processed-files ledger *)

(** The dict [processed]: the key ["processed_files"] is absent or holds
    a list of path strings. *)
Record Processed : Type := {
  processed_files : option (list string)
}.

(** [processed.get("processed_files", [])] *)
Definition processed_list (st : Processed) : list string :=
  match processed_files st with
  | Some l => l
  | None => []
  end.

(** What the state file holds. *)
Inductive DiskFile : Type :=
| Absent
| Corrupt
| Stored (st : Processed).

(** [load_processed]: a missing or undecodable file gives the empty
    ledger. *)
Definition load_processed (d : DiskFile) : Processed :=
  match d with
  | Stored st => st
  | Absent | Corrupt => {| processed_files := Some [] |}
  end.

(** Reply of writing the state file.  [write_text] truncates the file
    when it opens it, so a failed write either never touched the file or
    left it cut short. *)
Inductive WriteReply : Type :=
| Written
| WriteFailed (e : exn) (truncated : bool).

(** ** The world *)

(** Calls that leave the process, in the order they are made. *)
Inductive Call : Type :=
| CPublish (mode : string) (vod : Path)
| CSubmit (video_url : string)
| CPoll (project_id : string) (poll_no : nat)
| CSleep (secs : Z)
| CDownload (url : json)
| CUploaderInit
| CUpload (file : Path)
| CSave (st : Processed)
| CShutdown.

Record World : Type := {
  clock : Z;                (* time.time(), in clock ticks *)
  trace : list Call;        (* calls made so far, oldest first *)
  disk : DiskFile;          (* content of the state file *)
  processed : Processed;    (* the dict shared by main and the pipeline *)
  listener_up : bool        (* the webhook server thread is serving *)
}.

Definition ticks_per_sec : Z := 1000.

Definition advance (d : Z) (w : World) : World :=
  {| clock := clock w + d; trace := trace w; disk := disk w;
     processed := processed w; listener_up := listener_up w |}.

Definition record_call (c : Call) (w : World) : World :=
  {| clock := clock w; trace := (trace w ++ [c])%list; disk := disk w;
     processed := processed w; listener_up := listener_up w |}.

Definition set_disk (d : DiskFile) (w : World) : World :=
  {| clock := clock w; trace := trace w; disk := d;
     processed := processed w; listener_up := listener_up w |}.

Definition set_processed (st : Processed) (w : World) : World :=
  {| clock := clock w; trace := trace w; disk := disk w;
     processed := st; listener_up := listener_up w |}.

Definition set_listener (b : bool) (w : World) : World :=
  {| clock := clock w; trace := trace w; disk := disk w;
     processed := processed w; listener_up := b |}.

(** ** The environment: what the outside answers *)

Record FileStat : Type := {
  st_is_file : bool;
  st_size : Z;
  st_mtime : Z            (* in clock ticks *)
}.

Record Env : Type := {
  (* file system, as a function of the time of the observation *)
  io_ticks : Z;                                   (* duration of one observation *)
  fs_stat : Z -> Path -> option FileStat;         (* None: no such path *)
  fs_rglob : Z -> Path -> list Path;              (* watch_dir.rglob("*") *)
  fs_iterdir : Z -> Path -> list Path;            (* directory.iterdir() *)
  resolve : Path -> Path;                         (* Path.resolve() *)
  (* publish adapters *)
  ext_publish : string -> Path -> Reply string;
  (* clip service *)
  opus_submit : string -> Reply json;             (* POST, raise_for_status, r.json() *)
  opus_poll : string -> nat -> Z * Reply json;    (* duration and body of the n-th GET *)
  (* clip download, video host *)
  clip_fetch : json -> Reply unit;
  clip_target : string -> nat -> option json -> Path;   (* file a clip is saved to *)
  yt_init : Reply unit;
  yt_text : json -> nat -> Reply (string * string);      (* build_yt_text *)
  yt_upload : Path -> string -> string -> Reply string;
  (* state file *)
  state_write : Processed -> WriteReply
}.

(** Library functions of Python that the code calls on request data. *)
Record PyLib : Type := {
  py_int : string -> option Z;          (* int(text); None: ValueError *)
  json_loads : string -> option json;   (* json.loads(raw.decode("utf-8")); None: it raised *)
  py_str : json -> string               (* str(x) of a decoded value that is not a string *)
}.

(** ** Webhook requests *)

Record Request : Type := {
  req_path : string;                     (* self.path *)
  req_token : option string;             (* header X-Webhook-Token *)
  req_content_length : option string;    (* header Content-Length *)
  req_body : string                      (* bytes waiting on self.rfile *)
}.

(** What the handler does with the connection: it sends a JSON
    response, or an exception leaves [do_POST] and nothing is sent. *)
Inductive Response : Type :=
| Responded (status : Z) (body : json)
| Unanswered (e : exn).

(** How a trigger loop stands when the model stops following it. *)
Inductive LoopEnd : Type :=
| Exited       (* left the loop by [break] *)
| Waiting.     (* blocked on the queue: every scripted event is consumed *)

(** ** Sorting as [sorted(..., key=..., reverse=True)] does *)

(** Stable insertion by decreasing key: an element goes in front of the
    first one whose key is not larger. *)
Fixpoint insert_desc {A} (x : A * Z) (l : list (A * Z)) : list (A * Z) :=
  match l with
  | [] => [x]
  | y :: rest => if snd x <? snd y then y :: insert_desc x rest else x :: l
  end.

Fixpoint sort_desc {A} (l : list (A * Z)) : list (A * Z) :=
  match l with
  | [] => []
  | x :: rest => insert_desc x (sort_desc rest)
  end.

(** ** A state-and-exception monad over the world *)

Inductive outcome (A : Type) : Type :=
| Val (a : A)          (* returned *)
| Exc (e : exn)        (* raised *)
| NoFuel.              (* the model's loop bound ran out *)
Arguments Val {A} a.
Arguments Exc {A} e.
Arguments NoFuel {A}.

Definition M (A : Type) : Type := World -> outcome A * World.

Definition ret {A} (a : A) : M A := fun w => (Val a, w).

Definition raise {A} (e : exn) : M A := fun w => (Exc e, w).

Definition out_of_fuel {A} : M A := fun w => (NoFuel, w).

Definition bind {A B} (m : M A) (k : A -> M B) : M B :=
  fun w =>
    match m w with
    | (Val a, w1) => k a w1
    | (Exc e, w1) => (Exc e, w1)
    | (NoFuel, w1) => (NoFuel, w1)
    end.

(** [try: m except Exception as e: h e] *)
Definition try_except {A} (m : M A) (h : exn -> M A) : M A :=
  fun w =>
    match m w with
    | (Exc e, w1) => h e w1
    | r => r
    end.

Definition gets {A} (f : World -> A) : M A := fun w => (Val (f w), w).

Definition modify (f : World -> World) : M unit := fun w => (Val tt, f w).

Definition lift {A} (r : Reply A) : M A :=
  match r with
  | Good a => ret a
  | Bad e => raise e
  end.

Declare Scope monad_scope.
Delimit Scope monad_scope with monad.
Notation "x <- c ;; k" := (bind c (fun x => k))
  (at level 61, c at next level, right associativity) : monad_scope.
Notation "c ;;; k" := (bind c (fun _ => k))
  (at level 61, right associativity) : monad_scope.
Local Open Scope monad_scope.

(** [time.sleep(secs)]: a negative argument raises ValueError. *)
Definition sleep (secs : Z) : M unit :=
  if secs <? 0 then raise ValueError
  else modify (fun w => advance (secs * ticks_per_sec) (record_call (CSleep secs) w)).

(** [time.time()] *)
Definition now : M Z := gets clock.

(** ** The program *)

Section Program.

Variable lib : PyLib.
Variable env : Env.
Variable s : Settings.

(** *** File-system observations

    Each observation reads the file system as it is at the current
    clock value and takes [io_ticks env] ticks. *)

Definition observe {A} (f : Z -> A) : M A :=
  fun w => (Val (f (clock w)), advance (io_ticks env) w).

(** [p.stat()]: raises FileNotFoundError when the path is gone. *)
Definition stat (p : Path) : M FileStat :=
  r <- observe (fun t => fs_stat env t p) ;;
  match r with
  | Some st => ret st
  | None => raise FileNotFoundError
  end.

(** [p.exists()] *)
Definition path_exists (p : Path) : M bool :=
  observe (fun t => match fs_stat env t p with Some _ => true | None => false end).

(** [p.is_file()] *)
Definition path_is_file (p : Path) : M bool :=
  observe (fun t => match fs_stat env t p with Some st => st_is_file st | None => false end).

(** *** Persisting the ledger *)

(** [save_processed(path, state)] *)
Definition save_processed (st : Processed) : M unit :=
  modify (record_call (CSave st)) ;;;
  match state_write env st with
  | Written => modify (set_disk (Stored st))
  | WriteFailed e truncated =>
      modify (fun w => if truncated then set_disk Corrupt w else w) ;;;
      raise e
  end.

(** *** Publishing *)

(** [publish_vod]: dispatch on the publish mode; the adapters
    themselves are external. *)
Definition publish_vod (vod_path : Path) : M string :=
  if (publish_mode s =? "local_http")%string then
    modify (record_call (CPublish "local_http" vod_path)) ;;;
    lift (ext_publish env "local_http" vod_path)
  else if (publish_mode s =? "dropbox")%string then
    modify (record_call (CPublish "dropbox" vod_path)) ;;;
    lift (ext_publish env "dropbox" vod_path)
  else raise ValueError.

(** *** The clip service client *)

(** [OpusClient._extract_project_id] *)
Definition _extract_project_id (body : json) : Reply string :=
  match body with
  | JObj fields =>
      let data := sub_dict fields "data" in
      let in_data k :=
        if is_dict (dict_get fields "data" JNull) then dict_get data k JNull else JNull in
      let candidates :=
        [dict_get fields "projectId" JNull; dict_get fields "id" JNull;
         in_data "projectId"; in_data "id"] in
      match find (fun c => truthy c && match c with JStr _ => true | _ => false end) candidates with
      | Some (JStr c) => Good c
      | _ => Bad RuntimeError
      end
  | _ => Bad AttributeError
  end.

(** [OpusClient.create_clip_project] *)
Definition create_clip_project (video_url : string) : M string :=
  modify (record_call (CSubmit video_url)) ;;;
  body <- lift (opus_submit env video_url) ;;
  lift (_extract_project_id body).

(** One pass of the [while True] body of [wait_exportable_clips]:
    [inl clips] returns, [inr tt] goes round again. *)
Definition poll_once (project_id : string) (started : Z) (poll_no : nat)
  : M (list json + unit) :=
  modify (record_call (CPoll project_id poll_no)) ;;;
  modify (advance (fst (opus_poll env project_id poll_no))) ;;;
  body <- lift (snd (opus_poll env project_id poll_no)) ;;
  clips <- lift (py_get body "data" (JArr [])) ;;
  match clips with
  | JArr (c :: rest) => ret (inl (c :: rest))
  | _ =>
      t <- now ;;
      let elapsed := t - started in
      if elapsed >? opus_wait_timeout_sec s * ticks_per_sec then raise TimeoutError
      else sleep (opus_poll_interval_sec s) ;;; ret (inr tt)
  end.

Fixpoint poll_loop (fuel : nat) (project_id : string) (started : Z) (poll_no : nat)
  : M (list json) :=
  match fuel with
  | O => out_of_fuel
  | S fuel' =>
      r <- poll_once project_id started (S poll_no) ;;
      match r with
      | inl clips => ret clips
      | inr _ => poll_loop fuel' project_id started (S poll_no)
      end
  end.

(** [OpusClient.wait_exportable_clips] *)
Definition wait_exportable_clips (fuel : nat) (project_id : string) : M (list json) :=
  started <- now ;;
  poll_loop fuel project_id started 0.

(** *** Downloading and uploading *)

(** [download_clips]: the loop over [enumerate(clips, start=1)]. *)
Fixpoint download_from (idx : nat) (clips : list json) (project_id : string)
  : M (list Path) :=
  match clips with
  | [] => ret []
  | JObj fields :: rest =>
      let clip_id := assoc "id" fields in     (* None: the default clip_<idx> *)
      let url := dict_get fields "uriForPreview" JNull in
      if negb (truthy url) then download_from (S idx) rest project_id
      else
        modify (record_call (CDownload url)) ;;;
        lift (clip_fetch env url) ;;;
        done <- download_from (S idx) rest project_id ;;
        ret (clip_target env project_id idx clip_id :: done)
  | _ :: _ => raise AttributeError
  end.

Definition download_clips (clips : list json) (project_id : string) : M (list Path) :=
  download_from 1 clips project_id.

(** The upload loop of [run_pipeline_for_vod] over
    [enumerate(downloaded_files, start=1)]. *)
Fixpoint upload_from (idx : nat) (files : list Path) (clips : list json) : M unit :=
  match files with
  | [] => ret tt
  | file_path :: rest =>
      let clip_info := nth (idx - 1) clips (JObj []) in
      td <- lift (yt_text env clip_info idx) ;;
      modify (record_call (CUpload file_path)) ;;;
      lift (yt_upload env file_path (fst td) (snd td)) ;;;
      upload_from (S idx) rest clips
  end.

(** *** The orchestrator *)

(** [run_pipeline_for_vod(settings, processed, vod_path)]; the dict
    [processed] is the world's. *)
Definition run_pipeline_for_vod (fuel : nat) (vod_path : Path) : M unit :=
  ex <- path_exists vod_path ;;
  if negb ex then raise FileNotFoundError
  else
    seen <- gets (fun w => processed_list (processed w)) ;;
    if string_in (resolve env vod_path) seen then ret tt
    else
      video_url <- publish_vod vod_path ;;
      project_id <- create_clip_project video_url ;;
      clips <- wait_exportable_clips fuel project_id ;;
      downloaded_files <- download_clips clips project_id ;;
      modify (record_call CUploaderInit) ;;;
      lift (yt_init env) ;;;
      upload_from 1 downloaded_files clips ;;;
      modify (fun w =>
        set_processed
          {| processed_files :=
               Some (processed_list (processed w) ++ [resolve env vod_path])%list |} w) ;;;
      st <- gets processed ;;
      save_processed st.

(** *** The webhook resolver *)

(** [_rewrite_source_path] *)
Definition _rewrite_source_path (raw_path : string) : Path :=
  let from := source_path_rewrite_from s in
  let to := source_path_rewrite_to s in
  let rewritten :=
    if negb (from =? "")%string && negb (to =? "")%string then
      if prefix from raw_path then (to ++ drop (String.length from) raw_path)%string
      else raw_path
    else raw_path in
  resolve env rewritten.

(** [[p for p in ps if p.is_file() and p.suffix.lower() in extensions]] *)
Fixpoint media_files (ps : list Path) : M (list Path) :=
  match ps with
  | [] => ret []
  | p :: rest =>
      f <- path_is_file p ;;
      kept <- media_files rest ;;
      ret (if f && string_in (lower (suffix p)) (vod_extensions s) then p :: kept else kept)
  end.

(** The key pass of [sorted]: one [stat] per element, in list order. *)
Fixpoint with_key (key : FileStat -> Z) (ps : list Path) : M (list (Path * Z)) :=
  match ps with
  | [] => ret []
  | p :: rest =>
      st <- stat p ;;
      keyed <- with_key key rest ;;
      ret ((p, key st) :: keyed)
  end.

(** [sorted(ps, key=lambda p: key(p.stat()), reverse=True)] *)
Definition sorted_by (key : FileStat -> Z) (ps : list Path) : M (list Path) :=
  keyed <- with_key key ps ;;
  ret (map fst (sort_desc keyed)).

(** [_largest_media_in_dir] *)
Definition _largest_media_in_dir (directory : Path) : M (option Path) :=
  ex <- path_exists directory ;;
  if negb ex then ret None
  else
    listing <- observe (fun t => fs_iterdir env t directory) ;;
    candidates <- media_files listing ;;
    match candidates with
    | [] => ret None
    | _ => sorted <- sorted_by st_size candidates ;; ret (hd_error sorted)
    end.

(** [str(x)] *)
Definition to_str (x : json) : string :=
  match x with
  | JStr t => t
  | _ => py_str lib x
  end.

(** The list [direct_paths] built from the two path keys. *)
Definition direct_paths (vod : list (string * json)) : list string :=
  flat_map
    (fun key =>
       match dict_get vod key JNull with
       | JStr value => if negb (strip value =? "")%string then [strip value] else []
       | _ => []
       end)
    ["path_downloaded_vod"; "path_playlist"].

(** The loop [for raw in direct_paths]. *)
Fixpoint try_direct (raws : list string) : M (option Path) :=
  match raws with
  | [] => ret None
  | raw :: rest =>
      let p := _rewrite_source_path raw in
      ex <- path_exists p ;;
      isf <- (if ex then path_is_file p else ret false) ;;
      if isf then
        if string_in (lower (suffix p)) (vod_extensions s) then ret (Some p)
        else if string_in (lower (suffix p)) [".m3u8"; ".txt"] then
          cand <- _largest_media_in_dir (path_parent p) ;;
          match cand with
          | Some c => ret (Some c)
          | None => try_direct rest
          end
        else try_direct rest
      else try_direct rest
  end.

(** The basename search of the resolver. *)
Definition by_basename (vod : list (string * json)) : M (option Path) :=
  let basename := strip (to_str (dict_get vod "basename" (JStr ""))) in
  ex <- (if negb (basename =? "")%string then path_exists (watch_dir s) else ret false) ;;
  if ex then
    all_files <- observe (fun t => fs_rglob env t (watch_dir s)) ;;
    media <- media_files all_files ;;
    let matching := filter (fun p => contains basename (path_name p)) media in
    match matching with
    | [] => ret None
    | _ =>
        seen <- gets (fun w => processed_list (processed w)) ;;
        let unseen := filter (fun p => negb (string_in (resolve env p) seen)) matching in
        let use := match unseen with [] => matching | _ => unseen end in
        sorted <- sorted_by st_mtime use ;;
        ret (hd_error sorted)
    end
  else ret None.

(** [action == "end_download"] *)
Definition is_end_download (action : json) : bool :=
  match action with
  | JStr a => (a =? "end_download")%string
  | _ => false
  end.

(** [resolve_vod_from_webhook(settings, payload, processed)] *)
Definition resolve_vod_from_webhook (payload : json) : M (option Path) :=
  action <- lift (py_get payload "action" JNull) ;;
  if negb (is_end_download action) then ret None
  else
    let fields := match payload with JObj f => f | _ => [] end in
    let data := sub_dict fields "data" in
    let vod := sub_dict data "vod" in
    found <- try_direct (direct_paths vod) ;;
    match found with
    | Some p => ret (Some p)
    | None => by_basename vod
    end.

(** *** The webhook handler *)

Definition error_body (message : string) : json :=
  JObj [("status", JStr "error"); ("message", JStr message)].

Definition ok_body : json := JObj [("status", JStr "ok")].

(** [WebhookHandler.do_POST]: [hs] is the class attribute [settings],
    [queue] the shared event queue, oldest first. *)
Definition do_POST (hs : option Settings) (req : Request) (queue : list json)
  : Response * list json :=
  match hs with
  | None => (Responded 500 (error_body "Settings not loaded"), queue)
  | Some cfg =>
      if negb (req_path req =? webhook_path cfg)%string then
        (Responded 404 (error_body "Not found"), queue)
      else if negb (webhook_token cfg =? "")%string
              && negb (match req_token req with Some t => t | None => "" end
                       =? webhook_token cfg)%string then
        (Responded 401 (error_body "Unauthorized"), queue)
      else
        let content_length :=
          match py_int lib (match req_content_length req with Some h => h | None => "0" end) with
          | Some n => n
          | None => 0
          end in
        let raw :=
          if content_length >? 0 then substring 0 (Z.to_nat content_length) (req_body req)
          else "{}" in
        match json_loads lib raw with
        | None => (Responded 400 (error_body "Invalid JSON"), queue)
        | Some payload =>
            match py_get payload "action" JNull with
            | Bad e => (Unanswered e, queue)
            | Good _ => (Responded 200 ok_body, (queue ++ [payload])%list)
            end
        end
  end.

(** The token test of [do_POST] passes: no token is configured, or the
    header carries it. *)
Definition token_ok (cfg : Settings) (req : Request) : bool :=
  (webhook_token cfg =? "")%string
  || (match req_token req with Some t => t | None => "" end =? webhook_token cfg)%string.

(** The bytes [do_POST] decodes: [raw]. *)
Definition request_body (req : Request) : string :=
  let content_length :=
    match py_int lib (match req_content_length req with Some h => h | None => "0" end) with
    | Some n => n
    | None => 0
    end in
  if content_length >? 0 then substring 0 (Z.to_nat content_length) (req_body req)
  else "{}".

(** *** The poll-strategy locator *)

(** [list_vod_candidates] *)
Definition list_vod_candidates : M (list Path) :=
  ex <- path_exists (watch_dir s) ;;
  if negb ex then ret []
  else
    listing <- observe (fun t => fs_rglob env t (watch_dir s)) ;;
    files <- media_files listing ;;
    sorted_by st_mtime files.

(** The sleep between the two size samples, in seconds. *)
Definition sample_interval (stable_for : Z) : Z := Z.max 1 (stable_for / 3).

(** [is_file_stable] *)
Definition is_file_stable (path : Path) (stable_for : Z) : M bool :=
  st1 <- stat path ;;
  sleep (sample_interval stable_for) ;;;
  st2 <- stat path ;;
  ret (st_size st1 =? st_size st2).

Definition min_bytes : Z := min_vod_size_mb s * 1024 * 1024.

(** The body of [for p in candidates] in [wait_for_finished_vod]:
    [true] is the [return p], [false] a [continue] or the fall-through. *)
Definition check_candidate (seen : list string) (p : Path) : M bool :=
  if string_in (resolve env p) seen then ret false
  else
    st <- stat p ;;
    if st_size st <? min_bytes then ret false
    else
      t <- now ;;
      st' <- stat p ;;
      let age := t - st_mtime st' in
      if age <? stable_for_sec s * ticks_per_sec then ret false
      else is_file_stable p (stable_for_sec s).

Fixpoint scan (seen : list string) (candidates : list Path) : M (option Path) :=
  match candidates with
  | [] => ret None
  | p :: rest =>
      selected <- check_candidate seen p ;;
      if selected then ret (Some p) else scan seen rest
  end.

(** The [while True] of [wait_for_finished_vod], at most [cycles] times. *)
Fixpoint poll_cycles (cycles : nat) (seen : list string) : M Path :=
  match cycles with
  | O => out_of_fuel
  | S cycles' =>
      candidates <- list_vod_candidates ;;
      found <- scan seen candidates ;;
      match found with
      | Some p => ret p
      | None => sleep (poll_interval_sec s) ;;; poll_cycles cycles' seen
      end
  end.

(** [wait_for_finished_vod(settings, processed)] *)
Definition wait_for_finished_vod (cycles : nat) : M Path :=
  seen <- gets (fun w => processed_list (processed w)) ;;
  poll_cycles cycles seen.

(** *** The trigger loops of [main] *)

Definition shutdown (w : World) : World :=
  set_listener false (record_call CShutdown w).

(** The [while True] of the webhook branch.  [events] scripts what
    successive [event_queue.get(timeout=60)] calls give: [None] is
    [queue.Empty]. *)
Fixpoint webhook_loop (fuel : nat) (events : list (option json)) (handled : Z)
  : M (LoopEnd * Z) :=
  match events with
  | [] => ret (Waiting, handled)
  | None :: rest => webhook_loop fuel rest handled
  | Some payload :: rest =>
      vod <- resolve_vod_from_webhook payload ;;
      match vod with
      | None => webhook_loop fuel rest handled
      | Some vod_path =>
          handled' <- try_except
                        (run_pipeline_for_vod fuel vod_path ;;; ret (handled + 1))
                        (fun _ => ret handled) ;;
          if run_once s && (handled' >=? 1) then ret (Exited, handled')
          else webhook_loop fuel rest handled'
      end
  end.

(** The webhook branch of [main]: start the listener, loop, and shut the
    listener down in the [finally] once the loop is left. *)
Definition webhook_main (fuel : nat) (events : list (option json)) : M (LoopEnd * Z) :=
  fun w =>
    match webhook_loop fuel events 0 (set_listener true w) with
    | (Val (Exited, h), w1) => (Val (Exited, h), shutdown w1)
    | (Exc e, w1) => (Exc e, shutdown w1)
    | r => r
    end.

(** The poll branch of [main], at most [rounds] times round the loop. *)
Fixpoint poll_main (rounds : nat) (fuel : nat) : M unit :=
  match rounds with
  | O => out_of_fuel
  | S rounds' =>
      try_except
        (vod_path <- wait_for_finished_vod fuel ;; run_pipeline_for_vod fuel vod_path)
        (fun _ => ret tt) ;;;
      if run_once s then ret tt
      else sleep (Z.max 10 (poll_interval_sec s)) ;;; poll_main rounds' fuel
  end.

(** *** Views used to state properties of the orchestrator *)

(** Stage 7 of the orchestrator: the last three statements of
    [run_pipeline_for_vod]. *)
Definition commit (vod_path : Path) : M unit :=
  modify (fun w =>
    set_processed
      {| processed_files :=
           Some (processed_list (processed w) ++ [resolve env vod_path])%list |} w) ;;;
  st <- gets processed ;;
  save_processed st.

(** Stages 5 and 6: download the clips and upload them. *)
Definition fetch_and_upload (clips : list json) (project_id : string) : M unit :=
  downloaded_files <- download_clips clips project_id ;;
  modify (record_call CUploaderInit) ;;;
  lift (yt_init env) ;;;
  upload_from 1 downloaded_files clips.

(** Stages 1 to 3: validate, publish and submit.  [None] is the benign
    skip, [Some project_id] the project the run then waits on. *)
Definition reach_await (vod_path : Path) : M (option string) :=
  ex <- path_exists vod_path ;;
  if negb ex then raise FileNotFoundError
  else
    seen <- gets (fun w => processed_list (processed w)) ;;
    if string_in (resolve env vod_path) seen then ret None
    else
      video_url <- publish_vod vod_path ;;
      project_id <- create_clip_project video_url ;;
      ret (Some project_id).

(** How one poll of the clip service reads to [wait_exportable_clips]. *)
Inductive PollView : Type :=
| Ready (clips : list json)
| NotReady
| PollFailed (e : exn).

Definition view_poll (r : Reply json) : PollView :=
  match r with
  | Bad e => PollFailed e
  | Good body =>
      match py_get body "data" (JArr []) with
      | Bad e => PollFailed e
      | Good (JArr (c :: rest)) => Ready (c :: rest)
      | Good _ => NotReady
      end
  end.

(** Clock value when the reply of the [k]-th poll is in, for a wait
    started at [t0] whose earlier polls were all followed by the sleep. *)
Fixpoint poll_done (project_id : string) (t0 : Z) (k : nat) : Z :=
  match k with
  | O => t0
  | S j =>
      poll_done project_id t0 j
      + match j with O => 0 | S _ => opus_poll_interval_sec s * ticks_per_sec end
      + fst (opus_poll env project_id (S j))
  end.

(** The calls of the first [n] polls, each followed by the sleep
    between polls. *)
Fixpoint idle_calls (project_id : string) (n : nat) : list Call :=
  match n with
  | O => []
  | S m =>
      (idle_calls project_id m
         ++ [CPoll project_id (S m); CSleep (opus_poll_interval_sec s)])%list
  end.

(** The world after the first [n] polls, each followed by the sleep. *)
Fixpoint idle_world (project_id : string) (n : nat) (w : World) : World :=
  match n with
  | O => w
  | S m =>
      advance (opus_poll_interval_sec s * ticks_per_sec)
        (record_call (CSleep (opus_poll_interval_sec s))
           (advance (fst (opus_poll env project_id (S m)))
              (record_call (CPoll project_id (S m)) (idle_world project_id m w))))
  end.

(** A poll that is not ready and is answered within the timeout: the
    loop sleeps and goes round again. *)
Definition idle_poll (project_id : string) (t0 : Z) (k : nat) : Prop :=
  view_poll (snd (opus_poll env project_id k)) = NotReady /\
  poll_done project_id t0 k - t0 <= opus_wait_timeout_sec s * ticks_per_sec.

(** The candidates [ps] were examined one after the other from world
    [w] and none was selected; [w1] is the world after the last. *)
Fixpoint rejected_all (seen : list string) (ps : list Path) (w w1 : World) : Prop :=
  match ps with
  | [] => w1 = w
  | q :: rest =>
      exists wq, check_candidate seen q w = (Val false, wq) /\ rejected_all seen rest wq w1
  end.

(** Keys in decreasing order. *)
Definition by_decreasing_key {A} (a b : A * Z) : Prop := snd b <= snd a.

(** The length of the stability sample in clock ticks. *)
Definition sample_ticks : Z := sample_interval (stable_for_sec s) * ticks_per_sec.

(** Every key is what [stat] gave for its path at some moment. *)
Definition keys_sampled (key : FileStat -> Z) (keyed : list (Path * Z)) : Prop :=
  Forall (fun qk => exists t st, fs_stat env t (fst qk) = Some st /\ key st = snd qk) keyed.





End Program.

(** ** The ledger of a world *)

(** Two worlds with the same ledger: the dict in memory and the state
    file. *)
Definition same_ledger (w w' : World) : Prop :=
  processed w' = processed w /\ disk w' = disk w.

(** A computation that never touches the ledger. *)
Definition keeps_ledger {A} (m : M A) : Prop :=
  forall w, same_ledger w (snd (m w)).

(** ** A concrete stand-in for the Python library

    A decoder for integers and for the JSON texts of the examples
    (objects, arrays, strings without escapes, integers and the three
    literals), to run the handler on concrete requests. *)

Definition digit_of (c : ascii) : option Z :=
  let n := nat_of_ascii c in
  if ((48 <=? n) && (n <=? 57))%nat then Some (Z.of_nat (n - 48)) else None.

Fixpoint read_digits (t : string) (acc : Z) : Z * string :=
  match t with
  | String c rest =>
      match digit_of c with
      | Some d => read_digits rest (acc * 10 + d)
      | None => (acc, t)
      end
  | EmptyString => (acc, t)
  end.

(** One digit at least. *)
Definition read_nat (t : string) : option (Z * string) :=
  match t with
  | String c rest =>
      match digit_of c with
      | Some d => Some (read_digits rest d)
      | None => None
      end
  | EmptyString => None
  end.

(** [int(text)] on decimal text: blanks around, an optional sign. *)
Definition demo_int (text : string) : option Z :=
  let t := strip text in
  let signed :=
    match t with
    | String "-" rest => (-1, rest)
    | String "+" rest => (1, rest)
    | _ => (1, t)
    end in
  match read_nat (snd signed) with
  | Some (n, EmptyString) => Some (fst signed * n)
  | _ => None
  end.

Definition quote : ascii := ascii_of_nat 34.
Definition backslash : ascii := ascii_of_nat 92.

Fixpoint json_ws (t : string) : string :=
  match t with
  | String c rest =>
      let n := nat_of_ascii c in
      if ((n =? 32) || (n =? 9) || (n =? 10) || (n =? 13))%nat then json_ws rest else t
  | EmptyString => EmptyString
  end.

(** The text of a string, read from after its opening quote. *)
Fixpoint read_string (t acc : string) : option (string * string) :=
  match t with
  | EmptyString => None
  | String c rest =>
      if Ascii.eqb c quote then Some (rev_string acc EmptyString, rest)
      else if Ascii.eqb c backslash then None
      else read_string rest (String c acc)
  end.

(** Elements up to the closing bracket. *)
Fixpoint read_items (read : string -> option (json * string)) (n : nat) (t : string)
  : option (list json * string) :=
  match n with
  | O => None
  | S n' =>
      match read t with
      | Some (v, rest) =>
          match json_ws rest with
          | String "," rest' =>
              match read_items read n' rest' with
              | Some (vs, rest'') => Some (v :: vs, rest'')
              | None => None
              end
          | String "]" rest' => Some ([v], rest')
          | _ => None
          end
      | None => None
      end
  end.

(** Members up to the closing brace; of two members with one key the
    later stands. *)
Fixpoint read_members (read : string -> option (json * string)) (n : nat) (t : string)
  : option (list (string * json) * string) :=
  match n with
  | O => None
  | S n' =>
      match json_ws t with
      | String c rest =>
          if Ascii.eqb c quote then
            match read_string rest EmptyString with
            | Some (k, rest1) =>
                match json_ws rest1 with
                | String ":" rest2 =>
                    match read rest2 with
                    | Some (v, rest3) =>
                        match json_ws rest3 with
                        | String "," rest4 =>
                            match read_members read n' rest4 with
                            | Some (ms, rest5) =>
                                Some (match assoc k ms with
                                      | Some _ => ms
                                      | None => (k, v) :: ms
                                      end, rest5)
                            | None => None
                            end
                        | String "}" rest4 => Some ([(k, v)], rest4)
                        | _ => None
                        end
                    | None => None
                    end
                | _ => None
                end
            | None => None
            end
          else None
      | EmptyString => None
      end
  end.

Fixpoint read_value (fuel : nat) (t : string) : option (json * string) :=
  match fuel with
  | O => None
  | S fuel' =>
      match json_ws t with
      | EmptyString => None
      | String c rest =>
          if Ascii.eqb c quote then
            match read_string rest EmptyString with
            | Some (text, rest') => Some (JStr text, rest')
            | None => None
            end
          else if Ascii.eqb c "[" then
            match json_ws rest with
            | String "]" rest' => Some (JArr [], rest')
            | _ =>
                match read_items (read_value fuel') (String.length rest) rest with
                | Some (vs, rest') => Some (JArr vs, rest')
                | None => None
                end
            end
          else if Ascii.eqb c "{" then
            match json_ws rest with
            | String "}" rest' => Some (JObj [], rest')
            | _ =>
                match read_members (read_value fuel') (String.length rest) rest with
                | Some (ms, rest') => Some (JObj ms, rest')
                | None => None
                end
            end
          else if prefix "null" (String c rest) then Some (JNull, drop 4 (String c rest))
          else if prefix "true" (String c rest) then Some (JBool true, drop 4 (String c rest))
          else if prefix "false" (String c rest) then Some (JBool false, drop 5 (String c rest))
          else if Ascii.eqb c "-" then
            match read_nat rest with
            | Some (n, rest') => Some (JNum (- n), rest')
            | None => None
            end
          else
            match read_nat (String c rest) with
            | Some (n, rest') => Some (JNum n, rest')
            | None => None
            end
      end
  end.

(** [json.loads(text)]: one value and nothing but blanks after it. *)
Definition demo_loads (text : string) : option json :=
  match read_value (S (String.length text)) text with
  | Some (v, rest) =>
      match json_ws rest with
      | EmptyString => Some v
      | _ => None
      end
  | None => None
  end.

(** [str(x)] of the scalars. *)
Definition demo_str (x : json) : string :=
  match x with
  | JNull => "None"
  | JBool true => "True"
  | JBool false => "False"
  | JNum n => NilZero.string_of_int (Z.to_int n)
  | JStr t => t
  | JArr _ => "[...]"
  | JObj _ => "{...}"
  end.

Definition demo_lib : PyLib := {|
  py_int := demo_int;
  json_loads := demo_loads;
  py_str := demo_str
|}.

(** ** A concrete scenario

    The end-to-end scenario of the specification, used to run the model:
    a 500 MB [.ts] recording in the watch directory, last modified 200 s
    before the clock starts; publishing, submitting, downloading and
    uploading all succeed; the first poll of the clip service is empty
    and the second has two clips. *)

Definition demo_settings : Settings := {|
  trigger_mode := "webhook";
  webhook_path := "/webhook/livestreamdvr";
  webhook_token := "s3cret";
  watch_dir := "/data/vods";
  vod_extensions := [".ts"; ".mp4"; ".mkv"];
  poll_interval_sec := 20;
  stable_for_sec := 120;
  min_vod_size_mb := 200;
  processed_state_file := "/data/processed_vods.json";
  source_path_rewrite_from := "/rec";
  source_path_rewrite_to := "/data/vods";
  publish_mode := "local_http";
  opus_wait_timeout_sec := 300;
  opus_poll_interval_sec := 15;
  run_once := true;
  explicit_vod_file := None
|}.

Definition demo_vod : Path := "/data/vods/stream.ts".

Definition a_dir : FileStat := {| st_is_file := false; st_size := 4096; st_mtime := 0 |}.

Definition a_file (size mtime : Z) : FileStat :=
  {| st_is_file := true; st_size := size; st_mtime := mtime |}.

(** The recording sits finished in the watch directory at all times. *)
Definition demo_fs (t : Z) (p : Path) : option FileStat :=
  if (p =? "/data/vods")%string then Some a_dir
  else if (p =? demo_vod)%string then Some (a_file 524288000 (-200000))
  else None.

Definition demo_clip (id title : string) : json :=
  JObj [("id", JStr id); ("uriForPreview", JStr ("https://cdn/" ++ id ++ ".mp4"));
        ("title", JStr title)].

Definition demo_clips : list json := [demo_clip "c1" "First"; demo_clip "c2" "Second"].

(** Polls take 200 ticks; the first is empty, later ones have the clips. *)
Definition demo_poll (project_id : string) (poll_no : nat) : Z * Reply json :=
  (200, Good (JObj [("data", JArr (match poll_no with 1%nat => [] | _ => demo_clips end))])).

(** A clip service that never has clips. *)
Definition never_ready (project_id : string) (poll_no : nat) : Z * Reply json :=
  (200, Good (JObj [("data", JArr [])])).

Definition scenario (fs : Z -> Path -> option FileStat)
  (poll : string -> nat -> Z * Reply json) (publish : Reply string)
  (write : WriteReply) : Env := {|
  io_ticks := 1;
  fs_stat := fs;
  fs_rglob := fun t dir => filter (fun p => match fs t p with Some _ => true | None => false end)
                             [demo_vod; "/data/vods/old.mp4"; "/data/vods/stream.m3u8"];
  fs_iterdir := fun t dir => filter (fun p => match fs t p with Some _ => true | None => false end)
                               [demo_vod; "/data/vods/old.mp4"; "/data/vods/stream.m3u8"];
  resolve := fun p => p;
  ext_publish := fun mode p => publish;
  opus_submit := fun url => Good (JObj [("projectId", JStr "p1")]);
  opus_poll := poll;
  clip_fetch := fun url => Good tt;
  clip_target := fun project_id idx clip_id =>
    match clip_id with
    | Some (JStr id) => ("downloads/" ++ project_id ++ "/" ++ id ++ ".mp4")%string
    | _ => ("downloads/" ++ project_id ++ "/clip.mp4")%string
    end;
  yt_init := Good tt;
  yt_text := fun clip idx =>
    match clip with
    | JObj fields => Good (match dict_get fields "title" JNull with JStr t => t | _ => "Short clip" end, "")
    | _ => Bad AttributeError
    end;
  yt_upload := fun file title description => Good ("yt:" ++ title)%string;
  state_write := fun st => write
|}.

Definition demo_env : Env :=
  scenario demo_fs demo_poll (Good "https://host/abc.ts") Written.

(** The world of a fresh start: no state file, the empty ledger loaded. *)
Definition demo_world : World := {|
  clock := 0;
  trace := [];
  disk := Absent;
  processed := load_processed Absent;
  listener_up := false
|}.

(** The demo settings with a clip wait of 10 s, shorter than the 15 s
    between polls. *)
Definition impatient_settings : Settings := {|
  trigger_mode := trigger_mode demo_settings;
  webhook_path := webhook_path demo_settings;
  webhook_token := webhook_token demo_settings;
  watch_dir := watch_dir demo_settings;
  vod_extensions := vod_extensions demo_settings;
  poll_interval_sec := poll_interval_sec demo_settings;
  stable_for_sec := stable_for_sec demo_settings;
  min_vod_size_mb := min_vod_size_mb demo_settings;
  processed_state_file := processed_state_file demo_settings;
  source_path_rewrite_from := source_path_rewrite_from demo_settings;
  source_path_rewrite_to := source_path_rewrite_to demo_settings;
  publish_mode := publish_mode demo_settings;
  opus_wait_timeout_sec := 10;
  opus_poll_interval_sec := opus_poll_interval_sec demo_settings;
  run_once := run_once demo_settings;
  explicit_vod_file := explicit_vod_file demo_settings
|}.

(** The recording is deleted 100 s after the clock starts. *)
Definition fs_deleted_later (t : Z) (p : Path) : option FileStat :=
  if (p =? demo_vod)%string && (100000 <=? t) then None else demo_fs t p.

(** A request to the configured path with the right token. *)
Definition demo_request (content_length : option string) (body : string) : Request := {|
  req_path := "/webhook/livestreamdvr";
  req_token := Some "s3cret";
  req_content_length := content_length;
  req_body := body
|}.

(** A webhook event of the recorder: the download of a stream ended. *)
Definition end_download (vod : list (string * json)) : json :=
  JObj [("action", JStr "end_download"); ("data", JObj [("vod", JObj vod)])].


(** An older, finished recording next to the demo recording, which
    itself is deleted 20 s after the clock starts. *)
Definition fs_vanishing (t : Z) (p : Path) : option FileStat :=
  if (p =? "/data/vods")%string then Some a_dir
  else if (p =? demo_vod)%string then
    if t <? 20000 then Some (a_file 524288000 (-200000)) else None
  else if (p =? "/data/vods/old.mp4")%string then Some (a_file 314572800 (-900000))
  else None.

(** * More of the program

    The functions of [main.py] beside the orchestration core, and the
    notions used to state what the whole of it does and never does. *)

(** ** What a computation leaves alone *)

(** Only the clock moves: no outside call, no sleep, the ledger and the
    listener as they were. *)
Definition only_clock (w w' : World) : Prop :=
  trace w' = trace w /\ processed w' = processed w /\ disk w' = disk w /\
  listener_up w' = listener_up w.

Definition silent {A} (m : M A) : Prop :=
  forall w, only_clock w (snd (m w)).

(** The calls made are sleeps and nothing else; the ledger and the
    listener are as they were. *)
Definition only_slept (w w' : World) : Prop :=
  (exists naps, trace w' = (trace w ++ map CSleep naps)%list) /\
  processed w' = processed w /\ disk w' = disk w /\ listener_up w' = listener_up w.

Definition dozing {A} (m : M A) : Prop :=
  forall w, only_slept w (snd (m w)).

(** The preview URLs [download_clips] fetches: those of the clips that
    have a truthy one, in order. *)
Definition preview_urls (clips : list json) : list json :=
  flat_map
    (fun clip =>
       match clip with
       | JObj fields =>
           let url := dict_get fields "uriForPreview" JNull in
           if truthy url then [url] else []
       | _ => []
       end)
    clips.

(** The basename the resolver searches for:
    [str(vod.get("basename", "")).strip()]. *)
Definition searched_basename (lib : PyLib) (vod : list (string * json)) : string :=
  strip (to_str lib (dict_get vod "basename" (JStr ""))).

(** The four places [_extract_project_id] looks for the project id, in
    the order it tries them. *)
Definition id_candidates (fields : list (string * json)) : list json :=
  [dict_get fields "projectId" JNull; dict_get fields "id" JNull;
   dict_get (sub_dict fields "data") "projectId" JNull;
   dict_get (sub_dict fields "data") "id" JNull].

(** A non-empty string: what [if c and isinstance(c, str)] accepts. *)
Definition nonempty_str (c : json) : bool :=
  match c with
  | JStr t => negb (t =? "")%string
  | _ => false
  end.

(** The state file and the dict in memory hold the same ledger. *)
Definition in_sync (w : World) : Prop :=
  load_processed (disk w) = processed w.


(** ** Names that are safe in a path or a URL: [_safe_name] *)

(** The characters of the class [a-zA-Z0-9._-]. *)
Definition safe_char (c : ascii) : bool :=
  let n := nat_of_ascii c in
  ((48 <=? n) && (n <=? 57) || (65 <=? n) && (n <=? 90) || (97 <=? n) && (n <=? 122)
   || (n =? 46) || (n =? 95) || (n =? 45))%nat.

(** [re.sub(r"[^a-zA-Z0-9._-]+", "_", name)]: every maximal run of
    characters outside the class becomes one underscore.  [in_run] says
    that the character before was outside the class. *)
Fixpoint squash_unsafe (name : string) (in_run : bool) : string :=
  match name with
  | EmptyString => EmptyString
  | String c rest =>
      if safe_char c then String c (squash_unsafe rest false)
      else if in_run then squash_unsafe rest true
      else String "_" (squash_unsafe rest true)
  end.

Fixpoint lstrip_char (x : ascii) (t : string) : string :=
  match t with
  | String c rest => if Ascii.eqb c x then lstrip_char x rest else t
  | EmptyString => EmptyString
  end.

Fixpoint rstrip_char (x : ascii) (t : string) : string :=
  match t with
  | EmptyString => EmptyString
  | String c rest =>
      match rstrip_char x rest with
      | EmptyString => if Ascii.eqb c x then EmptyString else String c EmptyString
      | kept => String c kept
      end
  end.

(** [t.strip(x)] for a one-character [x]. *)
Definition strip_char (x : ascii) (t : string) : string :=
  rstrip_char x (lstrip_char x t).

(** [_safe_name] *)
Definition _safe_name (name : string) : string :=
  strip_char "_" (squash_unsafe name false).

Fixpoint all_chars (p : ascii -> bool) (t : string) : bool :=
  match t with
  | EmptyString => true
  | String c rest => p c && all_chars p rest
  end.

(** [t.endswith(x)] for a one-character [x]. *)
Fixpoint ends_with (x : ascii) (t : string) : bool :=
  match t with
  | EmptyString => false
  | String c EmptyString => Ascii.eqb c x
  | String _ rest => ends_with x rest
  end.

(** ** Reading the settings: pieces of [Settings.from_env] *)

(** [text.split(sep)] for a one-character separator; [cur] holds the
    current piece, reversed. *)
Fixpoint split_on (sep : ascii) (text cur : string) : list string :=
  match text with
  | EmptyString => [rev_string cur EmptyString]
  | String c rest =>
      if Ascii.eqb c sep then rev_string cur EmptyString :: split_on sep rest EmptyString
      else split_on sep rest (String c cur)
  end.

(** The comprehension [[x.strip() ... for x in raw.split(",") if x.strip()]]. *)
Definition stripped_items (raw : string) : list string :=
  map strip (filter (fun x => negb (strip x =? "")%string) (split_on "," raw EmptyString)).

(** [vod_exts] of [from_env], from the text of VOD_EXTENSIONS. *)
Definition vod_extensions_of (raw : string) : list string :=
  map (fun e => if prefix "." e then e else ("." ++ e)%string)
      (map lower (stripped_items raw)).

(** The fields of the [Settings] dataclass read by the functions below
    and not by the orchestration core. *)
Record MoreSettings : Type := {
  public_output_dir : Path;
  public_base_url : string;
  dropbox_access_token : string;
  dropbox_folder : string;
  opus_bearer_token : string;
  yt_client_secret_file : Path;
  yt_title_prefix : string;
  yt_default_tags : list string
}.

(** ** Texts of an upload: [build_yt_text] and the snippet of [upload] *)

Definition newline : string := String (ascii_of_nat 10) EmptyString.

(** ["\n\n".join(parts)] *)
Fixpoint join_paragraphs (parts : list string) : string :=
  match parts with
  | [] => EmptyString
  | [p] => p
  | p :: rest => (p ++ newline ++ newline ++ join_paragraphs rest)%string
  end.

(** [str(n)] of a natural number. *)
Definition decimal (n : nat) : string := NilZero.string_of_uint (Nat.to_uint n).

(** [build_yt_text(clip, settings, default_idx)]: the title and the
    description.  A truthy title that is not a string has no [strip]:
    AttributeError. *)
Definition build_yt_text (lib : PyLib) (ms : MoreSettings) (clip : json) (default_idx : nat)
  : Reply (string * string) :=
  match clip with
  | JObj fields =>
      let t := dict_get fields "title" JNull in
      let raw_title :=
        if truthy t then
          match t with
          | JStr text => Good (strip text)
          | _ => Bad AttributeError
          end
        else Good EmptyString in
      match raw_title with
      | Bad e => Bad e
      | Good raw =>
          let title :=
            if negb (raw =? "")%string then raw
            else (yt_title_prefix ms ++ " #" ++ decimal default_idx)%string in
          let part key :=
            let v := dict_get fields key JNull in
            if truthy v then [strip (to_str lib v)] else [] in
          let description_parts := (part "description" ++ part "hashtags")%list in
          Good (title,
                join_paragraphs (filter (fun p => negb (p =? "")%string) description_parts))
      end
  | _ => Bad AttributeError
  end.

(** A byte that continues a character of several bytes. *)
Definition is_continuation (c : ascii) : bool :=
  let n := nat_of_ascii c in
  ((128 <=? n) && (n <=? 191))%nat.

(** [len(t)]: the number of characters, which is the number of bytes
    that start one. *)
Fixpoint char_count (t : string) : nat :=
  match t with
  | EmptyString => O
  | String c rest => if is_continuation c then char_count rest else S (char_count rest)
  end.

(** [t[:n]]: the first [n] characters, each with all its bytes. *)
Fixpoint take_chars (n : nat) (t : string) : string :=
  match t with
  | EmptyString => EmptyString
  | String c rest =>
      if is_continuation c then String c (take_chars n rest)
      else
        match n with
        | O => EmptyString
        | S m => String c (take_chars m rest)
        end
  end.

(** The title [build_yt_text] falls back to. *)
Definition default_title (ms : MoreSettings) (default_idx : nat) : string :=
  (yt_title_prefix ms ++ " #" ++ decimal default_idx)%string.

(** The snippet of [YouTubeUploader.upload]: [title[:100]],
    [description[:5000]], [tags or yt_default_tags]. *)
Definition upload_snippet (ms : MoreSettings) (title description : string)
  (tags : option (list string)) : string * string * list string :=
  (take_chars 100 title, take_chars 5000 description,
   match tags with
   | Some (t :: ts) => t :: ts
   | _ => yt_default_tags ms
   end).

(** ** Uploading to Dropbox: [_upload_to_dropbox]

    The bytes of the file are not looked at; a chunk of data is the
    slice of the file it was read from. *)

Record Slice : Type := {
  sl_off : Z;      (* position of the first byte *)
  sl_len : Z       (* number of bytes *)
}.

Inductive DbxCall : Type :=
| DUpload (data : Slice) (path : string)                       (* files_upload *)
| DStart (data : Slice)                                        (* files_upload_session_start *)
| DAppend (data : Slice) (cursor_offset : Z)                   (* ..._session_append_v2 *)
| DFinish (data : Slice) (cursor_offset : Z) (path : string)   (* ..._session_finish *)
| DCreateLink (path : string)          (* sharing_create_shared_link_with_settings *)
| DListLinks (path : string).          (* sharing_list_shared_links *)

Definition chunk_size : Z := 4 * 1024 * 1024.

Definition single_request_limit : Z := 150 * 1024 * 1024.

(** [f.read(n)] at position [pos] of a file that holds [len] bytes. *)
Definition read_at (len pos n : Z) : Slice :=
  {| sl_off := pos; sl_len := Z.max 0 (Z.min n (len - pos)) |}.

(** The [while f.tell() < file_size] of [_upload_to_dropbox].  [fails]
    gives the exception a Dropbox call raises, if any; the result is the
    outcome and the calls made, oldest first. *)
Fixpoint session_loop (fuel : nat) (fails : DbxCall -> option exn)
  (file_size len pos cursor : Z) (path : string) : outcome unit * list DbxCall :=
  match fuel with
  | O => (NoFuel, [])
  | S fuel' =>
      if pos <? file_size then
        let remaining := file_size - pos in
        let data := read_at len pos (Z.min chunk_size remaining) in
        let pos' := pos + sl_len data in
        if remaining <=? chunk_size then
          let call := DFinish data cursor path in
          match fails call with
          | Some e => (Exc e, [call])
          | None =>
              let (r, calls) := session_loop fuel' fails file_size len pos' cursor path in
              (r, call :: calls)
          end
        else
          let call := DAppend data cursor in
          match fails call with
          | Some e => (Exc e, [call])
          | None =>
              let (r, calls) := session_loop fuel' fails file_size len pos' pos' path in
              (r, call :: calls)
          end
      else (Val tt, [])
  end.

(** [_upload_to_dropbox(dbx, local_path, dropbox_path)], from after
    [stat] and [open]: [file_size] is the size [stat] gave, [len] the
    number of bytes the open file holds. *)
Definition _upload_to_dropbox (fuel : nat) (fails : DbxCall -> option exn)
  (file_size len : Z) (path : string) : outcome unit * list DbxCall :=
  if file_size <=? single_request_limit then
    let call := DUpload (read_at len 0 len) path in
    match fails call with
    | Some e => (Exc e, [call])
    | None => (Val tt, [call])
    end
  else
    let data := read_at len 0 chunk_size in
    let call := DStart data in
    match fails call with
    | Some e => (Exc e, [call])
    | None =>
        let (r, calls) :=
          session_loop fuel fails file_size len (sl_len data) (sl_len data) path in
        (r, call :: calls)
    end.

(** The slice a call hands to Dropbox. *)
Definition data_of (c : DbxCall) : option Slice :=
  match c with
  | DUpload d _ | DStart d | DAppend d _ | DFinish d _ _ => Some d
  | DCreateLink _ | DListLinks _ => None
  end.

(** What an upload session looks like from offset [off] on: appends of
    one full chunk each, then one finish with the last bytes, every
    call carrying the offset its data starts at. *)
Inductive session_from (file_size : Z) (path : string) : Z -> list DbxCall -> Prop :=
| session_finish off n :
    0 < n <= chunk_size -> off + n = file_size ->
    session_from file_size path off [DFinish {| sl_off := off; sl_len := n |} off path]
| session_append off rest :
    off + chunk_size < file_size ->
    session_from file_size path (off + chunk_size) rest ->
    session_from file_size path off
      (DAppend {| sl_off := off; sl_len := chunk_size |} off :: rest).

(** The bytes the calls carry, added up. *)
Definition bytes_sent (calls : list DbxCall) : Z :=
  fold_right (fun c acc => match data_of c with Some d => sl_len d + acc | None => acc end)
    0 calls.

(** ** The direct-download link of [publish_vod_dropbox] *)

(** [text.replace(old, new)] for a non-empty [old]: occurrences are
    found from the left and do not overlap.  [skip] counts the
    characters of a found occurrence still to pass over. *)
Fixpoint replace_from (old new : string) (skip : nat) (text : string) : string :=
  match text with
  | EmptyString => EmptyString
  | String c rest =>
      match skip with
      | S k => replace_from old new k rest
      | O =>
          if prefix old text
          then (new ++ replace_from old new (String.length old - 1) rest)%string
          else String c (replace_from old new 0 rest)
      end
  end.

Definition replace (old new text : string) : string := replace_from old new 0 text.

(** The last statements of [publish_vod_dropbox]: force the link to a
    direct download. *)
Definition direct_download_url (url : string) : string :=
  if contains "?dl=0" url then replace "?dl=0" "?dl=1" url
  else if negb (contains "?" url) then (url ++ "?dl=1")%string
  else url.

(** ** Publishing: the name and the link *)

(** [unique_name] of both publishers: [stamp] is the text of
    [utcnow().strftime(...)], [hex8] that of [uuid4().hex[:8]]. *)
Definition unique_name (stamp hex8 : string) (vod_path : Path) : string :=
  (stamp ++ "_" ++ hex8 ++ "_" ++ _safe_name (path_name vod_path))%string.

(** The value [publish_vod_local_http] returns. *)
Definition local_http_url (ms : MoreSettings) (stamp hex8 : string) (vod_path : Path) : string :=
  (public_base_url ms ++ "/" ++ unique_name stamp hex8 vod_path)%string.

(** What [sharing_create_shared_link_with_settings] does. *)
Inductive LinkReply : Type :=
| LinkCreated (url : string)
| LinkApiError (message : string)      (* an ApiError [e], with [str(e)] *)
| LinkOtherError (e : exn).

(** The Dropbox client as [publish_vod_dropbox] uses it. *)
Record Dropbox : Type := {
  dbx_fails : DbxCall -> option exn;
  dbx_create : string -> LinkReply;
  dbx_links : string -> Reply (list string)     (* the urls of [result.links] *)
}.

(** The [try] / [except ApiError] of [publish_vod_dropbox]. *)
Definition shared_link (dbx : Dropbox) (dropbox_path : string) : outcome string * list DbxCall :=
  match dbx_create dbx dropbox_path with
  | LinkCreated url => (Val url, [DCreateLink dropbox_path])
  | LinkApiError message =>
      if contains "shared_link_already_exists" (lower message) then
        match dbx_links dbx dropbox_path with
        | Good (url :: _) => (Val url, [DCreateLink dropbox_path; DListLinks dropbox_path])
        | Good [] => (Exc RuntimeError, [DCreateLink dropbox_path; DListLinks dropbox_path])
        | Bad e => (Exc e, [DCreateLink dropbox_path; DListLinks dropbox_path])
        end
      else (Exc ApiError, [DCreateLink dropbox_path])
  | LinkOtherError e => (Exc e, [DCreateLink dropbox_path])
  end.

(** [publish_vod_dropbox] with the client [dbx] at hand, the upload
    taken from after its [stat] and [open]. *)
Definition publish_vod_dropbox (fuel : nat) (dbx : Dropbox) (ms : MoreSettings)
  (stamp hex8 : string) (file_size len : Z) (vod_path : Path)
  : outcome string * list DbxCall :=
  let dropbox_path := (dropbox_folder ms ++ "/" ++ unique_name stamp hex8 vod_path)%string in
  match _upload_to_dropbox fuel (dbx_fails dbx) file_size len dropbox_path with
  | (Val _, calls) =>
      match shared_link dbx dropbox_path with
      | (Val url, link_calls) => (Val (direct_download_url url), calls ++ link_calls)%list
      | (Exc e, link_calls) => (Exc e, calls ++ link_calls)%list
      | (NoFuel, link_calls) => (NoFuel, calls ++ link_calls)%list
      end
  | (Exc e, calls) => (Exc e, calls)
  | (NoFuel, calls) => (NoFuel, calls)
  end.

(** ** Start-up: [validate_settings] *)

Section Startup.

Variable lib : PyLib.
Variable env : Env.
Variable s : Settings.
Variable ms : MoreSettings.

(** [validate_settings] *)
Definition validate_settings : M unit :=
  watch_dir_missing <-
    match explicit_vod_file s with
    | None =>
        if (trigger_mode s =? "poll")%string
        then ex <- path_exists env (watch_dir s) ;; ret (negb ex)
        else ret false
    | Some _ => ret false
    end ;;
  if watch_dir_missing then raise FileNotFoundError
  else if (opus_bearer_token ms =? "")%string then raise ValueError
  else if (publish_mode s =? "local_http")%string && (public_base_url ms =? "")%string
  then raise ValueError
  else if (publish_mode s =? "dropbox")%string && (dropbox_access_token ms =? "")%string
  then raise ValueError
  else
    ex <- path_exists env (yt_client_secret_file ms) ;;
    if negb ex then raise FileNotFoundError
    else if negb (string_in (trigger_mode s) ["webhook"; "poll"]) then raise ValueError
    else ret tt.

End Startup.

(** ** Further concrete data *)

Definition demo_more : MoreSettings := {|
  public_output_dir := "/srv/public";
  public_base_url := "https://vods.example.org";
  dropbox_access_token := "";
  dropbox_folder := "/vods";
  opus_bearer_token := "opus-token";
  yt_client_secret_file := "/secrets/client_secret.json";
  yt_title_prefix := "Twitch clip";
  yt_default_tags := ["shorts"; "twitch"; "clips"]
|}.

(** The demo settings under another trigger mode, publish mode and
    run-once flag. *)
Definition demo_variant (trigger publish : string) (once : bool) : Settings := {|
  trigger_mode := trigger;
  webhook_path := webhook_path demo_settings;
  webhook_token := webhook_token demo_settings;
  watch_dir := watch_dir demo_settings;
  vod_extensions := vod_extensions demo_settings;
  poll_interval_sec := poll_interval_sec demo_settings;
  stable_for_sec := stable_for_sec demo_settings;
  min_vod_size_mb := min_vod_size_mb demo_settings;
  processed_state_file := processed_state_file demo_settings;
  source_path_rewrite_from := source_path_rewrite_from demo_settings;
  source_path_rewrite_to := source_path_rewrite_to demo_settings;
  publish_mode := publish;
  opus_wait_timeout_sec := opus_wait_timeout_sec demo_settings;
  opus_poll_interval_sec := opus_poll_interval_sec demo_settings;
  run_once := once;
  explicit_vod_file := explicit_vod_file demo_settings
|}.

(** The demo file system with the client secrets of the uploader. *)
Definition fs_with_secret (fs : Z -> Path -> option FileStat) (t : Z) (p : Path)
  : option FileStat :=
  if (p =? "/secrets/client_secret.json")%string then Some (a_file 400 0) else fs t p.

(** The recording is in the watch directory for the first [ticks] ticks
    only. *)
Definition fs_until (ticks : Z) (t : Z) (p : Path) : option FileStat :=
  if (p =? demo_vod)%string && (ticks <=? t) then None else demo_fs t p.

(** A Dropbox that accepts every upload call and has a link already. *)
Definition demo_dropbox : Dropbox := {|
  dbx_fails := fun _ => None;
  dbx_create := fun path => LinkApiError "Shared_Link_Already_Exists: conflict";
  dbx_links := fun path => Good ["https://www.dropbox.com/s/abc/stream.ts?dl=0"]
|}.

(** An environment with another text builder and another uploader. *)
Definition with_uploader (env : Env) (text : json -> nat -> Reply (string * string))
  (upload : Path -> string -> string -> Reply string) : Env := {|
  io_ticks := io_ticks env;
  fs_stat := fs_stat env;
  fs_rglob := fs_rglob env;
  fs_iterdir := fs_iterdir env;
  resolve := resolve env;
  ext_publish := ext_publish env;
  opus_submit := opus_submit env;
  opus_poll := opus_poll env;
  clip_fetch := clip_fetch env;
  clip_target := clip_target env;
  yt_init := yt_init env;
  yt_text := text;
  yt_upload := upload;
  state_write := state_write env
|}.

(** The video host refuses the file [b.mp4]. *)
Definition refusing_env : Env :=
  with_uploader demo_env (fun clip idx => Good ("Clip", ""))
    (fun file title description =>
       if (file =? "b.mp4")%string then Bad HTTPError else Good "video-id").

(** The process after a restart: the clock, the trace and the listener
    are new, the state file is what the old process left, and the
    ledger is loaded from it. *)
Definition restarted (w : World) : World := {|
  clock := 0;
  trace := [];
  disk := disk w;
  processed := load_processed (disk w);
  listener_up := false
|}.

(** U+00A0, the no-break space, and U+2003, the em space. *)
Definition nbsp : string := String (ascii_of_nat 194) (String (ascii_of_nat 160) EmptyString).

Definition em_space : string :=
  String (ascii_of_nat 226) (String (ascii_of_nat 128) (String (ascii_of_nat 131) EmptyString)).

(** A title of 101 characters of two bytes each. *)
Definition long_title : string :=
  concat EmptyString (repeat (String (ascii_of_nat 195) (String (ascii_of_nat 169) EmptyString)) 101).

(** * Properties *)

Unset Implicit Arguments.

Lemma string_in_In (x : string) (l : list string) :
  string_in x l = true <-> In x l.
Proof.
  unfold string_in. rewrite existsb_exists. split.
  - intros [y [Hy Heq]]. apply String.eqb_eq in Heq. now subst.
  - intros H. exists x. split; [assumption | apply String.eqb_refl].
Qed.

(** ** Reasoning about monadic code *)

Lemma bind_inv {A B} (m : M A) (k : A -> M B) w r w' :
  bind m k w = (r, w') ->
  (exists a w1, m w = (Val a, w1) /\ k a w1 = (r, w')) \/
  (exists e, m w = (Exc e, w') /\ r = Exc e) \/
  (m w = (NoFuel, w') /\ r = NoFuel).
Proof.
  unfold bind. destruct (m w) as [[a | e | ] w1]; intros H.
  - left. eauto.
  - right. left. inversion H; subst. eauto.
  - right. right. inversion H; subst. eauto.
Qed.

Lemma bind_val {A B} (m : M A) (k : A -> M B) w b w' :
  bind m k w = (Val b, w') ->
  exists a w1, m w = (Val a, w1) /\ k a w1 = (Val b, w').
Proof.
  intros H. apply bind_inv in H.
  destruct H as [H | [[e [_ H]] | [_ H]]]; [assumption | discriminate | discriminate].
Qed.

Lemma bind_step {A B} (m : M A) (k : A -> M B) w a w1 :
  m w = (Val a, w1) -> bind m k w = k a w1.
Proof. intros H. unfold bind. now rewrite H. Qed.

Lemma bind_exc {A B} (m : M A) (k : A -> M B) w e w1 :
  m w = (Exc e, w1) -> bind m k w = (Exc e, w1).
Proof. intros H. unfold bind. now rewrite H. Qed.

Lemma bind_assoc {A B C} (m : M A) (f : A -> M B) (g : B -> M C) w :
  bind (bind m f) g w = bind m (fun a => bind (f a) g) w.
Proof. unfold bind. destruct (m w) as [[a | e | ] w1]; reflexivity. Qed.

Lemma bind_ext {A B} (m : M A) (k1 k2 : A -> M B) w :
  (forall a w1, k1 a w1 = k2 a w1) -> bind m k1 w = bind m k2 w.
Proof. intros H. unfold bind. destruct (m w) as [[a | e | ] w1]; auto. Qed.

(** ** The ledger is untouched by everything but the commit *)

Lemma same_ledger_refl w : same_ledger w w.
Proof. split; reflexivity. Qed.

Lemma same_ledger_trans w1 w2 w3 :
  same_ledger w1 w2 -> same_ledger w2 w3 -> same_ledger w1 w3.
Proof. intros [H1 H2] [H3 H4]. split; congruence. Qed.

Lemma keeps_ret {A} (a : A) : keeps_ledger (ret a).
Proof. intros w. apply same_ledger_refl. Qed.

Lemma keeps_raise {A} e : keeps_ledger (@raise A e).
Proof. intros w. apply same_ledger_refl. Qed.

Lemma keeps_out_of_fuel {A} : keeps_ledger (@out_of_fuel A).
Proof. intros w. apply same_ledger_refl. Qed.

Lemma keeps_gets {A} (f : World -> A) : keeps_ledger (gets f).
Proof. intros w. apply same_ledger_refl. Qed.

Lemma keeps_lift {A} (r : Reply A) : keeps_ledger (lift r).
Proof. destruct r; intros w; apply same_ledger_refl. Qed.

Lemma keeps_bind {A B} (m : M A) (k : A -> M B) :
  keeps_ledger m -> (forall a, keeps_ledger (k a)) -> keeps_ledger (bind m k).
Proof.
  intros Hm Hk w. specialize (Hm w). unfold bind.
  destruct (m w) as [[a | e | ] w1]; simpl in *; try assumption.
  eapply same_ledger_trans; [eassumption | apply Hk].
Qed.

Lemma keeps_record c : keeps_ledger (modify (record_call c)).
Proof. intros w. split; reflexivity. Qed.

Lemma keeps_advance d : keeps_ledger (modify (advance d)).
Proof. intros w. split; reflexivity. Qed.

Lemma keeps_sleep secs : keeps_ledger (sleep secs).
Proof.
  unfold sleep. destruct (secs <? 0).
  - apply keeps_raise.
  - intros w. split; reflexivity.
Qed.

Lemma keeps_now : keeps_ledger now.
Proof. apply keeps_gets. Qed.

Create HintDb ledger.
#[local] Hint Resolve keeps_ret keeps_raise keeps_out_of_fuel keeps_gets keeps_lift
  keeps_record keeps_advance keeps_sleep keeps_now : ledger.

Ltac keeps :=
  repeat first
    [ progress auto with ledger
    | apply keeps_bind; [ | intros ? ]
    | match goal with
      | |- keeps_ledger (if ?c then _ else _) => destruct c
      | |- keeps_ledger (match ?x with _ => _ end) => destruct x
      end ].

Section Proofs.

Variable lib : PyLib.
Variable env : Env.
Variable s : Settings.

Lemma keeps_observe {A} (f : Z -> A) : keeps_ledger (observe env f).
Proof. intros w. split; reflexivity. Qed.

Lemma keeps_stat p : keeps_ledger (stat env p).
Proof. unfold stat. apply keeps_bind; [apply keeps_observe | intros [st | ]; keeps]. Qed.

Lemma keeps_path_exists p : keeps_ledger (path_exists env p).
Proof. apply keeps_observe. Qed.

Lemma keeps_path_is_file p : keeps_ledger (path_is_file env p).
Proof. apply keeps_observe. Qed.

Lemma keeps_publish_vod p : keeps_ledger (publish_vod env s p).
Proof. unfold publish_vod. keeps. Qed.

Lemma keeps_create_clip_project url : keeps_ledger (create_clip_project env url).
Proof. unfold create_clip_project. keeps. Qed.

Lemma keeps_poll_once pid started k : keeps_ledger (poll_once env s pid started k).
Proof. unfold poll_once. keeps. Qed.

Lemma keeps_poll_loop fuel : forall pid started k,
  keeps_ledger (poll_loop env s fuel pid started k).
Proof.
  induction fuel as [| fuel IH]; intros pid started k; simpl.
  - keeps.
  - apply keeps_bind; [apply keeps_poll_once | intros [clips | u]]; [keeps | apply IH].
Qed.

Lemma keeps_wait_exportable_clips fuel pid :
  keeps_ledger (wait_exportable_clips env s fuel pid).
Proof.
  unfold wait_exportable_clips. apply keeps_bind; [keeps | intros t; apply keeps_poll_loop].
Qed.

Lemma keeps_download_from pid clips : forall idx,
  keeps_ledger (download_from env idx clips pid).
Proof.
  induction clips as [| clip rest IH]; intros idx; simpl.
  - keeps.
  - destruct clip; try apply keeps_raise.
    destruct (negb (truthy (dict_get fields "uriForPreview" JNull))); [apply IH | ].
    apply keeps_bind; [keeps | intros _].
    apply keeps_bind; [keeps | intros _].
    apply keeps_bind; [apply IH | intros done; keeps].
Qed.

Lemma keeps_upload_from clips files : forall idx,
  keeps_ledger (upload_from env idx files clips).
Proof.
  induction files as [| f rest IH]; intros idx; simpl.
  - keeps.
  - apply keeps_bind; [keeps | intros td].
    apply keeps_bind; [keeps | intros _].
    apply keeps_bind; [keeps | intros _]. apply IH.
Qed.

Lemma keeps_fetch_and_upload clips pid : keeps_ledger (fetch_and_upload env clips pid).
Proof.
  unfold fetch_and_upload, download_clips.
  apply keeps_bind; [apply keeps_download_from | intros files].
  apply keeps_bind; [keeps | intros _].
  apply keeps_bind; [keeps | intros _]. apply keeps_upload_from.
Qed.

Lemma keeps_reach_await p : keeps_ledger (reach_await env s p).
Proof.
  unfold reach_await.
  apply keeps_bind; [apply keeps_path_exists | intros ex].
  destruct (negb ex); [keeps | ].
  apply keeps_bind; [keeps | intros seen].
  destruct (string_in _ _); [keeps | ].
  apply keeps_bind; [apply keeps_publish_vod | intros url].
  apply keeps_bind; [apply keeps_create_clip_project | intros pid]. keeps.
Qed.

(** The orchestrator is its stages in sequence. *)
Lemma run_pipeline_stages fuel p w :
  run_pipeline_for_vod env s fuel p w =
  bind (reach_await env s p)
    (fun r => match r with
              | None => ret tt
              | Some pid =>
                  bind (wait_exportable_clips env s fuel pid)
                    (fun clips => bind (fetch_and_upload env clips pid)
                                    (fun _ => commit env p))
              end) w.
Proof.
  unfold run_pipeline_for_vod, reach_await.
  rewrite bind_assoc. apply bind_ext. intros ex w1.
  destruct (negb ex); [reflexivity | ].
  rewrite bind_assoc. apply bind_ext. intros seen w2.
  destruct (string_in _ _); [reflexivity | ].
  rewrite bind_assoc. apply bind_ext. intros url w3.
  rewrite bind_assoc. apply bind_ext. intros pid w4.
  change (bind (ret (Some pid)) ?g w4) with (g (Some pid) w4). cbv beta iota.
  apply bind_ext. intros clips w5.
  unfold fetch_and_upload.
  rewrite bind_assoc. apply bind_ext. intros files w6.
  rewrite bind_assoc. apply bind_ext. intros u w7.
  rewrite bind_assoc. apply bind_ext. intros u' w8.
  reflexivity.
Qed.

Lemma keeps_run {A} {m : M A} {w r w'} :
  keeps_ledger m -> m w = (r, w') -> same_ledger w w'.
Proof. intros H E. specialize (H w). now rewrite E in H. Qed.

Lemma reach_await_skip p w w1 :
  reach_await env s p w = (Val None, w1) ->
  In (resolve env p) (processed_list (processed w)).
Proof.
  unfold reach_await, bind, path_exists, observe, gets. simpl.
  destruct (fs_stat env (clock w) p); simpl; [ | discriminate].
  destruct (string_in _ _) eqn:E.
  - intros _. now apply string_in_In in E.
  - destruct (publish_vod _ _ _ _) as [[url | e | ] w2]; try discriminate.
    destruct (create_clip_project _ _ _) as [[pid | e | ] w3]; discriminate.
Qed.

Lemma reach_await_fresh p w pid w1 :
  reach_await env s p w = (Val (Some pid), w1) ->
  ~ In (resolve env p) (processed_list (processed w)).
Proof.
  unfold reach_await, bind, path_exists, observe, gets. simpl.
  destruct (fs_stat env (clock w) p); simpl; [ | discriminate].
  destruct (string_in _ _) eqn:E; [discriminate | ].
  intros _ Hin. apply string_in_In in Hin. simpl in E. congruence.
Qed.

(** What the commit stage does to a world whose ledger is [st]. *)
Lemma commit_spec p w :
  let st' := {| processed_files := Some (processed_list (processed w) ++ [resolve env p])%list |} in
  commit env p w =
  match state_write env st' with
  | Written =>
      (Val tt, set_disk (Stored st') (record_call (CSave st') (set_processed st' w)))
  | WriteFailed e truncated =>
      (Exc e, (if truncated then set_disk Corrupt else fun w0 => w0)
                (record_call (CSave st') (set_processed st' w)))
  end.
Proof.
  unfold commit, save_processed, bind, modify, gets. simpl.
  destruct (state_write env _) as [ | e [ | ]]; reflexivity.
Qed.

(** The orchestrator on a recording already in the ledger. *)
Lemma run_pipeline_seen fuel p w :
  In (resolve env p) (processed_list (processed w)) ->
  run_pipeline_for_vod env s fuel p w =
  (match fs_stat env (clock w) p with
   | Some _ => Val tt
   | None => Exc FileNotFoundError
   end, advance (io_ticks env) w).
Proof.
  intros Hin. unfold run_pipeline_for_vod, bind, path_exists, observe, gets. simpl.
  destruct (fs_stat env (clock w) p); simpl; [ | reflexivity].
  apply string_in_In in Hin. now rewrite Hin.
Qed.

(** Every outcome of one orchestrator run, seen from the ledger. *)
Lemma run_pipeline_ledger fuel p w r w' :
  run_pipeline_for_vod env s fuel p w = (r, w') ->
  (same_ledger w w' /\ (r = Val tt -> In (resolve env p) (processed_list (processed w))))
  \/ (processed_list (processed w') = (processed_list (processed w) ++ [resolve env p])%list
      /\ ~ In (resolve env p) (processed_list (processed w))
      /\ ((r = Val tt /\ state_write env (processed w') = Written
           /\ disk w' = Stored (processed w'))
          \/ (exists e truncated,
                r = Exc e /\ state_write env (processed w') = WriteFailed e truncated))).
Proof.
  rewrite run_pipeline_stages. intros H.
  apply bind_inv in H.
  destruct H as [[[pid | ] [w1 [Hreach H]]] | [[e [Hreach Hr]] | [Hreach Hr]]].
  - (* validated, published, submitted *)
    pose proof (keeps_run (keeps_reach_await p) Hreach) as L1.
    pose proof (reach_await_fresh _ _ _ _ Hreach) as Hfresh.
    apply bind_inv in H.
    destruct H as [[clips [w2 [Hwait H]]] | [[e [Hwait Hr]] | [Hwait Hr]]].
    + pose proof (keeps_run (keeps_wait_exportable_clips fuel pid) Hwait) as L2.
      apply bind_inv in H.
      destruct H as [[u [w3 [Hup H]]] | [[e [Hup Hr]] | [Hup Hr]]].
      * pose proof (keeps_run (keeps_fetch_and_upload clips pid) Hup) as L3.
        assert (L : same_ledger w w3)
          by (eapply same_ledger_trans; [ | exact L3]; eapply same_ledger_trans; eassumption).
        destruct L as [Lp Ld].
        right. rewrite commit_spec in H. cbv zeta in H. rewrite Lp in H.
        destruct (state_write env _) as [ | e tr] eqn:Hw; inversion H; subst; clear H.
        -- simpl. repeat split; try assumption. left. repeat split; assumption.
        -- assert (Hp : processed ((if tr then set_disk Corrupt else fun w0 => w0)
                     (record_call
                        (CSave {| processed_files :=
                                    Some (processed_list (processed w) ++ [resolve env p])%list |})
                        (set_processed
                           {| processed_files :=
                                Some (processed_list (processed w) ++ [resolve env p])%list |} w3)))
                   = {| processed_files :=
                          Some (processed_list (processed w) ++ [resolve env p])%list |})
             by (destruct tr; reflexivity).
           rewrite Hp. simpl. repeat split; try assumption.
           right. exists e, tr. split; [reflexivity | assumption].
      * subst r. left. split; [ | discriminate].
        pose proof (keeps_run (keeps_fetch_and_upload clips pid) Hup) as L3.
        eapply same_ledger_trans; [ | exact L3]; eapply same_ledger_trans; eassumption.
      * subst r. left. split; [ | discriminate].
        pose proof (keeps_run (keeps_fetch_and_upload clips pid) Hup) as L3.
        eapply same_ledger_trans; [ | exact L3]; eapply same_ledger_trans; eassumption.
    + subst r. left. split; [ | discriminate].
      pose proof (keeps_run (keeps_wait_exportable_clips fuel pid) Hwait) as L2.
      eapply same_ledger_trans; eassumption.
    + subst r. left. split; [ | discriminate].
      pose proof (keeps_run (keeps_wait_exportable_clips fuel pid) Hwait) as L2.
      eapply same_ledger_trans; eassumption.
  - (* the benign skip *)
    inversion H; subst. left. split.
    + exact (keeps_run (keeps_reach_await p) Hreach).
    + intros _. eapply reach_await_skip; eassumption.
  - subst r. left. split; [exact (keeps_run (keeps_reach_await p) Hreach) | discriminate].
  - subst r. left. split; [exact (keeps_run (keeps_reach_await p) Hreach) | discriminate].
Qed.

Lemma returned_run_leaves_path_in_ledger fuel p w w' :
  run_pipeline_for_vod env s fuel p w = (Val tt, w') ->
  In (resolve env p) (processed_list (processed w')).
Proof.
  intros H. apply run_pipeline_ledger in H.
  destruct H as [[[Lp _] Hskip] | [Hnew _]].
  - rewrite Lp. now apply Hskip.
  - rewrite Hnew. apply in_or_app. right. now left.
Qed.

(** C1 (amended): for every VOD path whose canonical path is already in
    the ledger, the orchestrator calls none of Publish, SubmitClipJob,
    DownloadClips, UploadAll (it makes no outside call at all) and leaves
    the in-memory ledger and the state file unchanged; it returns when
    the path exists and raises FileNotFoundError when it does not, the
    existence test coming first.  A run that returned leaves the path in
    the ledger, so that a second run on a committed path is of this
    kind. *)
Theorem processed_vod_is_not_rerun fuel vod_path w :
  (In (resolve env vod_path) (processed_list (processed w)) ->
   let (r, w') := run_pipeline_for_vod env s fuel vod_path w in
   trace w' = trace w /\ processed w' = processed w /\ disk w' = disk w /\
   r = match fs_stat env (clock w) vod_path with
       | Some _ => Val tt
       | None => Exc FileNotFoundError
       end) /\
  (forall fuel0 w0,
     run_pipeline_for_vod env s fuel0 vod_path w0 = (Val tt, w) ->
     In (resolve env vod_path) (processed_list (processed w))).
Proof.
  split.
  - intros Hin. rewrite (run_pipeline_seen fuel vod_path w Hin).
    repeat split; reflexivity.
  - intros fuel0 w0 H. eapply returned_run_leaves_path_in_ledger. exact H.
Qed.

(** C2 (amended): the ledger only grows.  For every orchestrator run,
    no entry of the in-memory ledger is removed, and either (a) the run
    skipped or failed before the commit stage and the ledger, in memory
    and on disk, is exactly what it was (a run that returns this way
    found the path in the ledger), or (b) the run succeeded and the
    ledger is the one before plus the canonical path, written to the
    state file before the orchestrator returns, or (c) the write of the
    state file failed: the run raises that error with the path already
    appended to the in-memory ledger. *)
Theorem ledger_only_grows fuel vod_path w :
  let old := processed_list (processed w) in
  let (r, w') := run_pipeline_for_vod env s fuel vod_path w in
  let new := processed_list (processed w') in
  incl old new /\
  ((processed w' = processed w /\ disk w' = disk w /\
      (r = Val tt -> In (resolve env vod_path) old))
   \/ (r = Val tt /\ new = (old ++ [resolve env vod_path])%list /\
       disk w' = Stored (processed w') /\ load_processed (disk w') = processed w')
   \/ (exists e truncated,
         r = Exc e /\ new = (old ++ [resolve env vod_path])%list /\
         state_write env (processed w') = WriteFailed e truncated)).
Proof.
  intros old.
  destruct (run_pipeline_for_vod env s fuel vod_path w) as [r w'] eqn:Hrun.
  intros new. subst old new.
  apply run_pipeline_ledger in Hrun.
  destruct Hrun as [[[Lp Ld] Hskip] | [Hnew [Hfresh [[Hr [Hw Hd]] | [e [tr [Hr Hw]]]]]]].
  - split; [rewrite Lp; apply incl_refl | left; auto].
  - split; [rewrite Hnew; apply incl_appl, incl_refl | ].
    right. left. repeat split; try assumption. now rewrite Hd.
  - split; [rewrite Hnew; apply incl_appl, incl_refl | ].
    right. right. exists e, tr. auto.
Qed.

(** ** Waiting for the clips *)

(** One pass of the loop, by what the poll says. *)
Lemma poll_once_spec pid started k w :
  let w1 := advance (fst (opus_poll env pid k)) (record_call (CPoll pid k) w) in
  poll_once env s pid started k w =
  match view_poll (snd (opus_poll env pid k)) with
  | Ready clips => (Val (inl clips), w1)
  | PollFailed e => (Exc e, w1)
  | NotReady =>
      if clock w1 - started >? opus_wait_timeout_sec s * ticks_per_sec
      then (Exc TimeoutError, w1)
      else if opus_poll_interval_sec s <? 0 then (Exc ValueError, w1)
      else (Val (inr tt),
            advance (opus_poll_interval_sec s * ticks_per_sec)
              (record_call (CSleep (opus_poll_interval_sec s)) w1))
  end.
Proof.
  intros w1. unfold poll_once, view_poll, bind, modify, lift, now, gets, sleep. simpl.
  destruct (snd (opus_poll env pid k)) as [body | e]; simpl; [ | reflexivity].
  destruct (py_get body "data" (JArr [])) as [clips | e]; simpl; [ | reflexivity].
  assert (Hidle :
    (if clock w + fst (opus_poll env pid k) - started >? opus_wait_timeout_sec s * ticks_per_sec
     then raise TimeoutError
     else bind (if opus_poll_interval_sec s <? 0 then raise ValueError
                else fun w0 => (Val tt,
                                advance (opus_poll_interval_sec s * ticks_per_sec)
                                  (record_call (CSleep (opus_poll_interval_sec s)) w0)))
               (fun _ => ret (inr tt))) w1
    = (if clock w1 - started >? opus_wait_timeout_sec s * ticks_per_sec
       then (Exc TimeoutError, w1)
       else if opus_poll_interval_sec s <? 0 then (Exc ValueError, w1)
       else (Val (inr (A:=list json) tt),
             advance (opus_poll_interval_sec s * ticks_per_sec)
               (record_call (CSleep (opus_poll_interval_sec s)) w1)))).
  { subst w1. simpl.
    destruct (_ >? _); [reflexivity | ].
    unfold bind. destruct (opus_poll_interval_sec s <? 0); reflexivity. }
  destruct clips as [ | | | | [ | c rest] | ]; try exact Hidle. reflexivity.
Qed.

Lemma clock_idle_world pid n w :
  clock (idle_world env s pid n w) =
  poll_done env s pid (clock w) n
  + match n with O => 0 | S _ => opus_poll_interval_sec s * ticks_per_sec end.
Proof.
  destruct n as [ | n]; simpl; [lia | ].
  induction n as [ | n IH]; simpl in *; lia.
Qed.

Lemma trace_idle_world pid n w :
  trace (idle_world env s pid n w) = (trace w ++ idle_calls s pid n)%list.
Proof.
  induction n as [ | n IH]; simpl.
  - now rewrite app_nil_r.
  - rewrite IH. rewrite <- !app_assoc. reflexivity.
Qed.

Lemma ledger_idle_world pid n w : same_ledger w (idle_world env s pid n w).
Proof. induction n as [ | n IH]; simpl; [apply same_ledger_refl | exact IH]. Qed.

Lemma poll_loop_idle pid t0 w n :
  clock w = t0 ->
  0 <= opus_poll_interval_sec s ->
  (forall k, (1 <= k <= n)%nat -> idle_poll env s pid t0 k) ->
  forall fuel,
  poll_loop env s (n + fuel) pid t0 0 w =
  poll_loop env s fuel pid t0 n (idle_world env s pid n w).
Proof.
  intros Hclock Hint. induction n as [ | n IH]; intros Hidle fuel; [reflexivity | ].
  replace (S n + fuel)%nat with (n + S fuel)%nat by lia.
  rewrite IH by (intros k Hk; apply Hidle; lia).
  destruct (Hidle (S n)) as [Hview Htime]; [lia | ].
  simpl poll_loop. unfold bind at 1. rewrite poll_once_spec. cbv zeta.
  rewrite Hview.
  assert (Hc : clock (advance (fst (opus_poll env pid (S n)))
                        (record_call (CPoll pid (S n)) (idle_world env s pid n w)))
               = poll_done env s pid t0 (S n)).
  { simpl. rewrite clock_idle_world, Hclock. destruct n; lia. }
  rewrite Hc.
  destruct (Z.gtb_spec (poll_done env s pid t0 (S n) - t0)
              (opus_wait_timeout_sec s * ticks_per_sec)) as [Hgt | _]; [lia | ].
  destruct (Z.ltb_spec (opus_poll_interval_sec s) 0) as [Hneg | _]; [lia | ].
  reflexivity.
Qed.

Lemma run_pipeline_wait_fails fuel vod_path w0 pid w e w' :
  reach_await env s vod_path w0 = (Val (Some pid), w) ->
  wait_exportable_clips env s fuel pid w = (Exc e, w') ->
  run_pipeline_for_vod env s fuel vod_path w0 = (Exc e, w') /\
  processed w' = processed w0 /\ disk w' = disk w0.
Proof.
  intros Hreach Hwait. split.
  - rewrite run_pipeline_stages. rewrite (bind_step _ _ _ _ _ Hreach).
    now rewrite (bind_exc _ _ _ _ _ Hwait).
  - exact (same_ledger_trans _ _ _ (keeps_run (keeps_reach_await vod_path) Hreach)
             (keeps_run (keeps_wait_exportable_clips fuel pid) Hwait)).
Qed.

(** C3 (amended): the clip-readiness wait polls the remote service with
    a sleep of the configured interval after every poll that is not
    ready, and returns the clip list as soon as a poll reports a
    non-empty list, even one that comes back after the timeout has
    passed; when a poll reports no non-empty list and the time elapsed
    since the start of the wait, read after that poll, exceeds the
    configured timeout, it raises a timeout error, and in that case
    the run raises it too and leaves the ledger, in memory and on disk,
    unchanged. *)
Theorem clip_wait_outcomes fuel pid w n :
  0 <= opus_poll_interval_sec s ->
  (n < fuel)%nat ->
  (forall k, (1 <= k <= n)%nat -> idle_poll env s pid (clock w) k) ->
  exists w',
    trace w' = (trace w ++ idle_calls s pid n ++ [CPoll pid (S n)])%list /\
    clock w' = poll_done env s pid (clock w) (S n) /\
    (forall clips,
       view_poll (snd (opus_poll env pid (S n))) = Ready clips ->
       wait_exportable_clips env s fuel pid w = (Val clips, w')) /\
    (view_poll (snd (opus_poll env pid (S n))) = NotReady ->
     poll_done env s pid (clock w) (S n) - clock w
       > opus_wait_timeout_sec s * ticks_per_sec ->
     wait_exportable_clips env s fuel pid w = (Exc TimeoutError, w') /\
     forall vod_path w0,
       reach_await env s vod_path w0 = (Val (Some pid), w) ->
       run_pipeline_for_vod env s fuel vod_path w0 = (Exc TimeoutError, w') /\
       processed w' = processed w0 /\ disk w' = disk w0).
Proof.
  intros Hint Hfuel Hidle.
  set (wn := idle_world env s pid n w).
  set (w' := advance (fst (opus_poll env pid (S n))) (record_call (CPoll pid (S n)) wn)).
  assert (Hclock : clock w' = poll_done env s pid (clock w) (S n)).
  { subst w' wn. simpl. rewrite clock_idle_world. destruct n; lia. }
  assert (Hloop : wait_exportable_clips env s fuel pid w =
                  poll_loop env s (S (fuel - S n)) pid (clock w) n wn).
  { unfold wait_exportable_clips, bind, now, gets.
    replace fuel with (n + S (fuel - S n))%nat at 1 by lia.
    now apply poll_loop_idle. }
  assert (Hstep : poll_loop env s (S (fuel - S n)) pid (clock w) n wn =
                  bind (poll_once env s pid (clock w) (S n))
                    (fun r => match r with
                              | inl clips => ret clips
                              | inr _ => poll_loop env s (fuel - S n) pid (clock w) (S n)
                              end) wn) by reflexivity.
  exists w'. split; [ | split; [exact Hclock | split]].
  - subst w' wn. simpl. rewrite trace_idle_world. now rewrite <- app_assoc.
  - intros clips Hview. rewrite Hloop, Hstep. unfold bind.
    rewrite poll_once_spec. cbv zeta. rewrite Hview. reflexivity.
  - intros Hview Hlate.
    assert (Hwait : wait_exportable_clips env s fuel pid w = (Exc TimeoutError, w')).
    { rewrite Hloop, Hstep. unfold bind.
      rewrite poll_once_spec. cbv zeta. rewrite Hview. fold wn. fold w'. rewrite Hclock.
      destruct (Z.gtb_spec (poll_done env s pid (clock w) (S n) - clock w)
                  (opus_wait_timeout_sec s * ticks_per_sec)) as [_ | Hle]; [reflexivity | lia]. }
    split; [exact Hwait | ].
    intros vod_path w0 Hreach. eapply run_pipeline_wait_fails; eassumption.
Qed.

(** The wait cannot go on for ever: with a positive interval between
    polls, one poll more than the timeout has room for ends it. *)
Lemma poll_loop_bounded pid started : forall fuel k w,
  (forall j, 0 <= fst (opus_poll env pid j)) ->
  0 <= opus_poll_interval_sec s ->
  (1 <= fuel)%nat ->
  opus_wait_timeout_sec s * ticks_per_sec
    < (clock w - started) + (Z.of_nat fuel - 1) * (opus_poll_interval_sec s * ticks_per_sec) ->
  fst (poll_loop env s fuel pid started k w) <> NoFuel.
Proof.
  induction fuel as [ | fuel IH]; intros k w Hdur Hint Hfuel Hroom; [lia | ].
  simpl poll_loop. unfold bind at 1. rewrite poll_once_spec. cbv zeta.
  destruct (view_poll _) as [clips | | e]; simpl; try discriminate.
  pose proof (Hdur (S k)) as Hd.
  destruct (Z.gtb_spec (clock w + fst (opus_poll env pid (S k)) - started)
              (opus_wait_timeout_sec s * ticks_per_sec)) as [_ | Hle]; [discriminate | ].
  destruct (Z.ltb_spec (opus_poll_interval_sec s) 0) as [_ | _]; [discriminate | ].
  set (step := opus_poll_interval_sec s * ticks_per_sec) in *.
  replace (Z.of_nat (S fuel) - 1) with (Z.of_nat fuel) in Hroom by lia.
  apply IH; try assumption.
  - destruct fuel; [ | lia]. simpl in Hroom. lia.
  - simpl. fold step.
    replace (Z.of_nat fuel * step) with (step + (Z.of_nat fuel - 1) * step) in Hroom by ring.
    lia.
Qed.

Lemma clip_wait_is_bounded fuel pid w :
  (forall j, 0 <= fst (opus_poll env pid j)) ->
  0 < opus_poll_interval_sec s ->
  (1 <= fuel)%nat ->
  opus_wait_timeout_sec s < (Z.of_nat fuel - 1) * opus_poll_interval_sec s ->
  fst (wait_exportable_clips env s fuel pid w) <> NoFuel.
Proof.
  intros Hdur Hint Hf Hroom. unfold wait_exportable_clips, bind, now, gets.
  apply poll_loop_bounded; try assumption; try lia.
  replace (clock w - clock w) with 0 by lia.
  rewrite Z.mul_assoc. unfold ticks_per_sec. lia.
Qed.

(** ** The webhook handler *)

(** What the handler answers, case by case. *)
Lemma webhook_handler_answers cfg req queue :
  do_POST lib (Some cfg) req queue =
  if negb (req_path req =? webhook_path cfg)%string then
    (Responded 404 (error_body "Not found"), queue)
  else if negb (token_ok cfg req) then
    (Responded 401 (error_body "Unauthorized"), queue)
  else
    match json_loads lib (request_body lib req) with
    | None => (Responded 400 (error_body "Invalid JSON"), queue)
    | Some (JObj fields) => (Responded 200 ok_body, (queue ++ [JObj fields])%list)
    | Some _ => (Unanswered AttributeError, queue)
    end.
Proof.
  unfold do_POST, token_ok, request_body.
  destruct (negb (req_path req =? webhook_path cfg)%string); [reflexivity | ].
  rewrite negb_orb.
  destruct (negb (webhook_token cfg =? "")%string && _); [reflexivity | ].
  destruct (json_loads lib _) as [[ | | | | | ] | ]; reflexivity.
Qed.

(** C10: a POST to the configured path that passes the token check and
    whose Content-Length header is absent, zero or not a number is
    handled as if its body were the empty JSON object: the answer is
    200, not 400, and the empty object is put on the queue. *)
Theorem missing_length_means_empty_object cfg req queue :
  req_path req = webhook_path cfg ->
  token_ok cfg req = true ->
  py_int lib "0" = Some 0 ->
  json_loads lib "{}" = Some (JObj []) ->
  match req_content_length req with
  | None => True
  | Some h => py_int lib h = Some 0 \/ py_int lib h = None
  end ->
  do_POST lib (Some cfg) req queue = (Responded 200 ok_body, (queue ++ [JObj []])%list).
Proof.
  intros Hpath Htok Hzero Hempty Hlen.
  rewrite webhook_handler_answers.
  rewrite Hpath, String.eqb_refl, Htok. simpl.
  assert (Hraw : request_body lib req = "{}").
  { unfold request_body.
    destruct (req_content_length req) as [h | ].
    - destruct Hlen as [H | H]; rewrite H; reflexivity.
    - rewrite Hzero. reflexivity. }
  rewrite Hraw, Hempty. reflexivity.
Qed.

(** ** The webhook resolver *)






(** ** The webhook trigger loop *)

(** One scripted event, by what the resolver and the orchestrator do. *)
Lemma webhook_loop_event fuel payload rest h w :
  webhook_loop lib env s fuel (Some payload :: rest) h w =
  match resolve_vod_from_webhook lib env s payload w with
  | (Val None, w1) => webhook_loop lib env s fuel rest h w1
  | (Val (Some vod_path), w1) =>
      match run_pipeline_for_vod env s fuel vod_path w1 with
      | (Val _, w2) =>
          if run_once s && (h + 1 >=? 1) then (Val (Exited, h + 1), w2)
          else webhook_loop lib env s fuel rest (h + 1) w2
      | (Exc _, w2) =>
          if run_once s && (h >=? 1) then (Val (Exited, h), w2)
          else webhook_loop lib env s fuel rest h w2
      | (NoFuel, w2) => (NoFuel, w2)
      end
  | (Exc e, w1) => (Exc e, w1)
  | (NoFuel, w1) => (NoFuel, w1)
  end.
Proof.
  simpl webhook_loop. unfold bind at 1.
  destruct (resolve_vod_from_webhook lib env s payload w) as [[[vod_path | ] | e | ] w1];
    try reflexivity.
  unfold bind, try_except.
  destruct (run_pipeline_for_vod env s fuel vod_path w1) as [[u | e | ] w2];
    simpl; try reflexivity; destruct (run_once s && _); reflexivity.
Qed.

(** While the loop is waiting under run-once, nothing has been counted. *)
Lemma waiting_counts_nothing fuel events : forall h w h1 w1,
  run_once s = true ->
  0 <= h ->
  webhook_loop lib env s fuel events h w = (Val (Waiting, h1), w1) ->
  h1 = h.
Proof.
  induction events as [ | [payload | ] rest IH]; intros h w h1 w1 Honce Hh H.
  - inversion H. reflexivity.
  - rewrite webhook_loop_event in H.
    destruct (resolve_vod_from_webhook lib env s payload w) as [[[vod_path | ] | e | ] w2];
      try discriminate.
    + destruct (run_pipeline_for_vod env s fuel vod_path w2) as [[u | e | ] w3];
        try discriminate.
      * rewrite Honce in H. destruct (Z.geb_spec (h + 1) 1); [discriminate | lia].
      * rewrite Honce in H. destruct (Z.geb_spec h 1); [discriminate | ].
        now apply IH in H.
    + now apply IH in H.
  - simpl in H. now apply IH in H.
Qed.

(** Events that leave the loop waiting can be split off the script. *)
Lemma webhook_loop_app fuel pre rest : forall h w h1 w1,
  webhook_loop lib env s fuel pre h w = (Val (Waiting, h1), w1) ->
  webhook_loop lib env s fuel (pre ++ rest) h w = webhook_loop lib env s fuel rest h1 w1.
Proof.
  induction pre as [ | [payload | ] pre IH]; intros h w h1 w1 H.
  - inversion H. reflexivity.
  - simpl app. rewrite webhook_loop_event in *.
    destruct (resolve_vod_from_webhook lib env s payload w) as [[[vod_path | ] | e | ] w2];
      try discriminate.
    + destruct (run_pipeline_for_vod env s fuel vod_path w2) as [[u | e | ] w3];
        try discriminate.
      * destruct (run_once s && (h + 1 >=? 1)); [discriminate | now apply IH].
      * destruct (run_once s && (h >=? 1)); [discriminate | now apply IH].
    + now apply IH.
  - simpl in *. now apply IH.
Qed.

(** C7 (amended): in webhook trigger mode with the run-once flag set,
    the main loop terminates, and shuts the listener down, after the
    first job whose orchestrator run returns without raising (a
    completed run or the skip of an already processed recording); a job
    whose run raises does not count: with it as the last event the loop
    is still waiting and the listener is not shut down. *)
Theorem run_once_ends_after_returning_job fuel pre payload post vod_path w h1 w1 w2 :
  run_once s = true ->
  webhook_loop lib env s fuel pre 0 (set_listener true w) = (Val (Waiting, h1), w1) ->
  resolve_vod_from_webhook lib env s payload w1 = (Val (Some vod_path), w2) ->
  (forall w3,
     run_pipeline_for_vod env s fuel vod_path w2 = (Val tt, w3) ->
     webhook_main lib env s fuel (pre ++ Some payload :: post) w
       = (Val (Exited, 1), shutdown w3)
     /\ listener_up (shutdown w3) = false) /\
  (forall e w3,
     run_pipeline_for_vod env s fuel vod_path w2 = (Exc e, w3) ->
     webhook_main lib env s fuel (pre ++ [Some payload]) w = (Val (Waiting, 0), w3)).
Proof.
  intros Honce Hpre Hres.
  assert (h1 = 0) by (eapply waiting_counts_nothing; [exact Honce | lia | exact Hpre]).
  subst h1. split.
  - intros w3 Hrun. split; [ | reflexivity].
    unfold webhook_main. rewrite (webhook_loop_app _ _ _ _ _ _ _ Hpre).
    rewrite webhook_loop_event, Hres, Hrun, Honce. reflexivity.
  - intros e w3 Hrun.
    unfold webhook_main. rewrite (webhook_loop_app _ _ _ _ _ _ _ Hpre).
    rewrite webhook_loop_event, Hres, Hrun, Honce. reflexivity.
Qed.

(** ** The stability detector *)

Lemma sample_interval_bounds W :
  1 <= sample_interval W /\ W / 3 <= sample_interval W /\ W - 2 <= 3 * sample_interval W.
Proof.
  unfold sample_interval.
  pose proof (Z.div_mod W 3 ltac:(lia)) as Hdm.
  pose proof (Z.mod_pos_bound W 3 ltac:(lia)) as Hm.
  repeat split; lia.
Qed.

Lemma sleep_sample W w :
  sleep (sample_interval W) w =
  (Val tt, advance (sample_interval W * ticks_per_sec)
             (record_call (CSleep (sample_interval W)) w)).
Proof.
  unfold sleep. destruct (sample_interval_bounds W) as [H1 _].
  destruct (Z.ltb_spec (sample_interval W) 0); [lia | reflexivity].
Qed.

(** The detector, by what its two [stat] calls find. *)
Lemma is_file_stable_spec path W w :
  let io := io_ticks env in
  let w1 := advance io w in
  let w2 := advance (sample_interval W * ticks_per_sec)
              (record_call (CSleep (sample_interval W)) w1) in
  is_file_stable env path W w =
  match fs_stat env (clock w) path with
  | None => (Exc FileNotFoundError, w1)
  | Some st1 =>
      match fs_stat env (clock w + io + sample_interval W * ticks_per_sec) path with
      | None => (Exc FileNotFoundError, advance io w2)
      | Some st2 => (Val (st_size st1 =? st_size st2), advance io w2)
      end
  end.
Proof.
  intros io w1 w2. unfold is_file_stable, stat, observe, bind.
  destruct (fs_stat env (clock w) path) as [st1 | ]; simpl; [ | reflexivity].
  rewrite sleep_sample. simpl.
  destruct (fs_stat env _ path) as [st2 | ]; reflexivity.
Qed.

(** C5 (amended): for every file path and stability window [W], the
    detector sleeps max(1, floor(W/3)) seconds between its two size
    samples, which is at least 1 second and at least floor(W/3) seconds
    (more than W/3 - 1, not always W/3); when both samples succeed it
    returns true if and only if the two sizes are equal, hence false
    whenever they differ; when the file is missing at a sample it raises
    FileNotFoundError. *)
Theorem stability_detector_samples path W w :
  let io := io_ticks env in
  let t1 := clock w in
  let t2 := clock w + io + sample_interval W * ticks_per_sec in
  sample_interval W = Z.max 1 (W / 3) /\
  1 <= sample_interval W /\ W / 3 <= sample_interval W /\ W - 2 <= 3 * sample_interval W /\
  let (r, w') := is_file_stable env path W w in
  trace w' = (trace w ++ match fs_stat env t1 path with
                         | Some _ => [CSleep (sample_interval W)]
                         | None => []
                         end)%list /\
  match fs_stat env t1 path, fs_stat env t2 path with
  | Some st1, Some st2 =>
      exists b, r = Val b /\ (b = true <-> st_size st1 = st_size st2)
                /\ (st_size st1 <> st_size st2 -> b = false)
  | _, _ => r = Exc FileNotFoundError
  end.
Proof.
  intros io t1 t2.
  destruct (sample_interval_bounds W) as [H1 [H2 H3]].
  split; [reflexivity | ]. repeat (split; [assumption | ]).
  rewrite is_file_stable_spec. cbv zeta. subst io t1 t2.
  destruct (fs_stat env (clock w) path) as [st1 | ].
  - destruct (fs_stat env _ path) as [st2 | ]; simpl.
    + split; [reflexivity | ]. exists (st_size st1 =? st_size st2).
      split; [reflexivity | split].
      * apply Z.eqb_eq.
      * intros Hne. now apply Z.eqb_neq.
    + split; reflexivity.
  - simpl. split; [now rewrite app_nil_r | reflexivity].
Qed.

(** ** Listing the candidates *)

Lemma media_files_spec ps : forall w,
  exists kept w1,
    media_files env s ps w = (Val kept, w1) /\
    forall p, In p kept -> In p ps /\ In (lower (suffix p)) (vod_extensions s).
Proof.
  induction ps as [ | q rest IH]; intros w.
  - exists [], w. split; [reflexivity | intros p []].
  - simpl media_files. unfold bind at 1. unfold path_is_file, observe.
    destruct (IH (advance (io_ticks env) w)) as [kept [w1 [E Hkept]]].
    unfold bind. rewrite E. simpl.
    destruct (match fs_stat env (clock w) q with
              | Some st => st_is_file st
              | None => false
              end && string_in (lower (suffix q)) (vod_extensions s)) eqn:Hq.
    + exists (q :: kept), w1. split; [reflexivity | ].
      intros p [Hp | Hp].
      * subst p. apply andb_true_iff in Hq. destruct Hq as [_ Hq].
        split; [now left | now apply string_in_In].
      * destruct (Hkept p Hp). split; [now right | assumption].
    + exists kept, w1. split; [reflexivity | ].
      intros p Hp. destruct (Hkept p Hp). split; [now right | assumption].
Qed.

Lemma with_key_spec key ps : forall w keyed w1,
  with_key env key ps w = (Val keyed, w1) ->
  map fst keyed = ps /\ keys_sampled env key keyed.
Proof.
  induction ps as [ | q rest IH]; intros w keyed w1 H.
  - inversion H. split; [reflexivity | constructor].
  - simpl in H. apply bind_val in H. destruct H as [st [w2 [Hst H]]].
    apply bind_val in H. destruct H as [keyed' [w3 [Hrest H]]].
    inversion H; subst; clear H.
    destruct (IH _ _ _ Hrest) as [Hmap Hkeys].
    split; [simpl; now rewrite Hmap | ].
    constructor; [ | assumption].
    unfold stat, bind, observe in Hst.
    destruct (fs_stat env (clock w) q) as [st0 | ] eqn:E; [ | discriminate].
    inversion Hst; subst. exists (clock w), st. now split.
Qed.

(** ** Sorting by decreasing key *)

Lemma insert_desc_Forall {A} (P : A * Z -> Prop) x l :
  P x -> Forall P l -> Forall P (insert_desc x l).
Proof.
  intros Hx Hl. induction Hl as [ | y l Hy Hl IH]; simpl.
  - constructor; [assumption | constructor].
  - destruct (snd x <? snd y); constructor; auto.
Qed.

Lemma insert_desc_perm {A} (x : A * Z) l : Permutation (x :: l) (insert_desc x l).
Proof.
  induction l as [ | y l IH]; simpl.
  - apply Permutation_refl.
  - destruct (snd x <? snd y).
    + eapply perm_trans; [apply perm_swap | apply perm_skip, IH].
    + apply Permutation_refl.
Qed.

Lemma insert_desc_sorted {A} (x : A * Z) l :
  StronglySorted by_decreasing_key l -> StronglySorted by_decreasing_key (insert_desc x l).
Proof.
  intros Hl. induction Hl as [ | y l Hl IH Hy]; simpl.
  - constructor; constructor.
  - destruct (Z.ltb_spec (snd x) (snd y)) as [Hlt | Hge].
    + constructor; [assumption | ].
      apply insert_desc_Forall; [unfold by_decreasing_key; lia | assumption].
    + constructor; [now constructor | ].
      constructor; [unfold by_decreasing_key; lia | ].
      eapply Forall_impl; [ | exact Hy].
      unfold by_decreasing_key. intros z Hz. lia.
Qed.

Lemma sort_desc_perm {A} (l : list (A * Z)) : Permutation l (sort_desc l).
Proof.
  induction l as [ | x l IH]; simpl; [constructor | ].
  eapply perm_trans; [apply perm_skip, IH | apply insert_desc_perm].
Qed.

Lemma sort_desc_sorted {A} (l : list (A * Z)) : StronglySorted by_decreasing_key (sort_desc l).
Proof.
  induction l as [ | x l IH]; simpl; [constructor | now apply insert_desc_sorted].
Qed.



(** ** Examining the candidates *)

(** The loop body, by what its [stat] calls find. *)
Lemma check_candidate_spec seen p w :
  let io := io_ticks env in
  check_candidate env s seen p w =
  if string_in (resolve env p) seen then (Val false, w)
  else
    match fs_stat env (clock w) p with
    | None => (Exc FileNotFoundError, advance io w)
    | Some st =>
        if st_size st <? min_bytes s then (Val false, advance io w)
        else
          match fs_stat env (clock w + io) p with
          | None => (Exc FileNotFoundError, advance io (advance io w))
          | Some st' =>
              if clock w + io - st_mtime st' <? stable_for_sec s * ticks_per_sec
              then (Val false, advance io (advance io w))
              else is_file_stable env p (stable_for_sec s) (advance io (advance io w))
          end
    end.
Proof.
  intros io. subst io. unfold check_candidate.
  destruct (string_in _ _); [reflexivity | ].
  unfold bind at 1. unfold stat at 1. unfold bind at 1. unfold observe at 1.
  destruct (fs_stat env (clock w) p) as [st | ]; simpl; [ | reflexivity].
  destruct (st_size st <? min_bytes s); [reflexivity | ].
  unfold bind at 1. unfold now, gets. unfold bind at 1. unfold stat, bind, observe. simpl.
  destruct (fs_stat env (clock w + io_ticks env) p) as [st' | ]; simpl; [ | reflexivity].
  destruct (_ <? _); reflexivity.
Qed.



Lemma scan_first seen pre p post : forall w w1 r w',
  rejected_all env s seen pre w w1 ->
  check_candidate env s seen p w1 = (r, w') ->
  scan env s seen (pre ++ p :: post) w =
  match r with
  | Val true => (Val (Some p), w')
  | Val false => scan env s seen post w'
  | Exc e => (Exc e, w')
  | NoFuel => (NoFuel, w')
  end.
Proof.
  induction pre as [ | q pre IH]; intros w w1 r w' Hrej Hsel.
  - simpl in Hrej. subst w1. simpl. unfold bind. rewrite Hsel.
    destruct r as [[ | ] | e | ]; reflexivity.
  - destruct Hrej as [wq [Hq Hrej]]. simpl. unfold bind at 1. rewrite Hq.
    now apply (IH wq w1).
Qed.

Lemma scan_none seen cands : forall w w1,
  rejected_all env s seen cands w w1 -> scan env s seen cands w = (Val None, w1).
Proof.
  induction cands as [ | q rest IH]; intros w w1 Hrej.
  - simpl in Hrej. now subst.
  - destruct Hrej as [wq [Hq Hrej]]. simpl. unfold bind. rewrite Hq. now apply IH.
Qed.




(** ** A candidate that disappears *)

Lemma check_candidate_vanished seen p w st st' :
  let io := io_ticks env in
  let t := clock w in
  ~ In (resolve env p) seen ->
  fs_stat env t p = Some st ->
  min_bytes s <= st_size st ->
  fs_stat env (t + io) p = Some st' ->
  stable_for_sec s * ticks_per_sec <= t + io - st_mtime st' ->
  fs_stat env (t + 2 * io) p = None \/
  (fs_stat env (t + 2 * io) p <> None /\
   fs_stat env (t + 3 * io + sample_ticks s) p = None) ->
  exists w', check_candidate env s seen p w = (Exc FileNotFoundError, w')
             /\ same_ledger w w'.
Proof.
  intros io t Hseen E0 Hsize E1 Hage Hgone. subst io t.
  rewrite check_candidate_spec. cbv zeta.
  destruct (string_in (resolve env p) seen) eqn:Hin;
    [apply string_in_In in Hin; contradiction | ].
  rewrite E0. destruct (Z.ltb_spec (st_size st) (min_bytes s)); [lia | ].
  rewrite E1.
  destruct (Z.ltb_spec (clock w + io_ticks env - st_mtime st')
              (stable_for_sec s * ticks_per_sec)); [lia | ].
  rewrite is_file_stable_spec. cbv zeta. cbn [clock advance record_call].
  replace (clock w + io_ticks env + io_ticks env) with (clock w + 2 * io_ticks env) by lia.
  replace (clock w + 2 * io_ticks env + io_ticks env
           + sample_interval (stable_for_sec s) * ticks_per_sec)
    with (clock w + 3 * io_ticks env + sample_ticks s) by (unfold sample_ticks; lia).
  destruct Hgone as [E2 | [E2 E3]].
  - rewrite E2. eexists. split; [reflexivity | split; reflexivity].
  - destruct (fs_stat env (clock w + 2 * io_ticks env) p) as [st1 | ]; [ | contradiction].
    rewrite E3. eexists. split; [reflexivity | split; reflexivity].
Qed.

Lemma sleep_between_rounds w :
  sleep (Z.max 10 (poll_interval_sec s)) w =
  (Val tt, advance (Z.max 10 (poll_interval_sec s) * ticks_per_sec)
             (record_call (CSleep (Z.max 10 (poll_interval_sec s))) w)).
Proof.
  unfold sleep. destruct (Z.ltb_spec (Z.max 10 (poll_interval_sec s)) 0); [lia | reflexivity].
Qed.

(** One round of the poll loop in which the locator raises. *)
Lemma poll_main_locator_raises rounds cycles w e w' :
  wait_for_finished_vod env s cycles w = (Exc e, w') ->
  poll_main env s (S rounds) cycles w =
  if run_once s then (Val tt, w')
  else poll_main env s rounds cycles
         (advance (Z.max 10 (poll_interval_sec s) * ticks_per_sec)
            (record_call (CSleep (Z.max 10 (poll_interval_sec s))) w')).
Proof.
  intros H. simpl poll_main. unfold bind at 1. unfold try_except.
  rewrite (bind_exc _ _ _ _ _ H). simpl.
  destruct (run_once s); [reflexivity | ].
  unfold bind. now rewrite sleep_between_rounds.
Qed.

(** C9 (amended): if a candidate that passed the ledger, size and age
    checks is gone when the stability detector takes its first sample,
    or is gone at the second sample, the [stat] call raises
    FileNotFoundError and the poll-strategy locator raises it too: it
    examines no further candidate and starts no further cycle.  The
    trigger loop catches the error without invoking the orchestrator;
    under run-once it then exits, otherwise it sleeps max(10, poll
    interval) seconds and calls the locator afresh. *)
Theorem vanished_candidate_aborts_locator rounds cycles w cands pre p post w1 w2 st st' :
  let seen := processed_list (processed w) in
  let io := io_ticks env in
  let t := clock w2 in
  list_vod_candidates env s w = (Val cands, w1) ->
  cands = (pre ++ p :: post)%list ->
  rejected_all env s seen pre w1 w2 ->
  ~ In (resolve env p) seen ->
  fs_stat env t p = Some st ->
  min_bytes s <= st_size st ->
  fs_stat env (t + io) p = Some st' ->
  stable_for_sec s * ticks_per_sec <= t + io - st_mtime st' ->
  fs_stat env (t + 2 * io) p = None \/
  (fs_stat env (t + 2 * io) p <> None /\
   fs_stat env (t + 3 * io + sample_ticks s) p = None) ->
  exists w',
    wait_for_finished_vod env s (S cycles) w = (Exc FileNotFoundError, w') /\
    poll_main env s (S rounds) (S cycles) w =
      (if run_once s then (Val tt, w')
       else poll_main env s rounds (S cycles)
              (advance (Z.max 10 (poll_interval_sec s) * ticks_per_sec)
                 (record_call (CSleep (Z.max 10 (poll_interval_sec s))) w'))).
Proof.
  intros seen io t Hl Hc Hrej Hseen E0 Hsize E1 Hage Hgone.
  destruct (check_candidate_vanished seen p w2 st st' Hseen E0 Hsize E1 Hage Hgone)
    as [w' [Hcheck _]].
  assert (Hwait : wait_for_finished_vod env s (S cycles) w = (Exc FileNotFoundError, w')).
  { unfold wait_for_finished_vod, bind, gets. fold seen. simpl poll_cycles.
    unfold bind. rewrite Hl. subst cands.
    now rewrite (scan_first _ _ _ post _ _ _ _ Hrej Hcheck). }
  exists w'. split; [exact Hwait | ].
  exact (poll_main_locator_raises rounds (S cycles) w FileNotFoundError w' Hwait).
Qed.

End Proofs.

(** * Concrete runs *)

(** ** The helpers against Python's answers *)

Example suffix_examples :
  suffix "/data/vods/Stream.TS" = ".TS" /\
  suffix "/data/vods/a.tar.gz" = ".gz" /\
  suffix "/home/user/.bashrc" = "" /\
  suffix "/data/vods/name." = "" /\
  suffix "/data/vods/noext" = "".
Proof. repeat split. Qed.

Example path_examples :
  path_name "/data/vods/stream.ts" = "stream.ts" /\
  path_parent "/data/vods/stream.ts" = "/data/vods" /\
  path_parent "/stream.ts" = "/" /\
  lower "Stream.TS" = "stream.ts" /\
  contains "eam" "stream.ts" = true /\
  contains "xyz" "stream.ts" = false.
Proof. repeat split. Qed.

Example strip_examples :
  strip "  /rec/stream.ts " = "/rec/stream.ts" /\ strip "   " = "" /\ strip "a b" = "a b".
Proof. repeat split. Qed.

(** [sorted(..., reverse=True)] keeps elements of equal key in their
    original order. *)
Example sort_desc_is_stable :
  map fst (sort_desc [("a", 1); ("b", 3); ("c", 1); ("d", 3); ("e", 2)])
  = ["b"; "d"; "e"; "a"; "c"].
Proof. reflexivity. Qed.

Example sample_interval_examples :
  sample_interval 120 = 40 /\ sample_interval 2 = 1 /\ sample_interval 0 = 1 /\
  sample_interval 7 = 2 /\ sample_interval (-9) = 1.
Proof. repeat split. Qed.

Example extract_project_id_examples :
  _extract_project_id (JObj [("projectId", JStr "p1")]) = Good "p1" /\
  _extract_project_id (JObj [("id", JNum 7); ("data", JObj [("id", JStr "p2")])]) = Good "p2" /\
  _extract_project_id (JObj [("data", JStr "p3")]) = Bad RuntimeError /\
  _extract_project_id (JArr []) = Bad AttributeError.
Proof. repeat split. Qed.

(** ** The end-to-end scenario

    The recording is in the watch directory, old enough and steady over
    the 40 s between the size samples; the locator selects it; it is
    published, submitted as project [p1]; the first poll is empty, the
    second, 15 s later, has two clips; both are downloaded and uploaded;
    the ledger, in memory and on disk, then holds the recording. *)
Example end_to_end :
  poll_main demo_env demo_settings 1 5 demo_world =
  (Val tt,
   {| clock := 55409;
      trace := [CSleep 40;
                CPublish "local_http" demo_vod;
                CSubmit "https://host/abc.ts";
                CPoll "p1" 1; CSleep 15; CPoll "p1" 2;
                CDownload (JStr "https://cdn/c1.mp4");
                CDownload (JStr "https://cdn/c2.mp4");
                CUploaderInit;
                CUpload "downloads/p1/c1.mp4"; CUpload "downloads/p1/c2.mp4";
                CSave {| processed_files := Some [demo_vod] |}];
      disk := Stored {| processed_files := Some [demo_vod] |};
      processed := {| processed_files := Some [demo_vod] |};
      listener_up := false |}).
Proof. vm_compute. reflexivity. Qed.

(** * The properties on the concrete scenario *)

(** C1, witness: the recording is in the ledger and still on disk; the
    orchestrator returns, calls nothing and changes nothing.  The run
    that committed the recording left it in the ledger. *)
Lemma processed_vod_is_not_rerun_witness :
  let w := snd (run_pipeline_for_vod demo_env demo_settings 5 demo_vod demo_world) in
  In (resolve demo_env demo_vod) (processed_list (processed w)) /\
  (let (r, w') := run_pipeline_for_vod demo_env demo_settings 5 demo_vod w in
   trace w' = trace w /\ processed w' = processed w /\ disk w' = disk w /\ r = Val tt).
Proof.
  intros w.
  destruct (processed_vod_is_not_rerun demo_env demo_settings 5 demo_vod w)
    as [Hskip Hleft].
  assert (Hin : In (resolve demo_env demo_vod) (processed_list (processed w))).
  { apply (Hleft 5%nat demo_world). vm_compute. reflexivity. }
  split; [exact Hin | exact (Hskip Hin)].
Defined.

(** C1, counterexample: the orchestrator commits the recording; the
    file is deleted afterwards; a second run on the same path, whose
    canonical path is in the ledger, does not return: it raises
    FileNotFoundError. *)
Lemma rerun_of_deleted_vod_raises :
  let env := scenario fs_deleted_later demo_poll (Good "https://host/abc.ts") Written in
  let first := run_pipeline_for_vod env demo_settings 5 demo_vod demo_world in
  let w2 := advance 200000 (snd first) in
  fst first = Val tt /\
  In (resolve env demo_vod) (processed_list (processed w2)) /\
  fst (run_pipeline_for_vod env demo_settings 5 demo_vod w2) = Exc FileNotFoundError.
Proof.
  vm_compute. split; [reflexivity | split; [left; reflexivity | reflexivity]].
Qed.

(** C2, counterexample: every stage succeeds but the write of the state
    file fails; the run fails, yet the in-memory ledger is no longer
    what it was before the run. *)
Lemma failed_write_still_grows_memory :
  let env := scenario demo_fs demo_poll (Good "https://host/abc.ts")
               (WriteFailed OSError false) in
  let (r, w') := run_pipeline_for_vod env demo_settings 5 demo_vod demo_world in
  r = Exc OSError /\
  processed_list (processed demo_world) = [] /\
  processed_list (processed w') = [demo_vod] /\
  disk w' = disk demo_world.
Proof. vm_compute. repeat split. Qed.

(** C3, witness: in the scenario the first poll is empty and in time and
    the second has the two clips, which the wait returns; with a clip
    service that never has clips and a timeout of 10 s, the second poll
    comes back after 15.4 s and the wait raises the timeout error. *)
Lemma clip_wait_outcomes_witness :
  (exists w', wait_exportable_clips demo_env demo_settings 5 "p1" demo_world
              = (Val demo_clips, w')) /\
  (exists w', wait_exportable_clips
                (scenario demo_fs never_ready (Good "https://host/abc.ts") Written)
                impatient_settings 5 "p1" demo_world
              = (Exc TimeoutError, w')).
Proof.
  split.
  - destruct (clip_wait_outcomes demo_env demo_settings 5 "p1" demo_world 1)
      as [w' [_ [_ [Hready _]]]].
    + vm_compute. discriminate.
    + apply le_n_S, le_n_S, Nat.le_0_l.
    + intros k Hk. assert (k = 1%nat) by lia. subst k.
      split; [reflexivity | vm_compute; discriminate].
    + exists w'. apply Hready. reflexivity.
  - destruct (clip_wait_outcomes
                (scenario demo_fs never_ready (Good "https://host/abc.ts") Written)
                impatient_settings 5 "p1" demo_world 1)
      as [w' [_ [_ [_ Hlate]]]].
    + vm_compute. discriminate.
    + apply le_n_S, le_n_S, Nat.le_0_l.
    + intros k Hk. assert (k = 1%nat) by lia. subst k.
      split; [reflexivity | vm_compute; discriminate].
    + exists w'. apply Hlate; [reflexivity | vm_compute; reflexivity].
Defined.

(** C3, counterexample: timeout 10 s, interval 15 s.  The only poll
    answered before the timeout is exceeded is the first, and it is
    empty; the second is answered 15.4 s after the start, and the wait
    returns its clips instead of raising the timeout error. *)
Lemma late_clips_beat_timeout :
  view_poll (snd (opus_poll demo_env "p1" 1)) = NotReady /\
  poll_done demo_env impatient_settings "p1" (clock demo_world) 1 = 200 /\
  poll_done demo_env impatient_settings "p1" (clock demo_world) 2 = 15400 /\
  opus_wait_timeout_sec impatient_settings * ticks_per_sec = 10000 /\
  fst (wait_exportable_clips demo_env impatient_settings 5 "p1" demo_world)
    = Val demo_clips.
Proof. vm_compute. repeat split. Qed.

(** C6, the failing request: a POST to the configured path with the
    right token whose body is the JSON array [[]].  The body decodes,
    the handler then calls [get] on a list: AttributeError leaves
    [do_POST], no response is sent and nothing is put on the queue. *)
Lemma array_body_is_left_unanswered :
  json_loads demo_lib "[]" = Some (JArr []) /\
  do_POST demo_lib (Some demo_settings) (demo_request (Some "2") "[]") []
  = (Unanswered AttributeError, []).
Proof. vm_compute. split; reflexivity. Qed.

(** C10, witness: no Content-Length header, the header [0], and a
    header that is not a number. *)
Lemma missing_length_means_empty_object_witness :
  do_POST demo_lib (Some demo_settings) (demo_request None "") []
    = (Responded 200 ok_body, [JObj []]) /\
  do_POST demo_lib (Some demo_settings) (demo_request (Some "0") "[1]") []
    = (Responded 200 ok_body, [JObj []]) /\
  do_POST demo_lib (Some demo_settings) (demo_request (Some "abc") "[1]") []
    = (Responded 200 ok_body, [JObj []]).
Proof.
  split; [ | split].
  - apply (missing_length_means_empty_object demo_lib demo_settings
             (demo_request None "") []); reflexivity || exact I.
  - apply (missing_length_means_empty_object demo_lib demo_settings
             (demo_request (Some "0") "[1]") []); reflexivity || (left; reflexivity).
  - apply (missing_length_means_empty_object demo_lib demo_settings
             (demo_request (Some "abc") "[1]") []); reflexivity || (right; reflexivity).
Defined.



(** C7, witness: the first event is of another action and is ignored;
    the second resolves to the recording and its run completes: the
    loop exits, the listener is down, the third event is never read. *)
Lemma run_once_ends_after_returning_job_witness :
  let ev := end_download [("path_downloaded_vod", JStr "/rec/stream.ts")] in
  exists w',
    webhook_main demo_lib demo_env demo_settings 5
      ([Some (JObj [("action", JStr "start_download")])] ++ Some ev :: [Some ev]) demo_world
    = (Val (Exited, 1), w') /\ listener_up w' = false.
Proof.
  intros ev.
  destruct (run_once_ends_after_returning_job demo_lib demo_env demo_settings 5
              [Some (JObj [("action", JStr "start_download")])] ev [Some ev] demo_vod
              demo_world 0 (set_listener true demo_world)
              (advance 2 (set_listener true demo_world)))
    as [Hok _].
  - reflexivity.
  - reflexivity.
  - vm_compute. reflexivity.
  - eexists. apply Hok. vm_compute. reflexivity.
Defined.

(** C7, counterexample: run-once is set, the event resolves to the
    recording and the orchestrator is invoked on it, but publishing
    fails and the run raises.  The loop does not terminate after this
    job: it is still waiting, with the listener up. *)
Lemma failed_job_does_not_end_loop :
  let env := scenario demo_fs demo_poll (Bad HTTPError) Written in
  let ev := end_download [("path_downloaded_vod", JStr "/rec/stream.ts")] in
  run_once demo_settings = true /\
  fst (resolve_vod_from_webhook demo_lib env demo_settings ev (set_listener true demo_world))
    = Val (Some demo_vod) /\
  (let (r, w') := webhook_main demo_lib env demo_settings 5 [Some ev] demo_world in
   r = Val (Waiting, 0) /\ listener_up w' = true /\
   trace w' = [CPublish "local_http" demo_vod]).
Proof. vm_compute. repeat split. Qed.

(** C5, counterexample: with a stability window of 5 s the detector
    sleeps 1 s between its samples, less than 5/3 s. *)
Lemma five_second_window_sleeps_one :
  sample_interval 5 = 1 /\
  3 * sample_interval 5 < 5 /\
  (let (r, w') := is_file_stable demo_env demo_vod 5 demo_world in
   r = Val true /\ trace w' = [CSleep 1]).
Proof. vm_compute. repeat split. Qed.


(** C9, witness: the recording passes the checks and is deleted before
    the second size sample; the locator raises, and the run-once loop
    exits without having called the orchestrator. *)
Lemma vanished_candidate_aborts_locator_witness :
  let env := scenario fs_vanishing demo_poll (Good "https://host/abc.ts") Written in
  exists w',
    wait_for_finished_vod env demo_settings 1 demo_world = (Exc FileNotFoundError, w') /\
    poll_main env demo_settings 1 1 demo_world = (Val tt, w').
Proof.
  intros env.
  set (w1 := snd (list_vod_candidates env demo_settings demo_world)).
  destruct (vanished_candidate_aborts_locator env demo_settings 0 0 demo_world
              [demo_vod; "/data/vods/old.mp4"] [] demo_vod ["/data/vods/old.mp4"] w1 w1
              (a_file 524288000 (-200000)) (a_file 524288000 (-200000)))
    as [w' [Hwait Hmain]].
  - vm_compute. reflexivity.
  - reflexivity.
  - reflexivity.
  - intros [].
  - reflexivity.
  - vm_compute. discriminate.
  - reflexivity.
  - vm_compute. discriminate.
  - right. split; [vm_compute; discriminate | vm_compute; reflexivity].
  - exists w'. split; [exact Hwait | exact Hmain].
Defined.

(** C9, counterexample: two candidates; the newer passes the checks and
    is deleted between the two size samples, the older is finished and
    eligible.  The locator does not treat the newer as not yet ready: it
    raises FileNotFoundError without looking at the older or starting a
    further cycle, and the run-once trigger loop ends there, the
    orchestrator never called. *)
Lemma vanished_candidate_is_not_retried :
  let env := scenario fs_vanishing demo_poll (Good "https://host/abc.ts") Written in
  fst (list_vod_candidates env demo_settings demo_world)
    = Val [demo_vod; "/data/vods/old.mp4"] /\
  clock (snd (list_vod_candidates env demo_settings demo_world)) = 6 /\
  (exists st, fs_stat env 8 demo_vod = Some st) /\
  fs_stat env (8 + 1 + sample_ticks demo_settings) demo_vod = None /\
  fst (check_candidate env demo_settings [] "/data/vods/old.mp4" demo_world) = Val true /\
  fst (wait_for_finished_vod env demo_settings 3 demo_world) = Exc FileNotFoundError /\
  (let (r, w') := poll_main env demo_settings 3 3 demo_world in
   r = Val tt /\ trace w' = [CSleep 40] /\ processed w' = processed demo_world).
Proof.
  vm_compute. repeat split. eexists. reflexivity.
Qed.

(** * Further properties *)

Lemma only_clock_refl w : only_clock w w.
Proof. repeat split. Qed.

Lemma only_clock_trans w1 w2 w3 :
  only_clock w1 w2 -> only_clock w2 w3 -> only_clock w1 w3.
Proof.
  intros [A1 [A2 [A3 A4]]] [B1 [B2 [B3 B4]]]. repeat split; congruence.
Qed.

Lemma silent_ret {A} (a : A) : silent (ret a).
Proof. intros w. apply only_clock_refl. Qed.

Lemma silent_raise {A} e : silent (@raise A e).
Proof. intros w. apply only_clock_refl. Qed.

Lemma silent_gets {A} (f : World -> A) : silent (gets f).
Proof. intros w. apply only_clock_refl. Qed.

Lemma silent_lift {A} (r : Reply A) : silent (lift r).
Proof. destruct r; intros w; apply only_clock_refl. Qed.

Lemma silent_bind {A B} (m : M A) (k : A -> M B) :
  silent m -> (forall a, silent (k a)) -> silent (bind m k).
Proof.
  intros Hm Hk w. specialize (Hm w). unfold bind.
  destruct (m w) as [[a | e | ] w1]; simpl in *; try assumption.
  eapply only_clock_trans; [eassumption | apply Hk].
Qed.

Lemma silent_run {A} {m : M A} {w r w'} :
  silent m -> m w = (r, w') -> only_clock w w'.
Proof. intros H E. specialize (H w). now rewrite E in H. Qed.

Lemma only_slept_refl w : only_slept w w.
Proof. split; [exists []; simpl; now rewrite app_nil_r | repeat split]. Qed.

Lemma only_slept_trans w1 w2 w3 :
  only_slept w1 w2 -> only_slept w2 w3 -> only_slept w1 w3.
Proof.
  intros [[n1 A1] [A2 [A3 A4]]] [[n2 B1] [B2 [B3 B4]]]. split.
  - exists (n1 ++ n2)%list. rewrite B1, A1, map_app. now rewrite app_assoc.
  - repeat split; congruence.
Qed.

Lemma only_clock_slept w w' : only_clock w w' -> only_slept w w'.
Proof.
  intros [A1 [A2 [A3 A4]]]. split; [exists []; simpl; now rewrite app_nil_r | now repeat split].
Qed.

Lemma silent_dozing {A} (m : M A) : silent m -> dozing m.
Proof. intros H w. apply only_clock_slept, H. Qed.

Lemma dozing_bind {A B} (m : M A) (k : A -> M B) :
  dozing m -> (forall a, dozing (k a)) -> dozing (bind m k).
Proof.
  intros Hm Hk w. specialize (Hm w). unfold bind.
  destruct (m w) as [[a | e | ] w1]; simpl in *; try assumption.
  eapply only_slept_trans; [eassumption | apply Hk].
Qed.

Lemma dozing_sleep secs : dozing (sleep secs).
Proof.
  intros w. unfold sleep. destruct (secs <? 0); [apply only_slept_refl | ].
  split; [exists [secs]; reflexivity | repeat split].
Qed.

Lemma dozing_run {A} {m : M A} {w r w'} :
  dozing m -> m w = (r, w') -> only_slept w w'.
Proof. intros H E. specialize (H w). now rewrite E in H. Qed.

Section MoreProofs.

Variable lib : PyLib.
Variable env : Env.
Variable s : Settings.

Lemma silent_observe {A} (f : Z -> A) : silent (observe env f).
Proof. intros w. repeat split. Qed.

Lemma silent_stat p : silent (stat env p).
Proof.
  unfold stat. apply silent_bind; [apply silent_observe | ].
  intros [st | ]; [apply silent_ret | apply silent_raise].
Qed.

Lemma silent_media_files ps : silent (media_files env s ps).
Proof.
  induction ps as [ | p rest IH]; simpl; [apply silent_ret | ].
  apply silent_bind; [apply silent_observe | intros f].
  apply silent_bind; [exact IH | intros kept; apply silent_ret].
Qed.

Lemma silent_with_key key ps : silent (with_key env key ps).
Proof.
  induction ps as [ | p rest IH]; simpl; [apply silent_ret | ].
  apply silent_bind; [apply silent_stat | intros st].
  apply silent_bind; [exact IH | intros keyed; apply silent_ret].
Qed.

Lemma silent_sorted_by key ps : silent (sorted_by env key ps).
Proof.
  unfold sorted_by. apply silent_bind; [apply silent_with_key | intros k; apply silent_ret].
Qed.

Lemma silent_largest_media d : silent (_largest_media_in_dir env s d).
Proof.
  unfold _largest_media_in_dir.
  apply silent_bind; [apply silent_observe | intros ex].
  destruct (negb ex); [apply silent_ret | ].
  apply silent_bind; [apply silent_observe | intros listing].
  apply silent_bind; [apply silent_media_files | intros [ | c cs]]; [apply silent_ret | ].
  apply silent_bind; [apply silent_sorted_by | intros l; apply silent_ret].
Qed.

Lemma silent_try_direct raws : silent (try_direct env s raws).
Proof.
  induction raws as [ | raw rest IH]; simpl; [apply silent_ret | ].
  apply silent_bind; [apply silent_observe | intros ex].
  apply silent_bind.
  - destruct ex; [apply silent_observe | apply silent_ret].
  - intros [ | ]; [ | exact IH].
    match goal with |- silent (if ?c then _ else _) => destruct c end;
      [apply silent_ret | ].
    match goal with |- silent (if ?c then _ else _) => destruct c end;
      [ | exact IH].
    apply silent_bind; [apply silent_largest_media | ].
    intros [c | ]; [apply silent_ret | exact IH].
Qed.

Lemma silent_by_basename vod : silent (by_basename lib env s vod).
Proof.
  unfold by_basename.
  apply silent_bind.
  - destruct (negb _); [apply silent_observe | apply silent_ret].
  - intros [ | ]; [ | apply silent_ret].
    apply silent_bind; [apply silent_observe | intros all_files].
    apply silent_bind; [apply silent_media_files | intros media].
    destruct (filter _ media) as [ | m ms]; [apply silent_ret | ].
    apply silent_bind; [apply silent_gets | intros seen].
    apply silent_bind; [apply silent_sorted_by | intros l; apply silent_ret].
Qed.

(** X1: whatever the payload, resolving a webhook event makes no
    outside call and never sleeps, and leaves the ledger, in memory and
    on disk, and the listener as they were: it only looks at the file
    system. *)
Theorem resolver_only_looks payload :
  silent (resolve_vod_from_webhook lib env s payload).
Proof.
  unfold resolve_vod_from_webhook.
  apply silent_bind; [apply silent_lift | intros action].
  destruct (negb (is_end_download action)); [apply silent_ret | ].
  apply silent_bind; [apply silent_try_direct | ].
  intros [p | ]; [apply silent_ret | apply silent_by_basename].
Qed.

(** X2: an event whose action is not [end_download] resolves to
    nothing without a single look at the file system: the world,
    clock included, is untouched. *)
Theorem other_actions_resolve_to_nothing fields w :
  dict_get fields "action" JNull <> JStr "end_download" ->
  resolve_vod_from_webhook lib env s (JObj fields) w = (Val None, w).
Proof.
  intros Hact. unfold resolve_vod_from_webhook, bind. simpl.
  destruct (dict_get fields "action" JNull) as [ | | | a | | ]; try reflexivity.
  simpl. destruct (String.eqb_spec a "end_download") as [E | _]; [ | reflexivity].
  subst a. contradiction.
Qed.

(** ** What the resolver returns *)

Lemma sorted_by_spec key ps w l w1 :
  sorted_by env key ps w = (Val l, w1) ->
  exists keyed,
    map fst keyed = ps /\ keys_sampled env key keyed /\ l = map fst (sort_desc keyed).
Proof.
  unfold sorted_by. intros H.
  apply bind_val in H. destruct H as [keyed [w2 [Hk H]]].
  inversion H; subst; clear H.
  destruct (with_key_spec _ _ _ _ _ _ Hk) as [Hmap Hkeys].
  exists keyed. now repeat split.
Qed.

Lemma sorted_by_In key ps w l w1 p :
  sorted_by env key ps w = (Val l, w1) -> In p l -> In p ps.
Proof.
  intros H Hin. destruct (sorted_by_spec _ _ _ _ _ H) as [keyed [Hmap [_ Hl]]].
  subst l ps. apply in_map_iff in Hin. destruct Hin as [qk [Hq Hin]].
  apply in_map_iff. exists qk. split; [assumption | ].
  eapply Permutation_in; [apply Permutation_sym, sort_desc_perm | exact Hin].
Qed.

Lemma media_files_run ps w kept w1 p :
  media_files env s ps w = (Val kept, w1) ->
  In p kept -> In p ps /\ In (lower (suffix p)) (vod_extensions s).
Proof.
  intros H Hin. destruct (media_files_spec env s ps w) as [kept' [w' [E Hk]]].
  rewrite E in H. inversion H; subst. now apply Hk.
Qed.

(** The head of a list sorted by decreasing key has the largest key. *)
Lemma sort_desc_head {A} (keyed : list (A * Z)) c :
  hd_error (map fst (sort_desc keyed)) = Some c ->
  exists k, In (c, k) keyed /\ forall q k', In (q, k') keyed -> k' <= k.
Proof.
  intros H.
  pose proof (sort_desc_sorted keyed) as Hs.
  pose proof (sort_desc_perm keyed) as Hp.
  destruct (sort_desc keyed) as [ | [c0 k] rest]; [discriminate | ].
  simpl in H. inversion H; subst c0; clear H.
  exists k. split.
  - eapply Permutation_in; [apply Permutation_sym, Hp | now left].
  - intros q k' Hin. apply (Permutation_in _ Hp) in Hin.
    destruct Hin as [E | Hin]; [inversion E; lia | ].
    apply StronglySorted_inv in Hs. destruct Hs as [_ Hall].
    rewrite Forall_forall in Hall. exact (Hall _ Hin).
Qed.

Lemma largest_media_spec directory w c w' :
  _largest_media_in_dir env s directory w = (Val (Some c), w') ->
  exists files wa wb keyed k,
    media_files env s (fs_iterdir env (clock w + io_ticks env) directory) wa = (Val files, wb) /\
    map fst keyed = files /\
    keys_sampled env st_size keyed /\
    In (c, k) keyed /\
    (forall q k', In (q, k') keyed -> k' <= k) /\
    In (lower (suffix c)) (vod_extensions s).
Proof.
  unfold _largest_media_in_dir. intros H.
  unfold bind at 1 in H. unfold path_exists, observe at 1 in H.
  destruct (negb _); [discriminate | ].
  unfold bind at 1 in H. unfold observe at 1 in H. cbn [clock advance] in H.
  apply bind_val in H. destruct H as [files [w4 [Hfiles H]]].
  destruct files as [ | f fs]; [discriminate | ].
  apply bind_val in H. destruct H as [l [w5 [Hsorted H]]].
  inversion H as [[Hhd Hw]]; clear H.
  destruct (sorted_by_spec _ _ _ _ _ Hsorted) as [keyed [Hmap [Hkeys Hl]]].
  subst l. destruct (sort_desc_head keyed c Hhd) as [k [Hin Hmax]].
  eexists (f :: fs), _, w4, keyed, k. split; [exact Hfiles | ]. repeat split; try assumption.
  assert (Hc : In c (f :: fs)).
  { rewrite <- Hmap. apply in_map_iff. exists (c, k). now split. }
  exact (proj2 (media_files_run _ _ _ _ _ Hfiles Hc)).
Qed.

(** X3: when the playlist fallback [_largest_media_in_dir] returns a
    file, that file is a media file of the directory listing (a regular
    file with an allowed extension) and no media file of the listing
    had a larger size when the sizes were read. *)
Theorem largest_media_is_largest directory w c w' :
  _largest_media_in_dir env s directory w = (Val (Some c), w') ->
  exists files wa wb keyed k,
    media_files env s (fs_iterdir env (clock w + io_ticks env) directory) wa = (Val files, wb) /\
    map fst keyed = files /\
    keys_sampled env st_size keyed /\
    In (c, k) keyed /\
    (forall q k', In (q, k') keyed -> k' <= k) /\
    In (lower (suffix c)) (vod_extensions s).
Proof. exact (largest_media_spec directory w c w'). Qed.

Lemma largest_media_ext directory w c w' :
  _largest_media_in_dir env s directory w = (Val (Some c), w') ->
  In (lower (suffix c)) (vod_extensions s).
Proof.
  intros H. destruct (largest_media_spec _ _ _ _ H)
    as [files [wa [wb [keyed [k [_ [_ [_ [_ [_ Hext]]]]]]]]]]. exact Hext.
Qed.

Lemma try_direct_ext raws : forall w p w',
  try_direct env s raws w = (Val (Some p), w') ->
  In (lower (suffix p)) (vod_extensions s).
Proof.
  induction raws as [ | raw rest IH]; intros w p w' H; [discriminate | ].
  cbn [try_direct] in H.
  apply bind_val in H. destruct H as [ex [w1 [_ H]]].
  apply bind_val in H. destruct H as [isf [w2 [_ H]]].
  destruct isf; [ | now apply IH in H].
  destruct (string_in (lower (suffix (_rewrite_source_path env s raw))) (vod_extensions s))
    eqn:Hext.
  - inversion H; subst. now apply string_in_In.
  - destruct (string_in (lower (suffix (_rewrite_source_path env s raw))) [".m3u8"; ".txt"]);
      [ | now apply IH in H].
    apply bind_val in H. destruct H as [[c | ] [w3 [Hl H]]]; [ | now apply IH in H].
    inversion H; subst. now apply largest_media_ext in Hl.
Qed.

Lemma by_basename_spec vod w chosen w' :
  by_basename lib env s vod w = (Val (Some chosen), w') ->
  let seen := processed_list (processed w) in
  exists media wa wb,
    media_files env s (fs_rglob env (clock w + io_ticks env) (watch_dir s)) wa
      = (Val media, wb) /\
    In chosen media /\
    In (lower (suffix chosen)) (vod_extensions s) /\
    contains (searched_basename lib vod) (path_name chosen) = true /\
    (In (resolve env chosen) seen ->
     forall p, In p media -> contains (searched_basename lib vod) (path_name p) = true ->
               In (resolve env p) seen).
Proof.
  intros H seen. unfold by_basename in H. fold (searched_basename lib vod) in H. cbv zeta in H.
  unfold bind at 1 in H.
  destruct (negb (searched_basename lib vod =? "")%string); [ | discriminate].
  unfold path_exists, observe at 1 in H.
  destruct (match fs_stat env (clock w) (watch_dir s) with Some _ => true | None => false end);
    [ | discriminate].
  unfold bind at 1 in H. unfold observe at 1 in H. cbn [clock advance] in H.
  apply bind_val in H. destruct H as [media [w4 [Hmedia H]]].
  set (matching := filter (fun p => contains (searched_basename lib vod) (path_name p)) media) in *.
  destruct matching as [ | m ms] eqn:Hmatch; [discriminate | ].
  rewrite <- Hmatch in H.
  apply bind_val in H. destruct H as [seen' [w5 [Hseen H]]].
  unfold gets in Hseen. inversion Hseen; subst seen' w5; clear Hseen.
  assert (Hledger : processed_list (processed w4) = seen).
  { destruct (silent_run (silent_media_files _) Hmedia) as [_ [Hp _]].
    unfold seen. now rewrite Hp. }
  rewrite Hledger in H.
  set (unseen := filter (fun p => negb (string_in (resolve env p) seen)) matching) in *.
  apply bind_val in H. destruct H as [l [w6 [Hsorted H]]].
  inversion H as [[Hhd Hw]]; clear H.
  assert (Hin_l : In chosen l) by (destruct l; [discriminate | inversion Hhd; now left]).
  pose proof (sorted_by_In _ _ _ _ _ _ Hsorted Hin_l) as Huse.
  assert (Hmatching : In chosen matching).
  { destruct unseen as [ | u us] eqn:Hu; [exact Huse | ].
    rewrite <- Hu in Huse. unfold unseen in Huse. apply filter_In in Huse. tauto. }
  unfold matching in Hmatching. apply filter_In in Hmatching.
  destruct Hmatching as [Hin_media Hcontains].
  eexists media, _, w4. split; [exact Hmedia | ]. repeat split; try assumption.
  - exact (proj2 (media_files_run _ _ _ _ _ Hmedia Hin_media)).
  - intros Hchosen p Hp Hpc.
    destruct unseen as [ | u us] eqn:Hu.
    + assert (Hpm : In p matching) by (unfold matching; apply filter_In; now split).
      destruct (string_in (resolve env p) seen) eqn:Hps; [now apply string_in_In | ].
      assert (Hpu : In p unseen) by (unfold unseen; apply filter_In; split; [assumption | now rewrite Hps]).
      rewrite Hu in Hpu. contradiction.
    + rewrite <- Hu in Huse. unfold unseen in Huse. apply filter_In in Huse.
      destruct Huse as [_ Hneg]. apply string_in_In in Hchosen. rewrite Hchosen in Hneg.
      discriminate.
Qed.

(** X4: when the basename search returns a file, it is a media file of
    the recursive listing of the watch directory whose name contains
    the basename, and a file already in the ledger is returned only if
    every media file whose name contains the basename is in the ledger
    too. *)
Theorem basename_search_prefers_unseen vod w chosen w' :
  by_basename lib env s vod w = (Val (Some chosen), w') ->
  let seen := processed_list (processed w) in
  exists media wa wb,
    media_files env s (fs_rglob env (clock w + io_ticks env) (watch_dir s)) wa
      = (Val media, wb) /\
    In chosen media /\
    In (lower (suffix chosen)) (vod_extensions s) /\
    contains (searched_basename lib vod) (path_name chosen) = true /\
    (In (resolve env chosen) seen ->
     forall p, In p media -> contains (searched_basename lib vod) (path_name p) = true ->
               In (resolve env p) seen).
Proof. exact (by_basename_spec vod w chosen w'). Qed.

(** X5: whichever way the resolver finds a file (direct path, playlist
    fallback or basename search), the file it returns has a lower-cased
    extension in the allow-list. *)
Theorem resolved_vod_has_allowed_extension payload w p w' :
  resolve_vod_from_webhook lib env s payload w = (Val (Some p), w') ->
  In (lower (suffix p)) (vod_extensions s).
Proof.
  unfold resolve_vod_from_webhook. intros H.
  apply bind_val in H. destruct H as [action [w1 [_ H]]].
  destruct (negb (is_end_download action)); [discriminate | ].
  apply bind_val in H. destruct H as [[q | ] [w2 [Hd H]]].
  - inversion H; subst. now apply try_direct_ext in Hd.
  - destruct (by_basename_spec _ _ _ _ H)
      as [media [wa [wb [_ [_ [Hext _]]]]]]. exact Hext.
Qed.

(** ** The locator and the trigger loops *)

Lemma dozing_is_file_stable p W : dozing (is_file_stable env p W).
Proof.
  unfold is_file_stable.
  apply dozing_bind; [apply silent_dozing, silent_stat | intros st1].
  apply dozing_bind; [apply dozing_sleep | intros _].
  apply dozing_bind; [apply silent_dozing, silent_stat | intros st2].
  apply silent_dozing, silent_ret.
Qed.

Lemma dozing_check_candidate seen p : dozing (check_candidate env s seen p).
Proof.
  unfold check_candidate.
  destruct (string_in _ _); [apply silent_dozing, silent_ret | ].
  apply dozing_bind; [apply silent_dozing, silent_stat | intros st].
  destruct (_ <? _); [apply silent_dozing, silent_ret | ].
  apply dozing_bind; [apply silent_dozing, silent_gets | intros t].
  apply dozing_bind; [apply silent_dozing, silent_stat | intros st'].
  destruct (_ <? _); [apply silent_dozing, silent_ret | apply dozing_is_file_stable].
Qed.

Lemma dozing_scan seen cands : dozing (scan env s seen cands).
Proof.
  induction cands as [ | p rest IH]; simpl; [apply silent_dozing, silent_ret | ].
  apply dozing_bind; [apply dozing_check_candidate | ].
  intros [ | ]; [apply silent_dozing, silent_ret | exact IH].
Qed.

Lemma silent_list_vod_candidates : silent (list_vod_candidates env s).
Proof.
  unfold list_vod_candidates.
  apply silent_bind; [apply silent_observe | intros ex].
  destruct (negb ex); [apply silent_ret | ].
  apply silent_bind; [apply silent_observe | intros listing].
  apply silent_bind; [apply silent_media_files | intros files; apply silent_sorted_by].
Qed.

Lemma dozing_poll_cycles cycles seen : dozing (poll_cycles env s cycles seen).
Proof.
  induction cycles as [ | cycles IH]; simpl; [intros w; apply only_slept_refl | ].
  apply dozing_bind; [apply silent_dozing, silent_list_vod_candidates | intros cands].
  apply dozing_bind; [apply dozing_scan | ].
  intros [p | ]; [apply silent_dozing, silent_ret | ].
  apply dozing_bind; [apply dozing_sleep | intros _; exact IH].
Qed.

(** X6: however it ends, the poll-strategy locator has done nothing to
    the outside but sleep: every call it made is a sleep, and the
    ledger, in memory and on disk, and the listener are as they were. *)
Theorem locator_only_sleeps cycles :
  dozing (wait_for_finished_vod env s cycles).
Proof.
  unfold wait_for_finished_vod.
  apply dozing_bind; [apply silent_dozing, silent_gets | intros seen].
  apply dozing_poll_cycles.
Qed.

Lemma poll_main_no_exception rounds fuel : forall w e,
  fst (poll_main env s rounds fuel w) <> Exc e.
Proof.
  induction rounds as [ | rounds IH]; intros w e; [discriminate | ].
  simpl poll_main. unfold bind at 1. unfold try_except.
  destruct (bind (wait_for_finished_vod env s fuel)
              (fun vod_path => run_pipeline_for_vod env s fuel vod_path) w)
    as [[u | e0 | ] w1]; simpl; try discriminate.
  - destruct (run_once s); [discriminate | ].
    unfold bind. rewrite sleep_between_rounds. apply IH.
  - destruct (run_once s); [discriminate | ].
    unfold bind. rewrite sleep_between_rounds. apply IH.
Qed.

(** X7: no exception leaves the poll trigger loop: whatever the file
    system and the remote services do, an error of the locator or of
    the orchestrator is caught, and the loop returns (run-once) or goes
    on. *)
Theorem poll_loop_never_raises rounds fuel : forall w e,
  fst (poll_main env s rounds fuel w) <> Exc e.
Proof. exact (poll_main_no_exception rounds fuel). Qed.

(** X8: without the run-once flag the webhook trigger loop never
    leaves by [break]: whatever the events and however their runs end,
    it is still waiting, or an exception of the resolver has left it. *)
Theorem continuous_webhook_loop_never_breaks fuel events : forall h w h' w',
  run_once s = false ->
  webhook_loop lib env s fuel events h w <> (Val (Exited, h'), w').
Proof.
  induction events as [ | [payload | ] rest IH]; intros h w h' w' Honce.
  - discriminate.
  - rewrite webhook_loop_event.
    destruct (resolve_vod_from_webhook lib env s payload w) as [[[vod_path | ] | e | ] w1];
      try discriminate.
    + destruct (run_pipeline_for_vod env s fuel vod_path w1) as [[u | e | ] w2];
        try discriminate; rewrite Honce; simpl; now apply IH.
    + now apply IH.
  - simpl. now apply IH.
Qed.

(** X9: an exception of the resolver is not caught by the webhook
    trigger loop: it leaves the loop, the listener is shut down on the
    way out and the remaining events are never read. *)
Theorem resolver_error_leaves_webhook_loop fuel pre payload post w h1 w1 e w2 :
  webhook_loop lib env s fuel pre 0 (set_listener true w) = (Val (Waiting, h1), w1) ->
  resolve_vod_from_webhook lib env s payload w1 = (Exc e, w2) ->
  webhook_main lib env s fuel (pre ++ Some payload :: post) w = (Exc e, shutdown w2) /\
  listener_up (shutdown w2) = false.
Proof.
  intros Hpre Hres. split; [ | reflexivity].
  unfold webhook_main. rewrite (webhook_loop_app _ _ _ _ _ _ _ _ _ _ Hpre).
  now rewrite webhook_loop_event, Hres.
Qed.

(** X29: an exception that leaves the webhook trigger loop was raised
    by the resolver: the loop had read the events before it and was
    still waiting, and the resolver raised on the next one.  Whatever an
    orchestrator run raises is caught. *)
Theorem webhook_loop_errors_come_from_resolver fuel events : forall h w e w',
  webhook_loop lib env s fuel events h w = (Exc e, w') ->
  exists pre payload post h1 w1,
    events = (pre ++ Some payload :: post)%list /\
    webhook_loop lib env s fuel pre h w = (Val (Waiting, h1), w1) /\
    resolve_vod_from_webhook lib env s payload w1 = (Exc e, w').
Proof.
  induction events as [ | [payload | ] rest IH]; intros h w e w' H.
  - discriminate.
  - rewrite webhook_loop_event in H.
    destruct (resolve_vod_from_webhook lib env s payload w)
      as [[[vod_path | ] | e1 | ] w1] eqn:Hres.
    + destruct (run_pipeline_for_vod env s fuel vod_path w1) as [[u | e2 | ] w2] eqn:Hrun.
      * destruct (run_once s && (h + 1 >=? 1)) eqn:Hb; [discriminate | ].
        destruct (IH _ _ _ _ H) as [pre [q [post [h1 [wq [Hev [Hpre Hq]]]]]]].
        exists (Some payload :: pre), q, post, h1, wq.
        split; [now rewrite Hev | split; [ | exact Hq]].
        now rewrite webhook_loop_event, Hres, Hrun, Hb.
      * destruct (run_once s && (h >=? 1)) eqn:Hb; [discriminate | ].
        destruct (IH _ _ _ _ H) as [pre [q [post [h1 [wq [Hev [Hpre Hq]]]]]]].
        exists (Some payload :: pre), q, post, h1, wq.
        split; [now rewrite Hev | split; [ | exact Hq]].
        now rewrite webhook_loop_event, Hres, Hrun, Hb.
      * discriminate.
    + destruct (IH _ _ _ _ H) as [pre [q [post [h1 [wq [Hev [Hpre Hq]]]]]]].
      exists (Some payload :: pre), q, post, h1, wq.
      split; [now rewrite Hev | split; [ | exact Hq]].
      now rewrite webhook_loop_event, Hres.
    + inversion H; subst.
      exists [], payload, rest, h, w. split; [reflexivity | split; [reflexivity | exact Hres]].
    + discriminate.
  - simpl in H.
    destruct (IH _ _ _ _ H) as [pre [q [post [h1 [wq [Hev [Hpre Hq]]]]]]].
    exists (None :: pre), q, post, h1, wq.
    split; [now rewrite Hev | split; [exact Hpre | exact Hq]].
Qed.

(** X10: with a publish mode other than [local_http] and [dropbox],
    every orchestrator run on an existing recording that is not in the
    ledger raises ValueError before any outside call: only the clock
    has moved, by the one look at the file. *)
Theorem unsupported_publish_mode_fails_every_run fuel vod_path w st :
  publish_mode s <> "local_http" ->
  publish_mode s <> "dropbox" ->
  fs_stat env (clock w) vod_path = Some st ->
  ~ In (resolve env vod_path) (processed_list (processed w)) ->
  run_pipeline_for_vod env s fuel vod_path w = (Exc ValueError, advance (io_ticks env) w).
Proof.
  intros Hl Hd Hst Hfresh.
  unfold run_pipeline_for_vod, bind, path_exists, observe, gets. rewrite Hst. simpl.
  destruct (string_in (resolve env vod_path) (processed_list (processed w))) eqn:Hin;
    [apply string_in_In in Hin; contradiction | ].
  unfold publish_vod.
  apply String.eqb_neq in Hl. apply String.eqb_neq in Hd. now rewrite Hl, Hd.
Qed.

(** ** Errors of the resolver *)

(** X11: a payload that is not a JSON object makes the resolver raise
    AttributeError at once, at its first [get]: no look at the file
    system, the world, clock included, untouched. *)
Theorem non_object_payload_raises_at_once payload w :
  is_dict payload = false ->
  resolve_vod_from_webhook lib env s payload w = (Exc AttributeError, w).
Proof.
  intros H. destruct payload as [ | b | n | t | items | fields];
    try reflexivity; discriminate.
Qed.

(** ** The webhook handler and its queue *)

(** X12: the handler only ever appends to the event queue, at most one
    event per request, and only together with the answer 200; and what
    it appends is a JSON object, so that a queue of objects stays a
    queue of objects. *)
Theorem handler_enqueues_only_objects hs req queue :
  let (resp, queue') := do_POST lib hs req queue in
  (queue' = queue /\ resp <> Responded 200 ok_body
   \/ exists fields, queue' = (queue ++ [JObj fields])%list /\ resp = Responded 200 ok_body) /\
  (Forall (fun ev => is_dict ev = true) queue -> Forall (fun ev => is_dict ev = true) queue').
Proof.
  destruct hs as [cfg | ].
  - rewrite webhook_handler_answers.
    destruct (negb (req_path req =? webhook_path cfg)%string);
      [split; [left; split; [reflexivity | discriminate] | auto] | ].
    destruct (negb (token_ok cfg req));
      [split; [left; split; [reflexivity | discriminate] | auto] | ].
    destruct (json_loads lib (request_body lib req)) as [[ | b | n | t | items | fields] | ];
      try (split; [left; split; [reflexivity | discriminate] | auto]).
    split.
    + right. exists fields. now split.
    + intros Hq. apply Forall_app. split; [assumption | now constructor].
  - simpl. split; [left; split; [reflexivity | discriminate] | auto].
Qed.

(** ** The project id *)

Lemma find_first {A} (f : A -> bool) l x :
  find f l = Some x <->
  exists pre post, l = (pre ++ x :: post)%list /\ f x = true /\ Forall (fun y => f y = false) pre.
Proof.
  split.
  - induction l as [ | y l IH]; simpl; [discriminate | ].
    destruct (f y) eqn:Hy.
    + intros H. inversion H; subst. exists [], l. now repeat split.
    + intros H. destruct (IH H) as [pre [post [E [Hx Hpre]]]].
      exists (y :: pre), post. subst l. repeat split; [assumption | now constructor].
  - intros [pre [post [E [Hx Hpre]]]]. subst l.
    induction Hpre as [ | y pre Hy _ IH]; simpl; [now rewrite Hx | now rewrite Hy].
Qed.

Lemma extract_project_id_find fields :
  _extract_project_id (JObj fields) =
  match find nonempty_str (id_candidates fields) with
  | Some (JStr c) => Good c
  | _ => Bad RuntimeError
  end.
Proof.
  unfold _extract_project_id, id_candidates, sub_dict.
  assert (Hsame : forall c, (truthy c && match c with JStr _ => true | _ => false end)
                            = nonempty_str c).
  { intros [ | b | n | t | l | f]; simpl; try reflexivity.
    - now rewrite andb_false_r.
    - now rewrite andb_false_r.
    - now rewrite andb_true_r.
    - now rewrite andb_false_r.
    - now rewrite andb_false_r. }
  assert (Hfind : forall l, find (fun c => truthy c && match c with JStr _ => true | _ => false end) l
                            = find nonempty_str l).
  { induction l as [ | c l IH]; simpl; [reflexivity | ]. now rewrite Hsame, IH. }
  rewrite Hfind.
  destruct (dict_get fields "data" JNull) as [ | b | n | t | l | inner]; reflexivity.
Qed.

(** X13: [_extract_project_id] returns [c] exactly when [c] is the
    first non-empty string among the response's [projectId], [id],
    [data.projectId] and [data.id], in that order; ids of another type
    (a number, say) are passed over; it raises RuntimeError exactly when
    none of the four is a non-empty string, and AttributeError when the
    response is not an object. *)
Theorem project_id_is_first_nonempty_string body :
  match body with
  | JObj fields =>
      (forall c,
         _extract_project_id body = Good c <->
         exists pre post,
           id_candidates fields = (pre ++ JStr c :: post)%list /\ c <> "" /\
           Forall (fun y => nonempty_str y = false) pre) /\
      (_extract_project_id body = Bad RuntimeError <->
       Forall (fun y => nonempty_str y = false) (id_candidates fields))
  | _ => _extract_project_id body = Bad AttributeError
  end.
Proof.
  destruct body as [ | b | n | t | items | fields]; try reflexivity.
  rewrite extract_project_id_find. split.
  - intros c. split.
    + destruct (find nonempty_str (id_candidates fields)) as [[ | b | n | t | l | f] | ] eqn:Hf;
        try discriminate.
      intros H. inversion H; subst t; clear H.
      apply find_first in Hf. destruct Hf as [pre [post [E [Hc Hpre]]]].
      exists pre, post. repeat split; try assumption.
      simpl in Hc. intros Hempty. subst c. discriminate.
    + intros [pre [post [E [Hc Hpre]]]].
      assert (Hf : find nonempty_str (id_candidates fields) = Some (JStr c)).
      { apply find_first. exists pre, post. repeat split; try assumption.
        simpl. apply String.eqb_neq in Hc. now rewrite Hc. }
      now rewrite Hf.
  - split.
    + destruct (find nonempty_str (id_candidates fields)) as [x | ] eqn:Hf.
      * apply find_some in Hf. destruct Hf as [_ Hx].
        destruct x; try discriminate.
      * intros _. apply Forall_forall. intros y Hy.
        exact (find_none _ _ Hf y Hy).
    + intros Hall.
      destruct (find nonempty_str (id_candidates fields)) as [x | ] eqn:Hf; [ | reflexivity].
      apply find_some in Hf. destruct Hf as [Hin Hx].
      rewrite Forall_forall in Hall. rewrite (Hall x Hin) in Hx. discriminate.
Qed.

(** ** Downloading and uploading the clips *)

Lemma download_from_all_fetched pid clips : forall idx w,
  (forall url, clip_fetch env url = Good tt) ->
  Forall (fun clip => is_dict clip = true) clips ->
  exists files w',
    download_from env idx clips pid w = (Val files, w') /\
    List.length files = List.length (preview_urls clips) /\
    trace w' = (trace w ++ map CDownload (preview_urls clips))%list /\
    same_ledger w w'.
Proof.
  induction clips as [ | clip rest IH]; intros idx w Hfetch Hdict.
  - exists [], w. simpl. rewrite app_nil_r. repeat split.
  - inversion Hdict as [ | c l Hc Hrest]; subst.
    destruct clip as [ | b | n | t | items | fields]; try discriminate.
    simpl download_from. simpl preview_urls.
    destruct (truthy (dict_get fields "uriForPreview" JNull)) eqn:Hurl; simpl negb; cbv iota.
    + destruct (IH (S idx) (record_call (CDownload (dict_get fields "uriForPreview" JNull)) w)
                  Hfetch Hrest) as [files [w' [E [Hlen [Htr Hled]]]]].
      unfold bind, modify. rewrite Hfetch. cbn [lift ret negb]. cbv beta. rewrite E.
      eexists _, w'. split; [reflexivity | ]. simpl. repeat split.
      * now rewrite Hlen.
      * rewrite Htr. simpl. now rewrite <- app_assoc.
      * apply Hled.
      * apply Hled.
    + simpl. apply IH; assumption.
Qed.

(** X14: when every fetch succeeds, [download_clips] fetches exactly the
    clips that carry a truthy [uriForPreview], in the order of the list,
    and returns one file per fetch; a clip without one is passed over
    and the download goes on. *)
Theorem downloads_follow_preview_urls clips pid w :
  (forall url, clip_fetch env url = Good tt) ->
  Forall (fun clip => is_dict clip = true) clips ->
  exists files w',
    download_clips env clips pid w = (Val files, w') /\
    List.length files = List.length (preview_urls clips) /\
    trace w' = (trace w ++ map CDownload (preview_urls clips))%list /\
    same_ledger w w'.
Proof. intros Hfetch Hdict. now apply download_from_all_fetched. Qed.

(** X15: one failed upload ends the upload loop: the files before it
    were uploaded, the failing one was tried, none of the files after
    it is touched, and the error leaves the loop with the ledger as it
    was. *)
Theorem failed_upload_aborts_the_rest pre f post clips e : forall idx w,
  (forall clip i, exists td, yt_text env clip i = Good td) ->
  (forall q t d, In q pre -> exists id, yt_upload env q t d = Good id) ->
  (forall t d, yt_upload env f t d = Bad e) ->
  exists w',
    upload_from env idx (pre ++ f :: post) clips w = (Exc e, w') /\
    trace w' = (trace w ++ map CUpload (pre ++ [f]))%list /\
    same_ledger w w'.
Proof.
  induction pre as [ | q pre IH]; intros idx w Htext Hgood Hbad.
  - simpl app. simpl upload_from.
    destruct (Htext (nth (idx - 1) clips (JObj [])) idx) as [td Htd].
    unfold bind, modify. rewrite Htd. simpl. rewrite Hbad. simpl.
    eexists. repeat split.
  - simpl app. simpl upload_from.
    destruct (Htext (nth (idx - 1) clips (JObj [])) idx) as [td Htd].
    destruct (Hgood q (fst td) (snd td) (or_introl eq_refl)) as [id Hid].
    destruct (IH (S idx) (record_call (CUpload q) w) Htext
                (fun q' t d Hq' => Hgood q' t d (or_intror Hq')) Hbad)
      as [w' [E [Htr Hled]]].
    unfold bind, modify. rewrite Htd. simpl. rewrite Hid. simpl.
    unfold bind in E. rewrite E.
    exists w'. split; [reflexivity | split].
    + rewrite Htr. simpl. now rewrite <- app_assoc.
    + exact Hled.
Qed.

(** X16: the upload loop pairs the k-th downloaded file with the k-th
    clip of the list, not with the clip the file came from.  When the
    first clip has no preview URL and the second has one, the second
    clip's file is uploaded under the title and description built from
    the first clip; the text of the second clip is never asked for. *)
Theorem skipped_clip_titles_next_upload fa fb pid w td :
  truthy (dict_get fa "uriForPreview" JNull) = false ->
  truthy (dict_get fb "uriForPreview" JNull) = true ->
  clip_fetch env (dict_get fb "uriForPreview" JNull) = Good tt ->
  yt_init env = Good tt ->
  yt_text env (JObj fa) 1 = Good td ->
  let file := clip_target env pid 2 (assoc "id" fb) in
  exists w',
    fetch_and_upload env [JObj fa; JObj fb] pid w
    = (match yt_upload env file (fst td) (snd td) with
       | Good _ => Val tt
       | Bad e => Exc e
       end, w') /\
    trace w' = (trace w ++ [CDownload (dict_get fb "uriForPreview" JNull);
                            CUploaderInit; CUpload file])%list.
Proof.
  intros Ha Hb Hfetch Hinit Htext file.
  cbv [fetch_and_upload download_clips download_from bind modify].
  rewrite Ha, Hb. cbv [negb]. rewrite Hfetch.
  cbv [lift ret]. rewrite Hinit.
  cbv [lift ret upload_from nth Nat.sub bind modify]. rewrite Htext.
  cbv [lift ret]. fold file.
  destruct (yt_upload env file (fst td) (snd td)) as [id | e];
    cbv [raise]; eexists; (split; [reflexivity | ]); cbn [trace record_call];
    rewrite <- !app_assoc; reflexivity.
Qed.

(** ** The ledger across runs and restarts *)

Lemma run_sync_cases fuel vod_path w r w' :
  in_sync w ->
  run_pipeline_for_vod env s fuel vod_path w = (r, w') ->
  in_sync w' \/
  exists e truncated, r = Exc e /\ state_write env (processed w') = WriteFailed e truncated.
Proof.
  intros Hsync Hrun.
  apply run_pipeline_ledger in Hrun.
  destruct Hrun as [[[Lp Ld] _] | [_ [_ [[_ [_ Hd]] | [e [tr [Hr Hw]]]]]]].
  - left. unfold in_sync in *. now rewrite Lp, Ld.
  - left. unfold in_sync. now rewrite Hd.
  - right. now exists e, tr.
Qed.

(** X17: a run never puts the state file and the in-memory ledger out
    of step except by a failed write: if they agreed before the run,
    they agree after it, or the write of the state file failed. *)
Theorem run_keeps_ledger_in_sync fuel vod_path w :
  in_sync w ->
  let (r, w') := run_pipeline_for_vod env s fuel vod_path w in
  in_sync w' \/
  exists e truncated, r = Exc e /\ state_write env (processed w') = WriteFailed e truncated.
Proof.
  intros Hsync.
  destruct (run_pipeline_for_vod env s fuel vod_path w) as [r w'] eqn:Hrun.
  eapply run_sync_cases; eassumption.
Qed.

(** X18: deduplication survives a restart.  After a run that returned,
    started with state file and memory in agreement, a new process that
    loads the ledger from the state file finds the recording in it: its
    run on the same path makes no outside call and changes neither the
    ledger nor the state file. *)
Theorem committed_vod_is_skipped_after_restart fuel fuel' vod_path w w1 w2 :
  in_sync w ->
  run_pipeline_for_vod env s fuel vod_path w = (Val tt, w1) ->
  disk w2 = disk w1 ->
  processed w2 = load_processed (disk w2) ->
  let (r, w3) := run_pipeline_for_vod env s fuel' vod_path w2 in
  trace w3 = trace w2 /\ processed w3 = processed w2 /\ disk w3 = disk w2 /\
  r = match fs_stat env (clock w2) vod_path with
      | Some _ => Val tt
      | None => Exc FileNotFoundError
      end.
Proof.
  intros Hsync Hrun Hdisk Hload.
  assert (Hin : In (resolve env vod_path) (processed_list (processed w2))).
  { pose proof (returned_run_leaves_path_in_ledger _ _ _ _ _ _ Hrun) as Hin1.
    destruct (run_sync_cases _ _ _ _ _ Hsync Hrun) as [Hs | [e [tr [Hr _]]]]; [ | discriminate].
    unfold in_sync in Hs. now rewrite Hload, Hdisk, Hs. }
  rewrite (run_pipeline_seen _ _ fuel' vod_path w2 Hin). repeat split; reflexivity.
Qed.

End MoreProofs.

(** * Names, settings and texts *)

Lemma prefix_nil t : prefix "" t = true.
Proof. destruct t; reflexivity. Qed.

Lemma prefix_cons a t b u :
  prefix (String a t) (String b u) = Ascii.eqb a b && prefix t u.
Proof.
  cbn [prefix]. destruct (ascii_dec a b) as [E | N].
  - subst b. now rewrite Ascii.eqb_refl.
  - apply Ascii.eqb_neq in N. now rewrite N.
Qed.

Lemma contains_cons needle c rest :
  contains needle (String c rest) = prefix needle (String c rest) || contains needle rest.
Proof. reflexivity. Qed.

(** ** [_safe_name] *)

Lemma all_chars_lstrip p x t : all_chars p t = true -> all_chars p (lstrip_char x t) = true.
Proof.
  induction t as [ | c rest IH]; intros H; [reflexivity | ].
  simpl. destruct (Ascii.eqb c x); [ | exact H].
  simpl in H. apply andb_prop in H. now apply IH.
Qed.

Lemma all_chars_rstrip p x t : all_chars p t = true -> all_chars p (rstrip_char x t) = true.
Proof.
  induction t as [ | c rest IH]; intros H; [reflexivity | ].
  simpl in H. apply andb_prop in H. destruct H as [Hc Hr]. specialize (IH Hr).
  simpl. destruct (rstrip_char x rest) as [ | d kept].
  - destruct (Ascii.eqb c x); [reflexivity | ]. simpl. now rewrite Hc.
  - cbn [all_chars]. cbn [all_chars] in IH. now rewrite Hc, IH.
Qed.

Lemma all_chars_squash name : forall in_run,
  all_chars safe_char (squash_unsafe name in_run) = true.
Proof.
  induction name as [ | c rest IH]; intros in_run; [reflexivity | ].
  simpl. destruct (safe_char c) eqn:Hc.
  - simpl. now rewrite Hc, IH.
  - destruct in_run; [apply IH | ]. cbn [all_chars]. now rewrite IH.
Qed.

Lemma lstrip_char_head x t : prefix (String x "") (lstrip_char x t) = false.
Proof.
  induction t as [ | c rest IH]; [reflexivity | ].
  simpl. destruct (Ascii.eqb c x) eqn:E; [exact IH | ].
  simpl. destruct (ascii_dec x c) as [Heq | _]; [ | reflexivity].
  subst c. now rewrite Ascii.eqb_refl in E.
Qed.

Lemma rstrip_char_head x t :
  prefix (String x "") t = false -> prefix (String x "") (rstrip_char x t) = false.
Proof.
  destruct t as [ | c rest]; intros H; [reflexivity | ].
  simpl in H. simpl.
  destruct (ascii_dec x c) as [Heq | Hne].
  - destruct rest; discriminate.
  - destruct (rstrip_char x rest) as [ | d kept].
    + destruct (Ascii.eqb_spec c x) as [E | _]; [now subst | ].
      simpl. destruct (ascii_dec x c); [contradiction | reflexivity].
    + simpl. destruct (ascii_dec x c); [contradiction | reflexivity].
Qed.

Lemma rstrip_char_end x t : ends_with x (rstrip_char x t) = false.
Proof.
  induction t as [ | c rest IH]; [reflexivity | ].
  simpl. destruct (rstrip_char x rest) as [ | d kept].
  - destruct (Ascii.eqb c x) eqn:E; [reflexivity | ]. simpl. exact E.
  - exact IH.
Qed.

Lemma squash_safe t : all_chars safe_char t = true -> squash_unsafe t false = t.
Proof.
  induction t as [ | c rest IH]; intros H; [reflexivity | ].
  simpl in H. apply andb_prop in H. destruct H as [Hc Hr].
  simpl. rewrite Hc. now rewrite IH.
Qed.

Lemma lstrip_char_fixed x t : prefix (String x "") t = false -> lstrip_char x t = t.
Proof.
  destruct t as [ | c rest]; intros H; [reflexivity | ].
  simpl in H. simpl. destruct (Ascii.eqb_spec c x) as [E | _]; [ | reflexivity].
  subst c. destruct (ascii_dec x x); [ | contradiction]. destruct rest; discriminate.
Qed.

Lemma rstrip_char_fixed x t : ends_with x t = false -> rstrip_char x t = t.
Proof.
  induction t as [ | c rest IH]; intros H; [reflexivity | ].
  simpl in H. simpl. destruct rest as [ | d rest'].
  - simpl. now rewrite H.
  - rewrite (IH H). reflexivity.
Qed.

Lemma safe_name_fixed name :
  all_chars safe_char name = true ->
  prefix "_" name = false ->
  ends_with "_" name = false ->
  _safe_name name = name.
Proof.
  intros Hs Hp He. unfold _safe_name, strip_char.
  rewrite (squash_safe _ Hs), (lstrip_char_fixed _ _ Hp). now apply rstrip_char_fixed.
Qed.

Lemma safe_name_all_safe name : all_chars safe_char (_safe_name name) = true.
Proof.
  unfold _safe_name, strip_char.
  apply all_chars_rstrip, all_chars_lstrip, all_chars_squash.
Qed.

(** X19: the name [_safe_name] returns is made of the characters
    [a-zA-Z0-9._-] only (no slash, no space, no question mark), neither
    starts nor ends with an underscore, and is a fixed point: cleaning
    it again changes nothing. *)
Theorem safe_name_is_path_safe name :
  all_chars safe_char (_safe_name name) = true /\
  prefix "_" (_safe_name name) = false /\
  ends_with "_" (_safe_name name) = false /\
  _safe_name (_safe_name name) = _safe_name name.
Proof.
  pose proof (safe_name_all_safe name) as Hs.
  assert (Hp : prefix "_" (_safe_name name) = false).
  { unfold _safe_name, strip_char. apply rstrip_char_head, lstrip_char_head. }
  assert (He : ends_with "_" (_safe_name name) = false).
  { unfold _safe_name, strip_char. apply rstrip_char_end. }
  repeat split; try assumption. now apply safe_name_fixed.
Qed.

(** X20: a name made of the characters [a-zA-Z0-9._-] only that
    neither starts nor ends with an underscore is returned by
    [_safe_name] as it is. *)
Theorem safe_names_are_left_alone name :
  all_chars safe_char name = true ->
  prefix "_" name = false ->
  ends_with "_" name = false ->
  _safe_name name = name.
Proof. exact (safe_name_fixed name). Qed.

Lemma all_chars_app p a b : all_chars p (a ++ b) = all_chars p a && all_chars p b.
Proof.
  induction a as [ | c a IH]; [reflexivity | ].
  cbn [append all_chars]. now rewrite IH, andb_assoc.
Qed.

(** X21: the unique name under which a recording is published (the
    last segment of the local URL and of the Dropbox path) is made of
    the characters [a-zA-Z0-9._-] only exactly when the time stamp and
    the random hex text are: whatever the recording is called, its name
    adds no slash, space or other character. *)
Theorem published_name_is_url_safe stamp hex8 vod_path :
  all_chars safe_char (unique_name stamp hex8 vod_path)
  = all_chars safe_char stamp && all_chars safe_char hex8.
Proof.
  unfold unique_name. rewrite !all_chars_app.
  rewrite (safe_name_all_safe (path_name vod_path)). cbn [all_chars]. change (safe_char "_") with true. cbn [andb].
  now rewrite !andb_true_r.
Qed.

(** ** The extension list of [Settings.from_env] *)

Lemma lower_ascii_idem c : lower_ascii (lower_ascii c) = lower_ascii c.
Proof.
  destruct c as [b0 b1 b2 b3 b4 b5 b6 b7].
  destruct b0, b1, b2, b3, b4, b5, b6, b7; reflexivity.
Qed.

Lemma lower_idem t : lower (lower t) = lower t.
Proof.
  induction t as [ | c rest IH]; [reflexivity | ].
  simpl. now rewrite lower_ascii_idem, IH.
Qed.

Lemma stripped_items_nonempty raw x : In x (stripped_items raw) -> x <> "".
Proof.
  unfold stripped_items. intros H. apply in_map_iff in H.
  destruct H as [y [Hy Hin]]. apply filter_In in Hin. destruct Hin as [_ Hne].
  subst x. intros E. rewrite E in Hne. discriminate.
Qed.

(** X22: every extension [from_env] reads from VOD_EXTENSIONS starts
    with a dot and is in lower case, with or without the dot and in
    whatever case it was written; an entry that is only a dot apart, it
    has at least one character after the dot. *)
Theorem configured_extensions_are_normalised raw e :
  In e (vod_extensions_of raw) ->
  prefix "." e = true /\ lower e = e /\ (2 <= String.length e \/ e = ".")%nat.
Proof.
  unfold vod_extensions_of. intros H.
  apply in_map_iff in H. destruct H as [x [Hx Hin]].
  apply in_map_iff in Hin. destruct Hin as [y [Hy Hin]].
  apply stripped_items_nonempty in Hin.
  assert (Hlow : lower x = x) by (subst x; apply lower_idem).
  assert (Hne : x <> "") by (subst x; destruct y; [contradiction | discriminate]).
  destruct (prefix "." x) eqn:Hp; subst e.
  - split; [exact Hp | split; [exact Hlow | ]].
    destruct x as [ | c [ | d x']]; [contradiction | right | left; simpl; lia].
    rewrite prefix_cons in Hp. apply andb_prop in Hp. destruct Hp as [Hc _].
    apply Ascii.eqb_eq in Hc. now subst c.
  - split; [cbn [append]; now rewrite prefix_cons, prefix_nil | split].
    + cbn [append lower]. rewrite Hlow. reflexivity.
    + left. destruct x; [contradiction | simpl; lia].
Qed.

(** ** Title and description of an upload *)

Lemma take_chars_short t : forall n, (char_count (take_chars n t) <= n)%nat.
Proof.
  induction t as [ | c rest IH]; intros n; [simpl; lia | ].
  cbn [take_chars]. destruct (is_continuation c) eqn:Hc.
  - cbn [char_count]. rewrite Hc. apply IH.
  - destruct n as [ | m]; [simpl; lia | ].
    cbn [char_count]. rewrite Hc. specialize (IH m). lia.
Qed.

Lemma take_chars_nonempty n t : t <> "" -> take_chars (S n) t <> "".
Proof.
  destruct t as [ | c rest]; [contradiction | ]. intros _.
  cbn [take_chars]. destruct (is_continuation c); discriminate.
Qed.

(** X23: the title [build_yt_text] returns for a clip object is the
    clip's title with the white space around it off when that is a
    string and not blank, and otherwise (no title, null, empty or
    blank) the configured prefix, [ #] and the number of the clip: it
    is never empty.  The title [upload] sends, cut to 100 characters,
    is not empty and has at most 100 characters, and the tags sent are
    the configured default tags.  The only exception is AttributeError:
    a truthy title that is not a string, or a clip that is not an
    object. *)
Theorem yt_title_is_never_empty lib ms clip idx :
  match clip with
  | JObj fields =>
      match build_yt_text lib ms clip idx with
      | Good (title, description) =>
          title <> "" /\
          title = match dict_get fields "title" JNull with
                  | JStr t => if (strip t =? "")%string then default_title ms idx else strip t
                  | _ => default_title ms idx
                  end /\
          let '(sent_title, _, tags) := upload_snippet ms title description None in
          sent_title <> "" /\ (char_count sent_title <= 100)%nat /\
          tags = yt_default_tags ms
      | Bad e =>
          e = AttributeError /\ truthy (dict_get fields "title" JNull) = true /\
          forall t, dict_get fields "title" JNull <> JStr t
      end
  | _ => build_yt_text lib ms clip idx = Bad AttributeError
  end.
Proof.
  destruct clip as [ | b | n | t | items | fields]; try reflexivity.
  unfold build_yt_text. fold (default_title ms idx).
  assert (Hfb : default_title ms idx <> "").
  { unfold default_title. destruct (yt_title_prefix ms); discriminate. }
  assert (Hsend : forall title d,
            title <> "" ->
            let '(sent_title, _, tags) := upload_snippet ms title d None in
            sent_title <> "" /\ (char_count sent_title <= 100)%nat /\
            tags = yt_default_tags ms).
  { intros title d Hne. unfold upload_snippet.
    split; [now apply take_chars_nonempty | split; [apply take_chars_short | reflexivity]]. }
  destruct (dict_get fields "title" JNull) as [ | b | n | t | items | fs] eqn:Ht;
    cbn [truthy].
  - cbn [String.eqb negb]. split; [exact Hfb | split; [reflexivity | now apply Hsend]].
  - destruct b; cbn [String.eqb negb].
    + split; [reflexivity | split; [reflexivity | discriminate]].
    + split; [exact Hfb | split; [reflexivity | now apply Hsend]].
  - destruct (negb (n =? 0)) eqn:Hn; cbn [String.eqb negb].
    + split; [reflexivity | split; [reflexivity | discriminate]].
    + split; [exact Hfb | split; [reflexivity | now apply Hsend]].
  - destruct (negb (t =? "")%string) eqn:Hn.
    + destruct (String.eqb_spec (strip t) "") as [E | N]; cbn [negb].
      * split; [exact Hfb | split; [reflexivity | now apply Hsend]].
      * split; [exact N | split; [reflexivity | now apply Hsend]].
    + cbn [String.eqb negb].
      apply negb_false_iff in Hn. apply String.eqb_eq in Hn. subst t.
      split; [exact Hfb | split; [reflexivity | now apply Hsend]].
  - destruct items; cbn [negb String.eqb].
    + split; [exact Hfb | split; [reflexivity | now apply Hsend]].
    + split; [reflexivity | split; [reflexivity | discriminate]].
  - destruct fs; cbn [negb String.eqb].
    + split; [exact Hfb | split; [reflexivity | now apply Hsend]].
    + split; [reflexivity | split; [reflexivity | discriminate]].
Qed.

(** * Publishing through Dropbox *)

Lemma read_at_full len pos n :
  0 <= n -> n <= len - pos -> read_at len pos n = {| sl_off := pos; sl_len := n |}.
Proof. intros H0 Hn. unfold read_at. f_equal. lia. Qed.

Lemma session_loop_tiles fails file_size len path :
  (forall c, fails c = None) ->
  file_size <= len ->
  forall fuel pos,
    0 <= pos < file_size ->
    file_size - pos <= (Z.of_nat fuel - 1) * chunk_size ->
    exists calls,
      session_loop fuel fails file_size len pos pos path = (Val tt, calls) /\
      session_from file_size path pos calls.
Proof.
  intros Hok Hlen. induction fuel as [ | fuel IH]; intros pos Hpos Hfuel.
  - unfold chunk_size in Hfuel. simpl in Hfuel. lia.
  - cbn [session_loop].
    destruct (Z.ltb_spec pos file_size) as [_ | Hge]; [ | lia].
    destruct (Z.leb_spec (file_size - pos) chunk_size) as [Hlast | Hmore].
    + rewrite Z.min_r by lia. rewrite read_at_full by lia. cbn [sl_len].
      rewrite Hok.
      destruct fuel as [ | fuel]; [unfold chunk_size in *; simpl in Hfuel; lia | ].
      cbn [session_loop].
      destruct (Z.ltb_spec (pos + (file_size - pos)) file_size) as [Hlt | _]; [lia | ].
      eexists. split; [reflexivity | ].
      apply session_finish; lia.
    + rewrite Z.min_l by lia. rewrite read_at_full by (unfold chunk_size in *; lia).
      cbn [sl_len]. rewrite Hok.
      destruct (IH (pos + chunk_size)) as [calls [E Hs]].
      * unfold chunk_size in *. lia.
      * replace (Z.of_nat (S fuel) - 1) with (Z.of_nat fuel) in Hfuel by lia.
        replace ((Z.of_nat fuel - 1) * chunk_size)
          with (Z.of_nat fuel * chunk_size - chunk_size) by ring.
        lia.
      * rewrite E. eexists. split; [reflexivity | ].
        apply session_append; [lia | exact Hs].
Qed.

Lemma session_bytes file_size path off calls :
  session_from file_size path off calls -> bytes_sent calls = file_size - off.
Proof.
  induction 1 as [off n Hn Hsum | off rest Hlt Hs IH].
  - simpl. lia.
  - change (bytes_sent (DAppend {| sl_off := off; sl_len := chunk_size |} off :: rest))
      with (chunk_size + bytes_sent rest).
    rewrite IH. lia.
Qed.

(** X24: a file larger than 150 MB that holds at least the bytes [stat]
    reported goes to Dropbox as one session: a start with the first
    4 MB, appends of 4 MB each and one finish with the last bytes (at
    most 4 MB, at least one), every call carrying the offset at which
    its data starts.  The bytes sent add up to the size [stat]
    reported. *)
Theorem chunked_upload_tiles_the_file fuel fails file_size len path :
  (forall c, fails c = None) ->
  single_request_limit < file_size ->
  file_size <= len ->
  file_size <= Z.of_nat fuel * chunk_size ->
  exists rest,
    _upload_to_dropbox fuel fails file_size len path
    = (Val tt, DStart {| sl_off := 0; sl_len := chunk_size |} :: rest) /\
    session_from file_size path chunk_size rest /\
    bytes_sent (DStart {| sl_off := 0; sl_len := chunk_size |} :: rest) = file_size.
Proof.
  intros Hok Hbig Hlen Hfuel. unfold _upload_to_dropbox.
  assert (Hc : chunk_size < single_request_limit) by reflexivity.
  assert (H0 : 0 < chunk_size) by reflexivity.
  destruct (Z.leb_spec file_size single_request_limit) as [Hle | _]; [lia | ].
  rewrite read_at_full by lia. cbn [sl_len]. rewrite Hok.
  destruct (session_loop_tiles fails file_size len path Hok Hlen fuel chunk_size)
    as [rest [E Hs]]; [lia | | ].
  - replace ((Z.of_nat fuel - 1) * chunk_size)
      with (Z.of_nat fuel * chunk_size - chunk_size) by ring.
    lia.
  - rewrite E. exists rest. split; [reflexivity | split; [exact Hs | ]].
    change (chunk_size + bytes_sent rest = file_size).
    rewrite (session_bytes _ _ _ _ Hs). lia.
Qed.

Lemma session_loop_short fails file_size len path :
  len < file_size ->
  forall fuel pos cursor,
    0 <= pos <= len ->
    fst (session_loop fuel fails file_size len pos cursor path) <> Val tt.
Proof.
  intros Hshort. induction fuel as [ | fuel IH]; intros pos cursor Hpos; [discriminate | ].
  cbn [session_loop].
  destruct (Z.ltb_spec pos file_size) as [_ | Hge]; [ | lia].
  set (data := read_at len pos (Z.min chunk_size (file_size - pos))).
  assert (Hnext : 0 <= pos + sl_len data <= len) by (unfold data, read_at; cbn [sl_len]; lia).
  destruct (file_size - pos <=? chunk_size).
  - destruct (fails (DFinish data cursor path)); [discriminate | ].
    specialize (IH (pos + sl_len data) cursor Hnext).
    destruct (session_loop fuel fails file_size len (pos + sl_len data) cursor path).
    exact IH.
  - destruct (fails (DAppend data cursor)); [discriminate | ].
    specialize (IH (pos + sl_len data) (pos + sl_len data) Hnext).
    destruct (session_loop fuel fails file_size len (pos + sl_len data)
                (pos + sl_len data) path).
    exact IH.
Qed.

(** X25: when the file holds fewer bytes than [stat] reported (it was
    cut after the [stat]), the chunked upload never returns: the read
    position stays below the reported size, and only an exception of a
    Dropbox call ends the loop. *)
Theorem short_file_upload_never_returns fuel fails file_size len path :
  single_request_limit < file_size ->
  0 <= len < file_size ->
  fst (_upload_to_dropbox fuel fails file_size len path) <> Val tt.
Proof.
  intros Hbig Hlen. unfold _upload_to_dropbox.
  destruct (Z.leb_spec file_size single_request_limit) as [Hle | _]; [lia | ].
  set (data := read_at len 0 chunk_size).
  destruct (fails (DStart data)); [discriminate | ].
  assert (Hpos : 0 <= sl_len data <= len) by (unfold data, read_at; cbn [sl_len]; lia).
  pose proof (session_loop_short fails file_size len path (proj2 Hlen) fuel
                (sl_len data) (sl_len data) Hpos) as H.
  destruct (session_loop fuel fails file_size len (sl_len data) (sl_len data) path).
  exact H.
Qed.

(** ** The direct-download link *)

(** The text after a replaced or copied character starts with the
    characters of the input, as far as they are not question marks. *)
Lemma replace_from_start t : forall text,
  all_chars (fun c => negb (Ascii.eqb c "?")) t = true ->
  prefix t (replace_from "?dl=0" "?dl=1" 0 text) = true ->
  prefix t text = true.
Proof.
  induction t as [ | c t IH]; intros text Hq H; [apply prefix_nil | ].
  cbn [all_chars] in Hq. apply andb_prop in Hq. destruct Hq as [Hc Hq].
  destruct text as [ | d rest]; [discriminate | ].
  cbn [replace_from] in H.
  destruct (prefix "?dl=0" (String d rest)) eqn:Hp.
  - cbn [append] in H. rewrite prefix_cons in H.
    apply andb_prop in H. destruct H as [H _].
    apply Ascii.eqb_eq in H. subst c. discriminate.
  - rewrite prefix_cons in H. apply andb_prop in H. destruct H as [Hd H].
    rewrite prefix_cons, Hd. simpl. now apply IH.
Qed.

Lemma replace_leaves_no_dl0 text : forall skip,
  contains "?dl=0" (replace_from "?dl=0" "?dl=1" skip text) = false.
Proof.
  induction text as [ | c rest IH]; intros skip; [reflexivity | ].
  cbn [replace_from]. destruct skip as [ | k]; [ | apply IH].
  destruct (prefix "?dl=0" (String c rest)) eqn:Hp.
  - cbn [append String.length Nat.sub].
    rewrite !contains_cons, !prefix_cons. cbn [Ascii.eqb Bool.eqb andb orb].
    apply IH.
  - rewrite contains_cons, IH, orb_false_r.
    destruct (prefix "?dl=0" (String c (replace_from "?dl=0" "?dl=1" 0 rest))) eqn:Hq;
      [ | reflexivity].
    rewrite prefix_cons in Hq. apply andb_prop in Hq. destruct Hq as [Hc Hq].
    apply replace_from_start in Hq; [ | reflexivity].
    rewrite prefix_cons, Hc, Hq in Hp. discriminate.
Qed.

Lemma contains_app_r needle t : forall u,
  contains needle u = true -> contains needle (t ++ u) = true.
Proof.
  induction t as [ | c t IH]; intros u H; [exact H | ].
  cbn [append]. rewrite contains_cons, (IH _ H). apply orb_true_r.
Qed.

Lemma no_dl0_append url :
  contains "?" url = false -> contains "?dl=0" (url ++ "?dl=1") = false.
Proof.
  induction url as [ | c rest IH]; intros H; [reflexivity | ].
  rewrite contains_cons in H. apply orb_false_elim in H. destruct H as [Hc Hr].
  cbn [append]. rewrite contains_cons, (IH Hr), orb_false_r.
  rewrite prefix_cons in Hc. rewrite prefix_nil, andb_true_r in Hc.
  rewrite prefix_cons, Hc. reflexivity.
Qed.

Lemma direct_download_url_no_dl0 url :
  contains "?dl=0" (direct_download_url url) = false.
Proof.
  unfold direct_download_url, replace.
  destruct (contains "?dl=0" url) eqn:H0; [apply replace_leaves_no_dl0 | ].
  destruct (contains "?" url) eqn:Hq; cbn [negb]; [exact H0 | now apply no_dl0_append].
Qed.

Lemma replace_keeps_query text : forall skip,
  contains "?dl=0" (drop skip text) = true ->
  contains "?" (replace_from "?dl=0" "?dl=1" skip text) = true.
Proof.
  induction text as [ | c rest IH]; intros skip H.
  - destruct skip; discriminate.
  - cbn [replace_from]. destruct skip as [ | k]; [ | apply IH; exact H].
    cbn [drop] in H.
    destruct (prefix "?dl=0" (String c rest)) eqn:Hp; [reflexivity | ].
    rewrite contains_cons, Hp in H. cbn [orb] in H.
    rewrite contains_cons, (IH 0%nat); [apply orb_true_r | ].
    destruct rest; exact H.
Qed.

Lemma direct_download_url_has_query url :
  contains "?" (direct_download_url url) = true.
Proof.
  unfold direct_download_url, replace.
  destruct (contains "?dl=0" url) eqn:H0.
  - apply replace_keeps_query. destruct url; exact H0.
  - destruct (contains "?" url) eqn:Hq; cbn [negb]; [exact Hq | ].
    now apply contains_app_r.
Qed.

(** X26: the URL [publish_vod_dropbox] returns never contains [?dl=0]
    and always has a query string; and the shared link was asked for
    only after the upload had returned, by one call, or by two when the
    link existed already. *)
Theorem dropbox_url_is_direct_download fuel dbx ms stamp hex8 file_size len vod_path url calls :
  publish_vod_dropbox fuel dbx ms stamp hex8 file_size len vod_path = (Val url, calls) ->
  contains "?dl=0" url = false /\ contains "?" url = true /\
  let dropbox_path := (dropbox_folder ms ++ "/" ++ unique_name stamp hex8 vod_path)%string in
  exists uploads,
    _upload_to_dropbox fuel (dbx_fails dbx) file_size len dropbox_path = (Val tt, uploads) /\
    (calls = uploads ++ [DCreateLink dropbox_path] \/
     calls = uploads ++ [DCreateLink dropbox_path; DListLinks dropbox_path])%list.
Proof.
  unfold publish_vod_dropbox.
  set (dropbox_path := (dropbox_folder ms ++ "/" ++ unique_name stamp hex8 vod_path)%string).
  destruct (_upload_to_dropbox fuel (dbx_fails dbx) file_size len dropbox_path)
    as [[[] | e | ] uploads]; try discriminate.
  unfold shared_link.
  destruct (dbx_create dbx dropbox_path) as [u | message | e].
  - intros H. inversion H; subst.
    split; [apply direct_download_url_no_dl0 | split; [apply direct_download_url_has_query | ]].
    exists uploads. split; [reflexivity | now left].
  - destruct (contains "shared_link_already_exists" (lower message)); [ | discriminate].
    destruct (dbx_links dbx dropbox_path) as [[ | u rest] | e]; try discriminate.
    intros H. inversion H; subst.
    split; [apply direct_download_url_no_dl0 | split; [apply direct_download_url_has_query | ]].
    exists uploads. split; [reflexivity | now right].
  - discriminate.
Qed.

(** * Start-up *)

Section StartupProofs.

Variable lib : PyLib.
Variable env : Env.
Variable s : Settings.
Variable ms : MoreSettings.

(** X27: [validate_settings] does not check that the publish mode is
    one of the two supported ones: in webhook mode, with a bearer token
    and the client secrets file in place, settings with any other
    publish mode pass, after the one look at the secrets file. *)
Theorem validation_accepts_unsupported_publish_mode w st :
  explicit_vod_file s = None ->
  trigger_mode s = "webhook" ->
  opus_bearer_token ms <> "" ->
  publish_mode s <> "local_http" ->
  publish_mode s <> "dropbox" ->
  fs_stat env (clock w) (yt_client_secret_file ms) = Some st ->
  validate_settings env s ms w = (Val tt, advance (io_ticks env) w).
Proof.
  intros Hex Htr Htok Hl Hd Hst.
  apply String.eqb_neq in Htok, Hl, Hd.
  unfold validate_settings. rewrite Hex, Htr, Htok, Hl, Hd.
  cbn [String.eqb Ascii.eqb Bool.eqb andb].
  unfold bind, ret, path_exists, observe. rewrite Hst. reflexivity.
Qed.

(** X30: the wait for the clips ends: with a positive poll interval and
    polls that take no negative time, a fuel of more than
    timeout / interval + 1 rounds is never used up; the wait returns
    the clips or raises. *)
Theorem clip_wait_terminates fuel pid w :
  (forall j, 0 <= fst (opus_poll env pid j)) ->
  0 < opus_poll_interval_sec s ->
  (1 <= fuel)%nat ->
  opus_wait_timeout_sec s < (Z.of_nat fuel - 1) * opus_poll_interval_sec s ->
  fst (wait_exportable_clips env s fuel pid w) <> NoFuel.
Proof. exact (clip_wait_is_bounded env s fuel pid w). Qed.

End StartupProofs.

(** * The further properties on the concrete scenario *)

(** X2, witness: a [start_download] event. *)
Lemma other_actions_resolve_to_nothing_witness :
  resolve_vod_from_webhook demo_lib demo_env demo_settings
    (JObj [("action", JStr "start_download")]) demo_world
  = (Val None, demo_world).
Proof.
  apply (other_actions_resolve_to_nothing demo_lib demo_env demo_settings
           [("action", JStr "start_download")] demo_world).
  vm_compute. discriminate.
Defined.

(** X3, witness: the recording is the one media file of the watch
    directory. *)
Lemma largest_media_is_largest_witness :
  _largest_media_in_dir demo_env demo_settings "/data/vods" demo_world
    = (Val (Some demo_vod), advance 4 demo_world) /\
  exists files wa wb keyed k,
    media_files demo_env demo_settings
      (fs_iterdir demo_env (clock demo_world + io_ticks demo_env) "/data/vods") wa
    = (Val files, wb) /\
    map fst keyed = files /\
    keys_sampled demo_env st_size keyed /\
    In (demo_vod, k) keyed /\
    (forall q k', In (q, k') keyed -> k' <= k) /\
    In (lower (suffix demo_vod)) (vod_extensions demo_settings).
Proof.
  split; [vm_compute; reflexivity | ].
  apply (largest_media_is_largest demo_env demo_settings "/data/vods" demo_world demo_vod
           (advance 4 demo_world)).
  vm_compute. reflexivity.
Defined.

(** X4, witness: the event names the recording by its basename only. *)
Lemma basename_search_prefers_unseen_witness :
  by_basename demo_lib demo_env demo_settings [("basename", JStr "stream")] demo_world
    = (Val (Some demo_vod), advance 4 demo_world) /\
  contains (searched_basename demo_lib [("basename", JStr "stream")]) (path_name demo_vod)
    = true.
Proof.
  split; [vm_compute; reflexivity | ].
  destruct (basename_search_prefers_unseen demo_lib demo_env demo_settings
              [("basename", JStr "stream")] demo_world demo_vod (advance 4 demo_world))
    as [media [wa [wb [_ [_ [_ [Hname _]]]]]]].
  - vm_compute. reflexivity.
  - exact Hname.
Defined.

(** X5, witness: the event gives the path the recorder wrote. *)
Lemma resolved_vod_has_allowed_extension_witness :
  resolve_vod_from_webhook demo_lib demo_env demo_settings
    (end_download [("path_downloaded_vod", JStr "/rec/stream.ts")]) demo_world
    = (Val (Some demo_vod), advance 2 demo_world) /\
  In (lower (suffix demo_vod)) (vod_extensions demo_settings).
Proof.
  split; [vm_compute; reflexivity | ].
  apply (resolved_vod_has_allowed_extension demo_lib demo_env demo_settings
           (end_download [("path_downloaded_vod", JStr "/rec/stream.ts")]) demo_world
           demo_vod (advance 2 demo_world)).
  vm_compute. reflexivity.
Defined.

(** X7, witness: the locator of the scenario with the vanishing
    recording raises, and the poll loop does not. *)
Lemma poll_loop_never_raises_witness :
  let env := scenario fs_vanishing demo_poll (Good "https://host/abc.ts") Written in
  fst (wait_for_finished_vod env demo_settings 1 demo_world) = Exc FileNotFoundError /\
  fst (poll_main env demo_settings 1 1 demo_world) <> Exc FileNotFoundError.
Proof.
  intros env. split; [vm_compute; reflexivity | ].
  apply (poll_loop_never_raises env demo_settings 1 1 demo_world FileNotFoundError).
Defined.

(** X8, witness: without run-once, two events with a completed run each
    leave the loop waiting. *)
Lemma continuous_webhook_loop_never_breaks_witness :
  let ev := end_download [("path_downloaded_vod", JStr "/rec/stream.ts")] in
  run_once (demo_variant "webhook" "local_http" false) = false /\
  webhook_loop demo_lib demo_env (demo_variant "webhook" "local_http" false) 5
    [Some ev; Some ev] 0 demo_world
  <> (Val (Exited, 1), demo_world).
Proof.
  intros ev. split; [reflexivity | ].
  apply (continuous_webhook_loop_never_breaks demo_lib demo_env
           (demo_variant "webhook" "local_http" false) 5 [Some ev; Some ev] 0 demo_world
           1 demo_world).
  reflexivity.
Defined.

(** X9, witness: the second event is a JSON array; the resolver raises
    AttributeError on it and the loop is left. *)
Lemma resolver_error_leaves_webhook_loop_witness :
  webhook_main demo_lib demo_env demo_settings 5
    ([None] ++ Some (JArr []) :: [Some (JObj [])]) demo_world
  = (Exc AttributeError, shutdown (set_listener true demo_world)) /\
  listener_up (shutdown (set_listener true demo_world)) = false.
Proof.
  apply (resolver_error_leaves_webhook_loop demo_lib demo_env demo_settings 5
           [None] (JArr []) [Some (JObj [])] demo_world 0 (set_listener true demo_world)
           AttributeError (set_listener true demo_world)).
  - reflexivity.
  - reflexivity.
Defined.

(** X10, witness: the publish mode [s3]. *)
Lemma unsupported_publish_mode_fails_every_run_witness :
  run_pipeline_for_vod demo_env (demo_variant "webhook" "s3" true) 5 demo_vod demo_world
  = (Exc ValueError, advance (io_ticks demo_env) demo_world).
Proof.
  apply (unsupported_publish_mode_fails_every_run demo_env (demo_variant "webhook" "s3" true)
           5 demo_vod demo_world (a_file 524288000 (-200000))).
  - discriminate.
  - discriminate.
  - reflexivity.
  - intros [].
Defined.

(** X11, witness: an event that is a JSON array. *)
Lemma non_object_payload_raises_at_once_witness :
  resolve_vod_from_webhook demo_lib demo_env demo_settings (JArr []) demo_world
  = (Exc AttributeError, demo_world).
Proof.
  apply (non_object_payload_raises_at_once demo_lib demo_env demo_settings (JArr [])
           demo_world).
  reflexivity.
Defined.

(** X14, witness: both clips of the scenario have a preview URL. *)
Lemma downloads_follow_preview_urls_witness :
  exists files w',
    download_clips demo_env demo_clips "p1" demo_world = (Val files, w') /\
    List.length files = List.length (preview_urls demo_clips) /\
    trace w' = (trace demo_world ++ map CDownload (preview_urls demo_clips))%list /\
    same_ledger demo_world w'.
Proof.
  apply (downloads_follow_preview_urls demo_env demo_clips "p1" demo_world).
  - intros url. reflexivity.
  - repeat constructor.
Defined.

(** X15, witness: the video host refuses the second of three files. *)
Lemma failed_upload_aborts_the_rest_witness :
  exists w',
    upload_from refusing_env 1 (["a.mp4"] ++ "b.mp4" :: ["c.mp4"]) demo_clips demo_world
      = (Exc HTTPError, w') /\
    trace w' = (trace demo_world ++ map CUpload (["a.mp4"] ++ ["b.mp4"]))%list /\
    same_ledger demo_world w'.
Proof.
  apply (failed_upload_aborts_the_rest refusing_env ["a.mp4"] "b.mp4" ["c.mp4"] demo_clips
           HTTPError 1%nat demo_world).
  - intros clip i. eexists. reflexivity.
  - intros q t d [Hq | []]. subst q. eexists. reflexivity.
  - intros t d. reflexivity.
Defined.

(** X16, witness: the first clip has no preview URL; the file of the
    second clip, [c2], goes up under the fallback title of the first. *)
Lemma skipped_clip_titles_next_upload_witness :
  let fa := [("id", JStr "c1")] in
  let fb := [("id", JStr "c2"); ("uriForPreview", JStr "https://cdn/c2.mp4");
             ("title", JStr "Second")] in
  exists w',
    fetch_and_upload demo_env [JObj fa; JObj fb] "p1" demo_world = (Val tt, w') /\
    trace w' = [CDownload (JStr "https://cdn/c2.mp4"); CUploaderInit;
                CUpload "downloads/p1/c2.mp4"] /\
    yt_upload demo_env "downloads/p1/c2.mp4" "Short clip" "" = Good "yt:Short clip".
Proof.
  intros fa fb.
  destruct (skipped_clip_titles_next_upload demo_env fa fb "p1" demo_world ("Short clip", ""))
    as [w' [Hrun Htrace]].
  - reflexivity.
  - reflexivity.
  - reflexivity.
  - reflexivity.
  - reflexivity.
  - exists w'. split; [exact Hrun | split; [exact Htrace | reflexivity]].
Defined.

(** X17, witness: the complete run of the scenario, from a fresh
    start. *)
Lemma run_keeps_ledger_in_sync_witness :
  in_sync demo_world /\
  let (r, w') := run_pipeline_for_vod demo_env demo_settings 5 demo_vod demo_world in
  in_sync w' \/
  exists e truncated,
    r = Exc e /\ state_write demo_env (processed w') = WriteFailed e truncated.
Proof.
  split; [reflexivity | ].
  apply (run_keeps_ledger_in_sync demo_env demo_settings 5 demo_vod demo_world).
  reflexivity.
Defined.

(** X18, witness: the scenario's run, then a restart and a second run
    on the same recording. *)
Lemma committed_vod_is_skipped_after_restart_witness :
  let w1 := snd (run_pipeline_for_vod demo_env demo_settings 5 demo_vod demo_world) in
  processed_list (processed (restarted w1)) = [demo_vod] /\
  let (r, w3) := run_pipeline_for_vod demo_env demo_settings 5 demo_vod (restarted w1) in
  trace w3 = trace (restarted w1) /\ processed w3 = processed (restarted w1) /\
  disk w3 = disk (restarted w1) /\
  r = match fs_stat demo_env (clock (restarted w1)) demo_vod with
      | Some _ => Val tt
      | None => Exc FileNotFoundError
      end.
Proof.
  intros w1. split; [vm_compute; reflexivity | ].
  apply (committed_vod_is_skipped_after_restart demo_env demo_settings 5 5 demo_vod
           demo_world w1 (restarted w1)).
  - reflexivity.
  - vm_compute. reflexivity.
  - reflexivity.
  - reflexivity.
Defined.

(** X20, witness: the name of the recording. *)
Lemma safe_names_are_left_alone_witness : _safe_name "stream.ts" = "stream.ts".
Proof. apply (safe_names_are_left_alone "stream.ts"); reflexivity. Defined.

(** X22, witness: extensions written in upper case, without a dot and
    with blanks. *)
Lemma configured_extensions_are_normalised_witness :
  vod_extensions_of " TS , mp4,,.MKV " = [".ts"; ".mp4"; ".mkv"] /\
  prefix "." ".mkv" = true /\ lower ".mkv" = ".mkv" /\
  ((2 <= String.length ".mkv")%nat \/ ".mkv" = ".").
Proof.
  split; [vm_compute; reflexivity | ].
  apply (configured_extensions_are_normalised " TS , mp4,,.MKV " ".mkv").
  vm_compute. right. right. left. reflexivity.
Defined.

(** X24, witness: a file of 10 MB more than the limit: a start, 38
    appends and the finish. *)
Lemma chunked_upload_tiles_the_file_witness :
  let size := 160 * 1024 * 1024 in
  exists rest,
    _upload_to_dropbox 100 (fun _ => None) size size "/vods/stream.ts"
    = (Val tt, DStart {| sl_off := 0; sl_len := chunk_size |} :: rest) /\
    session_from size "/vods/stream.ts" chunk_size rest /\
    bytes_sent (DStart {| sl_off := 0; sl_len := chunk_size |} :: rest) = size.
Proof.
  intros size.
  apply (chunked_upload_tiles_the_file 100 (fun _ => None) size size "/vods/stream.ts").
  - reflexivity.
  - reflexivity.
  - vm_compute. discriminate.
  - vm_compute. discriminate.
Defined.

(** X25, witness: [stat] reported 160 MB, the open file holds 10 MB. *)
Lemma short_file_upload_never_returns_witness :
  fst (_upload_to_dropbox 50 (fun _ => None) (160 * 1024 * 1024) (10 * 1024 * 1024)
         "/vods/stream.ts")
  <> Val tt.
Proof.
  apply (short_file_upload_never_returns 50 (fun _ => None) (160 * 1024 * 1024)
           (10 * 1024 * 1024) "/vods/stream.ts").
  - reflexivity.
  - split; [vm_compute; discriminate | reflexivity].
Defined.

(** X26, witness: the link exists already and ends in [?dl=0]. *)
Lemma dropbox_url_is_direct_download_witness :
  let url := "https://www.dropbox.com/s/abc/stream.ts?dl=1" in
  let path := "/vods/20240101_120000_0a1b2c3d_stream.ts" in
  publish_vod_dropbox 1 demo_dropbox demo_more "20240101_120000" "0a1b2c3d" 1000 1000 demo_vod
    = (Val url, [DUpload {| sl_off := 0; sl_len := 1000 |} path;
                 DCreateLink path; DListLinks path]) /\
  contains "?dl=0" url = false /\ contains "?" url = true.
Proof.
  intros url path. split; [vm_compute; reflexivity | ].
  destruct (dropbox_url_is_direct_download 1 demo_dropbox demo_more "20240101_120000"
              "0a1b2c3d" 1000 1000 demo_vod url
              [DUpload {| sl_off := 0; sl_len := 1000 |} path; DCreateLink path;
               DListLinks path])
    as [Hno [Hquery _]].
  - vm_compute. reflexivity.
  - split; [exact Hno | exact Hquery].
Defined.

(** X27, witness: the publish mode [s3] passes validation. *)
Lemma validation_accepts_unsupported_publish_mode_witness :
  let env := scenario (fs_with_secret demo_fs) demo_poll (Good "https://host/abc.ts") Written in
  validate_settings env (demo_variant "webhook" "s3" true) demo_more demo_world
  = (Val tt, advance (io_ticks env) demo_world).
Proof.
  intros env.
  apply (validation_accepts_unsupported_publish_mode env (demo_variant "webhook" "s3" true)
           demo_more demo_world (a_file 400 0)).
  - reflexivity.
  - reflexivity.
  - discriminate.
  - discriminate.
  - discriminate.
  - reflexivity.
Defined.

(** X29, witness: the first event resolves to the recording, whose
    run fails at publishing and is caught; at the second event the
    recording is listed and is gone before the resolver reads its date,
    and that error leaves the loop. *)
Lemma webhook_loop_errors_come_from_resolver_witness :
  let env := scenario (fs_until 6) demo_poll (Bad HTTPError) Written in
  let first := end_download [("path_downloaded_vod", JStr "/rec/stream.ts")] in
  let second := end_download [("basename", JStr "stream")] in
  fst (webhook_loop demo_lib env demo_settings 5 [Some first; None; Some second] 0 demo_world)
    = Exc FileNotFoundError /\
  exists pre payload post h1 w1 w',
    [Some first; None; Some second] = (pre ++ Some payload :: post)%list /\
    webhook_loop demo_lib env demo_settings 5 pre 0 demo_world = (Val (Waiting, h1), w1) /\
    resolve_vod_from_webhook demo_lib env demo_settings payload w1
      = (Exc FileNotFoundError, w').
Proof.
  intros env first second. split; [vm_compute; reflexivity | ].
  set (w' := snd (webhook_loop demo_lib env demo_settings 5 [Some first; None; Some second] 0
                    demo_world)).
  destruct (webhook_loop_errors_come_from_resolver demo_lib env demo_settings 5
              [Some first; None; Some second] 0 demo_world FileNotFoundError w')
    as [pre [payload [post [h1 [w1 [Hev [Hpre Hres]]]]]]].
  - vm_compute. reflexivity.
  - exists pre, payload, post, h1, w1, w'. split; [exact Hev | split; [exact Hpre | exact Hres]].
Defined.

(** X30, witness: a timeout of 300 s and an interval of 15 s: thirty
    rounds are enough. *)
Lemma clip_wait_terminates_witness :
  fst (wait_exportable_clips demo_env demo_settings 30 "p1" demo_world) <> NoFuel.
Proof.
  apply (clip_wait_terminates demo_env demo_settings 30 "p1" demo_world).
  - intros j. vm_compute. discriminate.
  - reflexivity.
  - vm_compute. repeat constructor.
  - reflexivity.
Defined.

(** X23 on concrete clips: a blank title, a title between no-break
    spaces, and a title of 101 characters of two bytes each, of which
    100 are sent. *)
Example yt_text_examples :
  build_yt_text demo_lib demo_more (JObj [("title", JStr "  ")]) 3
    = Good ("Twitch clip #3", "") /\
  build_yt_text demo_lib demo_more
    (JObj [("title", JStr (nbsp ++ "Best play" ++ nbsp)); ("hashtags", JStr " #fun ")]) 1
    = Good ("Best play", "#fun") /\
  build_yt_text demo_lib demo_more (JObj [("title", JNum 7)]) 1 = Bad AttributeError /\
  String.length long_title = 202%nat /\
  char_count long_title = 101%nat /\
  char_count (fst (fst (upload_snippet demo_more long_title "" None))) = 100%nat /\
  String.length (fst (fst (upload_snippet demo_more long_title "" None))) = 200%nat.
Proof. vm_compute. repeat split. Qed.

(** White space of more than one byte is stripped like a blank. *)
Example strip_removes_unicode_blanks :
  strip (nbsp ++ " /rec/stream.ts" ++ em_space ++ nbsp) = "/rec/stream.ts" /\
  strip (em_space ++ nbsp) = "" /\
  strip ("a" ++ nbsp ++ "b") = ("a" ++ nbsp ++ "b")%string.
Proof. vm_compute. repeat split. Qed.

(** C8 with a no-break space: the first direct path ends in U+00A0,
    which [strip] takes off, so the older recording it names is the
    first existing direct path and is what the resolver returns; the
    second, rewritten path is not reached. *)
Example blank_after_direct_path_is_stripped :
  let env := scenario fs_vanishing demo_poll (Good "https://host/abc.ts") Written in
  let vod := [("path_downloaded_vod", JStr ("/data/vods/old.mp4" ++ nbsp));
              ("path_playlist", JStr "/rec/stream.ts")] in
  direct_paths vod = ["/data/vods/old.mp4"; "/rec/stream.ts"] /\
  fst (resolve_vod_from_webhook demo_lib env demo_settings (end_download vod) demo_world)
    = Val (Some "/data/vods/old.mp4").
Proof. vm_compute. split; reflexivity. Qed.
